(** * Content-suggestion engine: a shallow embedding and its properties

    The development follows the backend of the social-media assistant:
    the suggestion controller ([callWithBackoff], [downloadImageToUploads],
    [getOrGenerateSuggestions], [refreshSingleSuggestion],
    [getOrGenerateUserSuggestions]) and the suggestion service
    ([fetchAndStoreInstagramPosts], the two generation strategies, the
    response parsing ladder and [generateImagesForSuggestions]).

    Conventions of the model.
    - Strings are byte strings.  The JavaScript operations on them
      ([trim], [startsWith], [substring], [length], the regular
      expressions) are modelled on ASCII text, where bytes and UTF-16
      code units coincide.
    - Asynchronous code is sequential ([await] at every call), so a
      computation is a function from the state of the world to a
      completion (a value or a thrown error) and a new world.  State
      changes made before a [throw] persist, as in JavaScript.
    - External services (text completion, image generation, HTTP
      download, the social-platform media API, [Math.random]) are
      oracles indexed by the number of calls made so far. *)

From Stdlib Require Import String Ascii List ZArith Lia Bool Arith.
From Stdlib Require Import Sorting.Permutation Sorting.Sorted.
From Stdlib Require Import DecimalString.
Import ListNotations.

Set Warnings "-register-all".

Local Open Scope string_scope.
Local Open Scope list_scope.
Local Open Scope nat_scope.

(** String concatenation, written apart from the concatenation of lists. *)
Infix "+++" := String.append (at level 60, right associativity).

(* ------------------------------------------------------------------ *)
(** ** JavaScript strings *)
(* ------------------------------------------------------------------ *)

Module JsString.

Definition chars (s : string) : list ascii := list_ascii_of_string s.
Definition text (l : list ascii) : string := string_of_list_ascii l.

(** The white space of [\s] and of [String.prototype.trim], restricted to
    ASCII: tab, line feed, vertical tab, form feed, carriage return, space. *)
Definition isSpace (c : ascii) : bool :=
  let n := nat_of_ascii c in
  ((9 <=? n) && (n <=? 13)) || (n =? 32).

(** [\w] of the regular expressions: letters, digits and underscore. *)
Definition isWordChar (c : ascii) : bool :=
  let n := nat_of_ascii c in
  ((48 <=? n) && (n <=? 57)) || ((65 <=? n) && (n <=? 90))
  || ((97 <=? n) && (n <=? 122)) || (n =? 95).

Fixpoint dropWhile {A} (p : A -> bool) (l : list A) : list A :=
  match l with
  | [] => []
  | x :: r => if p x then dropWhile p r else l
  end.

Definition dropWhileEnd {A} (p : A -> bool) (l : list A) : list A :=
  rev (dropWhile p (rev l)).

Fixpoint stripPrefix (p l : list ascii) : option (list ascii) :=
  match p, l with
  | [], _ => Some l
  | a :: p', b :: l' => if Ascii.eqb a b then stripPrefix p' l' else None
  | _ :: _, [] => None
  end.

Definition stripSuffix (p l : list ascii) : option (list ascii) :=
  match stripPrefix (rev p) (rev l) with
  | Some r => Some (rev r)
  | None => None
  end.

(** [s.trim()] *)
Definition trimChars (l : list ascii) : list ascii :=
  dropWhileEnd isSpace (dropWhile isSpace l).
Definition trim (s : string) : string := text (trimChars (chars s)).

(** [s.startsWith(p)] *)
Definition startsWith (p s : string) : bool :=
  match stripPrefix (chars p) (chars s) with Some _ => true | None => false end.

(** [s.replace(/^p\s*/, '')] for a literal [p]: when [s] starts with [p],
    [p] and the white space after it are removed. *)
Definition removeLeading (p : string) (l : list ascii) : list ascii :=
  match stripPrefix (chars p) l with
  | Some r => dropWhile isSpace r
  | None => l
  end.

(** [s.replace(/\s*p$/, '')] for a literal [p]: when [s] ends with [p],
    [p] and the white space before it are removed (the leftmost match of
    the pattern starts where that run of white space starts). *)
Definition removeTrailing (p : string) (l : list ascii) : list ascii :=
  match stripSuffix (chars p) l with
  | Some r => dropWhileEnd isSpace r
  | None => l
  end.

(** The suffix of [l] that starts at the first occurrence of [c]. *)
Fixpoint fromFirst (c : ascii) (l : list ascii) : option (list ascii) :=
  match l with
  | [] => None
  | x :: r => if Ascii.eqb x c then Some l else fromFirst c r
  end.

(** The prefix of [l] that ends at the last occurrence of [c]. *)
Definition throughLast (c : ascii) (l : list ascii) : option (list ascii) :=
  match fromFirst c (rev l) with
  | Some r => Some (rev r)
  | None => None
  end.

(** [s.match(/\[[\s\S]*\]/)]: the leftmost match starts at the first
    opening bracket and, the star being greedy, ends at the last closing
    bracket of the string; there is no match when no closing bracket
    follows the first opening one. *)
Definition matchBracketed (s : string) : option string :=
  match fromFirst "["%char (chars s) with
  | Some (_ :: r) =>
      match throughLast "]"%char r with
      | Some body => Some (text ("["%char :: body))
      | None => None
      end
  | _ => None
  end.

(** The first bracketed substring whose brackets balance, as the
    specification words the fallback, for comparison with
    [matchBracketed]: from the first opening bracket to the closing
    bracket that brings the nesting depth back to zero. *)
Fixpoint balancedPrefix (depth : nat) (l : list ascii) : option (list ascii) :=
  match l with
  | [] => None
  | c :: r =>
      if Ascii.eqb c "["%char then
        match balancedPrefix (S depth) r with
        | Some body => Some (c :: body)
        | None => None
        end
      else if Ascii.eqb c "]"%char then
        match depth with
        | 0 => None
        | 1 => Some [c]
        | S d => match balancedPrefix d r with
                 | Some body => Some (c :: body)
                 | None => None
                 end
        end
      else match balancedPrefix depth r with
           | Some body => Some (c :: body)
           | None => None
           end
  end.

Definition matchBalanced (s : string) : option string :=
  match fromFirst "["%char (chars s) with
  | Some l =>
      match balancedPrefix 0 l with
      | Some m => Some (text m)
      | None => None
      end
  | None => None
  end.

(** The character [c] does not occur in [s]. *)
Definition lacks (c : ascii) (s : string) : bool :=
  forallb (fun x => negb (Ascii.eqb x c)) (chars s).

(** [s.substring(0, n)] *)
Definition substring0 (n : nat) (s : string) : string := text (firstn n (chars s)).

(** [s.replace(/\n/g, " ")] *)
Definition newlinesToSpaces (s : string) : string :=
  text (map (fun c => if Ascii.eqb c "010"%char then " "%char else c) (chars s)).

(** [parts.join(sep)] *)
Fixpoint join (sep : string) (parts : list string) : string :=
  match parts with
  | [] => EmptyString
  | [x] => x
  | x :: r => x +++ sep +++ join sep r
  end.

(** Decimal rendering of an integer, as in a template literal. *)
Definition ofZ (z : Z) : string := NilZero.string_of_int (Z.to_int z).

(** [caption.match(/#\w+/g)] followed by [tag.substring(1)]: the maximal
    runs of word characters that follow a [#], scanned left to right. *)
Fixpoint takeWhile {A} (p : A -> bool) (l : list A) : list A :=
  match l with
  | [] => []
  | x :: r => if p x then x :: takeWhile p r else []
  end.

Fixpoint hashtagsFrom (fuel : nat) (l : list ascii) : list string :=
  match fuel with
  | 0 => []
  | S f =>
      match l with
      | [] => []
      | c :: r =>
          if Ascii.eqb c "#"%char then
            match takeWhile isWordChar r with
            | [] => hashtagsFrom f r
            | w => text w :: hashtagsFrom f (dropWhile isWordChar r)
            end
          else hashtagsFrom f r
      end
  end.

Definition hashtagsOf (caption : string) : list string :=
  hashtagsFrom (S (String.length caption)) (chars caption).

End JsString.

Import JsString.

(* ------------------------------------------------------------------ *)
(** ** JSON values and [JSON.parse] *)
(* ------------------------------------------------------------------ *)

(** A number keeps its lexeme; an object keeps its members in insertion
    order, each key once. *)
Inductive JValue : Type :=
| JNull
| JBool (b : bool)
| JNum (lexeme : string)
| JStr (s : string)
| JArr (items : list JValue)
| JObj (members : list (string * JValue)).

Definition JObject := list (string * JValue).

Module Json.

(** [obj[key]]; [None] is [undefined]. *)
Fixpoint getField (key : string) (o : JObject) : option JValue :=
  match o with
  | [] => None
  | (k, v) :: r => if String.eqb k key then Some v else getField key r
  end.

(** [obj[key] = v]: an existing member keeps its place, a new one is
    added last. *)
Fixpoint setField (key : string) (v : JValue) (o : JObject) : JObject :=
  match o with
  | [] => [(key, v)]
  | (k, x) :: r =>
      if String.eqb k key then (k, v) :: r else (k, x) :: setField key v r
  end.

(** White space of the JSON grammar: space, tab, line feed, carriage return. *)
Definition isJsonSpace (c : ascii) : bool :=
  let n := nat_of_ascii c in
  (n =? 32) || (n =? 9) || (n =? 10) || (n =? 13).

Definition isDigit (c : ascii) : bool :=
  let n := nat_of_ascii c in (48 <=? n) && (n <=? 57).

Definition hexValue (c : ascii) : option N :=
  let n := N_of_ascii c in
  (if (48 <=? n) && (n <=? 57) then Some (n - 48)
   else if (65 <=? n) && (n <=? 70) then Some (n - 55)
   else if (97 <=? n) && (n <=? 102) then Some (n - 87)
   else None)%N.

Definition hex4 (a b c d : ascii) : option N :=
  match hexValue a, hexValue b, hexValue c, hexValue d with
  | Some x, Some y, Some z, Some w => Some (((x * 16 + y) * 16 + z) * 16 + w)%N
  | _, _, _, _ => None
  end.

(** UTF-8 bytes of a code point (a lone surrogate is written as the
    three bytes of its value). *)
Definition utf8 (cp : N) : list ascii :=
  (if cp <? 128 then [ascii_of_N cp]
   else if cp <? 2048 then
     [ascii_of_N (192 + cp / 64); ascii_of_N (128 + cp mod 64)]
   else if cp <? 65536 then
     [ascii_of_N (224 + cp / 4096); ascii_of_N (128 + (cp / 64) mod 64);
      ascii_of_N (128 + cp mod 64)]
   else
     [ascii_of_N (240 + cp / 262144); ascii_of_N (128 + (cp / 4096) mod 64);
      ascii_of_N (128 + (cp / 64) mod 64); ascii_of_N (128 + cp mod 64)])%N.

Definition isHighSurrogate (u : N) : bool := ((55296 <=? u) && (u <? 56320))%N.
Definition isLowSurrogate (u : N) : bool := ((56320 <=? u) && (u <? 57344))%N.

(** The characters of a string literal after its opening quote, up to the
    closing quote; the rest of the input follows. *)
Fixpoint parseStringBody (fuel : nat) (l : list ascii)
  : option (list ascii * list ascii) :=
  match fuel with
  | 0 => None
  | S f =>
      match l with
      | [] => None
      | "034"%char :: r => Some ([], r)
      | "092"%char :: e :: r =>
          let simple (c : ascii) :=
            match parseStringBody f r with
            | Some (cs, rest) => Some (c :: cs, rest)
            | None => None
            end in
          match e with
          | "034"%char => simple "034"%char
          | "092"%char => simple "092"%char
          | "/"%char => simple "/"%char
          | "b"%char => simple "008"%char
          | "f"%char => simple "012"%char
          | "n"%char => simple "010"%char
          | "r"%char => simple "013"%char
          | "t"%char => simple "009"%char
          | "u"%char =>
              match r with
              | a :: b :: c :: d :: r1 =>
                  match hex4 a b c d with
                  | None => None
                  | Some hi =>
                      let single :=
                        match parseStringBody f r1 with
                        | Some (cs, rest) => Some (utf8 hi ++ cs, rest)
                        | None => None
                        end in
                      if isHighSurrogate hi then
                        match r1 with
                        | "092"%char :: "u"%char :: a2 :: b2 :: c2 :: d2 :: r2 =>
                            match hex4 a2 b2 c2 d2 with
                            | Some lo =>
                                if isLowSurrogate lo then
                                  match parseStringBody f r2 with
                                  | Some (cs, rest) =>
                                      Some (utf8 (65536 + (hi - 55296) * 1024
                                                  + (lo - 56320))%N ++ cs, rest)
                                  | None => None
                                  end
                                else single
                            | None => single
                            end
                        | _ => single
                        end
                      else single
                  end
              | _ => None
              end
          | _ => None
          end
      | c :: r =>
          if nat_of_ascii c <? 32 then None
          else match parseStringBody f r with
               | Some (cs, rest) => Some (c :: cs, rest)
               | None => None
               end
      end
  end.

Definition spanDigits (l : list ascii) : list ascii * list ascii :=
  (takeWhile isDigit l, dropWhile isDigit l).

(** A number lexeme: an optional minus sign, an integer part without a
    leading zero (or a single zero), an optional fraction and an optional
    exponent. *)
Definition parseNumber (l : list ascii) : option (list ascii * list ascii) :=
  let (sign, l1) :=
    match l with
    | "-"%char :: r => (["-"%char], r)
    | _ => ([], l)
    end in
  let intPart :=
    match l1 with
    | "0"%char :: r => Some (["0"%char], r)
    | _ => match spanDigits l1 with
           | ([], _) => None
           | (ds, r) => Some (ds, r)
           end
    end in
  match intPart with
  | None => None
  | Some (ip, l2) =>
      let fracPart :=
        match l2 with
        | "."%char :: r =>
            match spanDigits r with
            | ([], _) => None
            | (ds, r') => Some ("."%char :: ds, r')
            end
        | _ => Some ([], l2)
        end in
      match fracPart with
      | None => None
      | Some (fp, l3) =>
          let expPart :=
            match l3 with
            | e :: r =>
                if Ascii.eqb e "e"%char || Ascii.eqb e "E"%char then
                  let (sg, r1) :=
                    match r with
                    | "+"%char :: r' => (["+"%char], r')
                    | "-"%char :: r' => (["-"%char], r')
                    | _ => ([], r)
                    end in
                  match spanDigits r1 with
                  | ([], _) => None
                  | (ds, r2) => Some (e :: sg ++ ds, r2)
                  end
                else Some ([], l3)
            | [] => Some ([], l3)
            end in
          match expPart with
          | None => None
          | Some (ep, l4) => Some (sign ++ ip ++ fp ++ ep, l4)
          end
      end
  end.

Definition skipWs (l : list ascii) : list ascii := dropWhile isJsonSpace l.

Fixpoint parseValue (fuel : nat) (l : list ascii) : option (JValue * list ascii) :=
  match fuel with
  | 0 => None
  | S f =>
      match skipWs l with
      | "n"%char :: "u"%char :: "l"%char :: "l"%char :: r => Some (JNull, r)
      | "t"%char :: "r"%char :: "u"%char :: "e"%char :: r => Some (JBool true, r)
      | "f"%char :: "a"%char :: "l"%char :: "s"%char :: "e"%char :: r =>
          Some (JBool false, r)
      | "034"%char :: r =>
          match parseStringBody (S (length r)) r with
          | Some (cs, rest) => Some (JStr (text cs), rest)
          | None => None
          end
      | "["%char :: r =>
          match skipWs r with
          | "]"%char :: rest => Some (JArr [], rest)
          | _ => match parseElements f r with
                 | Some (vs, rest) => Some (JArr vs, rest)
                 | None => None
                 end
          end
      | "{"%char :: r =>
          match skipWs r with
          | "}"%char :: rest => Some (JObj [], rest)
          | _ => match parseMembers f [] r with
                 | Some (ms, rest) => Some (JObj ms, rest)
                 | None => None
                 end
          end
      | c :: r =>
          if isDigit c || Ascii.eqb c "-"%char then
            match parseNumber (c :: r) with
            | Some (lx, rest) => Some (JNum (text lx), rest)
            | None => None
            end
          else None
      | [] => None
      end
  end

with parseElements (fuel : nat) (l : list ascii) : option (list JValue * list ascii) :=
  match fuel with
  | 0 => None
  | S f =>
      match parseValue f l with
      | Some (v, r) =>
          match skipWs r with
          | ","%char :: r' =>
              match parseElements f r' with
              | Some (vs, rest) => Some (v :: vs, rest)
              | None => None
              end
          | "]"%char :: rest => Some ([v], rest)
          | _ => None
          end
      | None => None
      end
  end

with parseMembers (fuel : nat) (acc : JObject) (l : list ascii)
  : option (JObject * list ascii) :=
  match fuel with
  | 0 => None
  | S f =>
      match skipWs l with
      | "034"%char :: r =>
          match parseStringBody (S (length r)) r with
          | Some (ks, r1) =>
              match skipWs r1 with
              | ":"%char :: r2 =>
                  match parseValue f r2 with
                  | Some (v, r3) =>
                      let acc' := setField (text ks) v acc in
                      match skipWs r3 with
                      | ","%char :: r4 => parseMembers f acc' r4
                      | "}"%char :: rest => Some (acc', rest)
                      | _ => None
                      end
                  | None => None
                  end
              | _ => None
              end
          | None => None
          end
      | _ => None
      end
  end.

(** [JSON.parse(s)]: [None] stands for the [SyntaxError] it throws. *)
Definition parse (s : string) : option JValue :=
  let l := chars s in
  match parseValue (2 * length l + 2) l with
  | Some (v, rest) =>
      match skipWs rest with
      | [] => Some v
      | _ :: _ => None
      end
  | None => None
  end.

End Json.

(* ------------------------------------------------------------------ *)
(** ** Data model *)
(* ------------------------------------------------------------------ *)

(** A thrown JavaScript error: [error.response?.status] and [error.message]. *)
Record JsError : Type := mkError {
  response_status : option Z;
  message : string
}.

Definition plainError (msg : string) : JsError := mkError None msg.

(** A [TypeError] raised by the language itself. *)
Definition typeError (msg : string) : JsError := mkError None ("TypeError: " +++ msg).

Record BusinessProfile : Type := {
  bp_userId : string;
  businessType : string;
  contentTypes : list string;
  marketingGoals : list string;
  audienceType : string;
  toneOfVoice : string;
  postLength : string;
  emojisAllowed : bool;
  favoriteEmojis : list string;
  hashtagsStyle : string;
  keywords : string;
  customHashtags : string
}.

Record User : Type := {
  user_id : string;
  instagramConnected : bool;
  instagramAccessToken : option string
}.

(** A suggestion once its images are set: the parsed members other than
    [imageUrls], and the [imageUrls] array. *)
Record Suggestion : Type := mkSuggestion {
  fields : JObject;
  imageUrls : list string
}.

Inductive Source : Type := businessProfile | userProfile.

Definition Source_eqb (a b : Source) : bool :=
  match a, b with
  | businessProfile, businessProfile => true
  | userProfile, userProfile => true
  | _, _ => false
  end.

(** A stored suggestion: [{...item, userId, source, refreshed, createdAt}]
    with the [_id] the store gives it. *)
Record SuggestionDoc : Type := mkDoc {
  doc_id : string;
  doc_userId : string;
  doc_source : Source;
  doc_refreshed : bool;
  doc_createdAt : Z;
  doc_item : Suggestion
}.

(** A post as the social platform's media API returns it; a missing
    member is [None]. *)
Record RemotePost : Type := {
  rp_id : option string;
  rp_caption : option string;
  rp_media_type : option string;
  rp_media_url : option string;
  rp_timestamp : option string;
  rp_like_count : option Z;
  rp_comments_count : option Z
}.

Record InstagramPostDoc : Type := mkPost {
  ip_userId : string;
  instagramId : string;
  caption : string;
  mediaType : string;
  mediaUrl : string;
  timestamp : option string;
  likeCount : Z;
  commentsCount : Z;
  ip_content : string;
  ip_contentType : string;
  ip_imageUrls : list string;
  ip_hashtags : list string;
  engagement : Z * Z
}.

Inductive Collection : Type := ContentSuggestion | InstagramContentSuggestion.

(** What a run leaves behind: calls to external services, pauses, and
    writes to the stores and to the upload directory. *)
Inductive Event : Type :=
| EvSleep (ms : Z)
| EvChatCompletion (prompt : string)
| EvImageGenerate (prompt : string) (n : nat) (size : string)
| EvHttpGet (url : string)
| EvInstagramMedia (accessToken : string)
| EvDeleteMany (c : Collection) (userId : string)
| EvInsertMany (c : Collection) (count : nat)
| EvUpdateById (c : Collection) (id : string)
| EvCreatePost (id : string)
| EvWriteFile (filename : string).

(** Number of calls made so far to each oracle. *)
Record Calls : Type := mkCalls {
  chatCalls : nat;
  imageCalls : nat;
  httpCalls : nat;
  mediaCalls : nat;
  randomCalls : nat;
  idCalls : nat
}.

Record World : Type := mkWorld {
  now : Z;                                       (* [Date.now()], in ms *)
  users : list User;
  businessProfiles : list BusinessProfile;
  contentSuggestions : list SuggestionDoc;
  instagramContentSuggestions : list SuggestionDoc;
  instagramPosts : list InstagramPostDoc;
  uploads : list string;                         (* files of the upload directory *)
  calls : Calls;
  trace : list Event                             (* oldest first *)
}.

(** Outcomes of the external services. *)
Inductive ChatOutcome : Type :=
| ChatContent (content : option string)   (* [choices[0].message?.content] *)
| ChatFailed (e : JsError).

Inductive ImagesOutcome : Type :=
| ImagesData (data : option (list string))   (* the [url]s of [data], when an array *)
| ImagesFailed (e : JsError).

Inductive DownloadOutcome : Type :=
| Downloaded
| RequestFailed (e : JsError)
| WriteFailed (e : JsError) (fileLeft : bool).

Inductive MediaOutcome : Type :=
| MediaData (data : option (list RemotePost))
| MediaFailed (e : JsError).

(** The environment of the engine.  The oracles take the number of the
    call and its request. *)
Record Env : Type := {
  chatCompletion : nat -> string -> ChatOutcome;
  imagesGenerate : nat -> string -> ImagesOutcome;
  httpGetStream : nat -> string -> DownloadOutcome;
  instagramMedia : nat -> string -> MediaOutcome;
  mathRandom : nat -> string;          (* [Math.random().toString(36).substring(2, 15)] *)
  newObjectId : nat -> string;
  objectIdIsValid : string -> bool;    (* [mongoose.Types.ObjectId.isValid] *)
  numberToString : string -> string    (* [String(n)] of a number, from its lexeme *)
}.

(* ------------------------------------------------------------------ *)
(** ** Computations *)
(* ------------------------------------------------------------------ *)

Inductive Completion (A : Type) : Type :=
| Returned (a : A)
| Thrown (e : JsError).
Arguments Returned {A} a.
Arguments Thrown {A} e.

Definition Async (A : Type) : Type := World -> Completion A * World.

Definition ret {A} (a : A) : Async A := fun w => (Returned a, w).
Definition throw {A} (e : JsError) : Async A := fun w => (Thrown e, w).

Definition bind {A B} (m : Async A) (k : A -> Async B) : Async B :=
  fun w =>
    match m w with
    | (Returned a, w1) => k a w1
    | (Thrown e, w1) => (Thrown e, w1)
    end.

(** [try { body } catch (e) { handler }] *)
Definition tryCatch {A} (body : Async A) (handler : JsError -> Async A) : Async A :=
  fun w =>
    match body w with
    | (Returned a, w1) => (Returned a, w1)
    | (Thrown e, w1) => handler e w1
    end.

Declare Scope async_scope.
Notation "x <- m ;; k" := (bind m (fun x => k))
  (at level 100, m at next level, right associativity) : async_scope.
Notation "m ;;; k" := (bind m (fun _ => k))
  (at level 100, right associativity) : async_scope.
Local Open Scope async_scope.

(** [for (const x of xs) { ... }] where the body replaces [x]. *)
Fixpoint forEach {A B} (body : A -> Async B) (xs : list A) : Async (list B) :=
  match xs with
  | [] => ret []
  | x :: r => y <- body x ;; ys <- forEach body r ;; ret (y :: ys)
  end.

Definition lift {A} (c : Completion A) : Async A := fun w => (c, w).

(** *** Updates of the world *)

Definition setNow (t : Z) (w : World) : World :=
  mkWorld t (users w) (businessProfiles w) (contentSuggestions w)
    (instagramContentSuggestions w) (instagramPosts w) (uploads w) (calls w) (trace w).
Definition setContentSuggestions (l : list SuggestionDoc) (w : World) : World :=
  mkWorld (now w) (users w) (businessProfiles w) l
    (instagramContentSuggestions w) (instagramPosts w) (uploads w) (calls w) (trace w).
Definition setInstagramContentSuggestions (l : list SuggestionDoc) (w : World) : World :=
  mkWorld (now w) (users w) (businessProfiles w) (contentSuggestions w)
    l (instagramPosts w) (uploads w) (calls w) (trace w).
Definition setInstagramPosts (l : list InstagramPostDoc) (w : World) : World :=
  mkWorld (now w) (users w) (businessProfiles w) (contentSuggestions w)
    (instagramContentSuggestions w) l (uploads w) (calls w) (trace w).
Definition setUploads (l : list string) (w : World) : World :=
  mkWorld (now w) (users w) (businessProfiles w) (contentSuggestions w)
    (instagramContentSuggestions w) (instagramPosts w) l (calls w) (trace w).
Definition setCalls (c : Calls) (w : World) : World :=
  mkWorld (now w) (users w) (businessProfiles w) (contentSuggestions w)
    (instagramContentSuggestions w) (instagramPosts w) (uploads w) c (trace w).
Definition log (e : Event) (w : World) : World :=
  mkWorld (now w) (users w) (businessProfiles w) (contentSuggestions w)
    (instagramContentSuggestions w) (instagramPosts w) (uploads w) (calls w)
    (trace w ++ [e]).

Definition bumpChat (w : World) : World :=
  let c := calls w in
  setCalls (mkCalls (S (chatCalls c)) (imageCalls c) (httpCalls c) (mediaCalls c)
              (randomCalls c) (idCalls c)) w.
Definition bumpImage (w : World) : World :=
  let c := calls w in
  setCalls (mkCalls (chatCalls c) (S (imageCalls c)) (httpCalls c) (mediaCalls c)
              (randomCalls c) (idCalls c)) w.
Definition bumpHttp (w : World) : World :=
  let c := calls w in
  setCalls (mkCalls (chatCalls c) (imageCalls c) (S (httpCalls c)) (mediaCalls c)
              (randomCalls c) (idCalls c)) w.
Definition bumpMedia (w : World) : World :=
  let c := calls w in
  setCalls (mkCalls (chatCalls c) (imageCalls c) (httpCalls c) (S (mediaCalls c))
              (randomCalls c) (idCalls c)) w.
Definition bumpRandom (w : World) : World :=
  let c := calls w in
  setCalls (mkCalls (chatCalls c) (imageCalls c) (httpCalls c) (mediaCalls c)
              (S (randomCalls c)) (idCalls c)) w.
Definition bumpIds (n : nat) (w : World) : World :=
  let c := calls w in
  setCalls (mkCalls (chatCalls c) (imageCalls c) (httpCalls c) (mediaCalls c)
              (randomCalls c) (n + idCalls c)) w.

(** [await new Promise(r => setTimeout(r, ms))] *)
Definition sleep (ms : Z) (w : World) : World :=
  log (EvSleep ms) (setNow (now w + ms)%Z w).

Definition sleepsOf (t : list Event) : list Z :=
  flat_map (fun e => match e with EvSleep ms => [ms] | _ => [] end) t.

(** The newest item of a bucket, its age, and the two states of a bucket
    in the words of the staleness policy: fewer than three items or a
    newest item older than a day; at least three items and a newest item
    no older than a day. *)
Definition dayInMs : Z := 86400000.

Definition isNewest (n : SuggestionDoc) (bucket : list SuggestionDoc) : Prop :=
  In n bucket /\ forall d, In d bucket -> (doc_createdAt d <= doc_createdAt n)%Z.

Definition ageOf (w : World) (d : SuggestionDoc) : Z := (now w - doc_createdAt d)%Z.

Definition stale (w : World) (bucket : list SuggestionDoc) : Prop :=
  length bucket < 3 \/ exists n, isNewest n bucket /\ (dayInMs < ageOf w n)%Z.

Definition fresh (w : World) (bucket : list SuggestionDoc) : Prop :=
  3 <= length bucket /\ exists n, isNewest n bucket /\ (ageOf w n <= dayInMs)%Z.

Definition allFresh (w : World) (bucket : list SuggestionDoc) : Prop :=
  3 <= length bucket /\ forall d, In d bucket -> (ageOf w d <= dayInMs)%Z.

Definition atMostOneImage (d : SuggestionDoc) : Prop :=
  length (imageUrls (doc_item d)) <= 1.

(** Every document of [after] was in [before] or has at most one image URL. *)
Definition writtenWithOneImage (before after : list SuggestionDoc) : Prop :=
  forall d, In d after -> In d before \/ atMostOneImage d.

Definition imageUrls_of_completion (c : Completion Suggestion) : option (list string) :=
  match c with
  | Returned item => Some (imageUrls item)
  | Thrown _ => None
  end.

(** The URLs fetched over HTTP, in order. *)
Definition fetchesOf (t : list Event) : list string :=
  flat_map (fun e => match e with EvHttpGet url => [url] | _ => [] end) t.

(** *** Frames *)

(** [P] is kept by a computation. *)
Definition Stable {A} (P : World -> Prop) (m : Async A) : Prop :=
  forall w, P w -> P (snd (m w)).

(** [P] does not look at the clock, the call counters, the trace or the
    upload directory. *)
Record Ignores (P : World -> Prop) : Prop := {
  ignores_log : forall e w, P w -> P (log e w);
  ignores_calls : forall c w, P w -> P (setCalls c w);
  ignores_now : forall t w, P w -> P (setNow t w);
  ignores_uploads : forall l w, P w -> P (setUploads l w)
}.


(** Stable sort by decreasing key, as [find(...).sort({ key: -1 })]; equal
    keys keep their stored order. *)
Fixpoint insertDesc {A} (key : A -> Z) (x : A) (l : list A) : list A :=
  match l with
  | [] => [x]
  | y :: r => if (key y <=? key x)%Z then x :: y :: r else y :: insertDesc key x r
  end.

Definition sortDescBy {A} (key : A -> Z) (l : list A) : list A :=
  fold_right (insertDesc key) [] l.

Definition dquote : string := String "034"%char EmptyString.
Definition quoted (s : string) : string := dquote +++ s +++ dquote.
Definition newline : string := String "010"%char EmptyString.
Definition lines (l : list string) : string := join newline l.

(** [a || b] on strings *)
Definition orElse (a b : string) : string := if String.eqb a EmptyString then b else a.

(** [x && y] as a condition, on optional strings *)
Definition truthy (o : option string) : bool :=
  match o with
  | Some s => negb (String.eqb s EmptyString)
  | None => false
  end.

(* ------------------------------------------------------------------ *)
(** ** The suggestion service and controller *)
(* ------------------------------------------------------------------ *)

Section Engine.

Variable env : Env.

(** *** [callWithBackoff] *)

(** [error.response?.status === 429] *)
Definition isRateLimit (e : JsError) : bool :=
  match response_status e with
  | Some s => (s =? 429)%Z
  | None => false
  end.

(** [retries] counts the retries that remain ([retries - i] of the loop):
    the test [i < retries] is [0 < retries] here, and a retry runs the
    loop with one retry less and twice the delay.  The [throw] after the
    loop is reached for a negative [retries] only, which [nat] leaves
    out. *)
Fixpoint callWithBackoff {T} (fn : Async T) (retries : nat) (delayMs : Z) : Async T :=
  fun w =>
    match fn w with
    | (Returned v, w1) => (Returned v, w1)
    | (Thrown error, w1) =>
        if isRateLimit error then
          match retries with
          | S remaining =>
              callWithBackoff fn remaining (delayMs * 2)%Z (sleep delayMs w1)
          | 0 => (Thrown error, w1)
          end
        else (Thrown error, w1)
    end.

(** *** [downloadImageToUploads] *)

Definition fileExists (filename : string) (w : World) : bool :=
  existsb (String.eqb filename) (uploads w).

Definition writeFile (filename : string) (w : World) : World :=
  log (EvWriteFile filename) (setUploads (uploads w ++ [filename]) w).

(** The file name that the next download draws:
    [`img-${randomString}.png`]. *)
Definition drawnName (w : World) : string :=
  "img-" +++ mathRandom env (randomCalls (calls w)) +++ ".png".

Definition downloadImageToUploads (imageUrl : string) : Async string :=
  fun w =>
    let filename := drawnName w in
    let w1 := bumpRandom w in
    if fileExists filename w1 then (Returned filename, w1)
    else
      let w2 := log (EvHttpGet imageUrl) (bumpHttp w1) in
      match httpGetStream env (httpCalls (calls w1)) imageUrl with
      | Downloaded => (Returned filename, writeFile filename w2)
      | RequestFailed e => (Thrown e, w2)
      | WriteFailed e fileLeft =>
          (Thrown e, if fileLeft then writeFile filename w2 else w2)
      end.

Definition uploadsBaseUrl : string := "https://aisocial.dev/api/uploads/".

(** The body of the loop over the generated items, in the three handlers:
    only [imageUrls[0]] is downloaded. *)
Definition materializeImage (item : Suggestion) : Async Suggestion :=
  match imageUrls item with
  | [] => ret item
  | first :: _ =>
      tryCatch
        (filename <- downloadImageToUploads first ;;
         ret (mkSuggestion (fields item) [uploadsBaseUrl +++ filename]))
        (fun _ => ret (mkSuggestion (fields item) []))
  end.

(** *** [fetchAndStoreInstagramPosts] *)

Definition orEmpty (o : option string) : string :=
  match o with Some s => s | None => EmptyString end.

Definition orZero (o : option Z) : Z :=
  match o with Some z => z | None => 0%Z end.

Definition postDocument (userId id : string) (post : RemotePost) : InstagramPostDoc :=
  let cap := orEmpty (rp_caption post) in
  let mtype := orElse (orEmpty (rp_media_type post)) "UNKNOWN" in
  let murl := orEmpty (rp_media_url post) in
  mkPost userId id cap mtype murl (rp_timestamp post)
    (orZero (rp_like_count post)) (orZero (rp_comments_count post))
    cap
    (if String.eqb (orEmpty (rp_media_type post)) "VIDEO" then "Reel"
     else if String.eqb (orEmpty (rp_media_type post)) "IMAGE" then "Post"
     else "Story")
    (if String.eqb murl EmptyString then [] else [murl])
    (hashtagsOf cap)
    (orZero (rp_like_count post), orZero (rp_comments_count post)).

(** The external ids of the cached posts. *)
Definition storedIds (w : World) : list string := map instagramId (instagramPosts w).

(** [InstagramPost.findOne({ instagramId })] *)
Definition findPost (id : string) (w : World) : option InstagramPostDoc :=
  find (fun p => String.eqb (instagramId p) id) (instagramPosts w).

(** Modelled from the spec: the SocialPost cache ([InstagramPost_model] is
    not among the sources); [create] is the store's insert: the document
    is added to the collection. *)
Definition createPost (d : InstagramPostDoc) (w : World) : World :=
  log (EvCreatePost (instagramId d)) (setInstagramPosts (instagramPosts w ++ [d]) w).

Definition storePost (userId : string) (post : RemotePost) (w : World) : World :=
  match rp_id post with
  | None => w
  | Some id =>
      if String.eqb id EmptyString then w
      else match findPost id w with
           | Some _ => w
           | None => createPost (postDocument userId id post) w
           end
  end.

Definition storePosts (userId : string) (posts : list RemotePost) (w : World) : World :=
  fold_left (fun acc post => storePost userId post acc) posts w.

Definition fetchAndStoreInstagramPosts (userId accessToken : string) : Async unit :=
  fun w =>
    let w1 := log (EvInstagramMedia accessToken) (bumpMedia w) in
    match instagramMedia env (mediaCalls (calls w)) accessToken with
    | MediaFailed e => (Thrown e, w1)
    | MediaData None => (Returned tt, w1)
    | MediaData (Some []) => (Returned tt, w1)
    | MediaData (Some posts) => (Returned tt, storePosts userId posts w1)
    end.

(** *** The response parsing ladder *)

Definition fence : string := "```".
Definition fenceJson : string := "```json".

(** [cleanedRaw]: the trimmed response without its code fence. *)
Definition cleanResponse (raw : string) : string :=
  let cleanedRaw := trim raw in
  if startsWith fenceJson cleanedRaw then
    text (removeTrailing fence (removeLeading fenceJson (chars cleanedRaw)))
  else if startsWith fence cleanedRaw then
    text (removeTrailing fence (removeLeading fence (chars cleanedRaw)))
  else cleanedRaw.

Definition notAnArray : JsError := plainError "AI response is not a valid array".
Definition unableToParse : JsError :=
  plainError "Unable to parse AI response as valid JSON".
Definition noArrayFound : JsError :=
  plainError "No valid JSON array found in AI response".

Definition parseSuggestions (raw : string) : Completion (list JValue) :=
  let parsed :=
    match Json.parse (cleanResponse raw) with
    | Some v => Returned v
    | None =>
        match matchBracketed raw with
        | Some jsonMatch =>
            match Json.parse jsonMatch with
            | Some v => Returned v
            | None => Thrown unableToParse
            end
        | None => Thrown noArrayFound
        end
    end in
  match parsed with
  | Returned (JArr items) => Returned items
  | Returned _ => Thrown notAnArray
  | Thrown e => Thrown e
  end.

(** *** [generateImagesForSuggestions] *)

Definition validTypes : list string := ["Post"; "Story"; "Reel"; "Newsletter"].

(** [validTypes.includes(suggestion.contentType)] *)
Definition isValidType (v : option JValue) : bool :=
  match v with
  | Some (JStr s) => existsb (String.eqb s) validTypes
  | _ => false
  end.

Fixpoint indexed (i : nat) (xs : list JValue) : JObject :=
  match xs with
  | [] => []
  | x :: r => (ofZ (Z.of_nat i), x) :: indexed (S i) r
  end.

(** The members of a parsed item on which properties are read and set.
    The module is strict code: reading a property of [null] throws, and
    so does setting one on a primitive value; an array has its elements
    under their indices. *)
Definition asObject (v : JValue) : option JObject :=
  match v with
  | JObj members => Some members
  | JArr items => Some (indexed 0 items)
  | _ => None
  end.

(** [`${v}`] *)
Fixpoint toStringJs (v : JValue) : string :=
  match v with
  | JNull => "null"
  | JBool true => "true"
  | JBool false => "false"
  | JNum lexeme => numberToString env lexeme
  | JStr s => s
  | JArr items =>
      join "," (map (fun x => match x with JNull => EmptyString | _ => toStringJs x end) items)
  | JObj _ => "[object Object]"
  end.

Definition toStringOpt (v : option JValue) : string :=
  match v with
  | Some x => toStringJs x
  | None => "undefined"
  end.

Fixpoint removeField (key : string) (o : JObject) : JObject :=
  match o with
  | [] => []
  | (k, v) :: r => if String.eqb k key then removeField key r else (k, v) :: removeField key r
  end.

(** The validation at the head of the loop body. *)
Definition coerceContentType (o : JObject) : JObject :=
  if isValidType (Json.getField "contentType" o) then o
  else Json.setField "contentType" (JStr "Post") o.

Definition withImages (o : JObject) (urls : list string) : Suggestion :=
  mkSuggestion (removeField "imageUrls" o) urls.

(** [`${profile.businessType} - ${suggestion.title}`] *)
Definition imagePromptOf (profile : BusinessProfile) (o : JObject) : string :=
  businessType profile +++ " - " +++ toStringOpt (Json.getField "title" o).

(** The members of a suggestion after the loop body, whatever its images. *)
Definition storedFields (o : JObject) : JObject :=
  removeField "imageUrls" (coerceContentType o).

(** The body of the loop of [generateImagesForSuggestions]. *)
Definition imagesForSuggestion (profile : BusinessProfile) (suggestion : JValue)
  : Async Suggestion :=
  match asObject suggestion with
  | None => throw (typeError "cannot use the suggestion as an object")
  | Some o =>
      let o1 := coerceContentType o in
      let imagePrompt := imagePromptOf profile o1 in
      if String.eqb imagePrompt EmptyString || (String.length (trim imagePrompt) <? 5) then
        ret (withImages o1 [])
      else
        fun w =>
          let w1 := log (EvImageGenerate imagePrompt 2 "512x512") (bumpImage w) in
          match imagesGenerate env (imageCalls (calls w)) imagePrompt with
          | ImagesData (Some urls) => (Returned (withImages o1 urls), w1)
          | ImagesData None => (Returned (withImages o1 []), w1)
          | ImagesFailed _ => (Returned (withImages o1 []), w1)
          end
  end.

Definition generateImagesForSuggestions (profile : BusinessProfile)
  (suggestions : list JValue) : Async (list Suggestion) :=
  forEach (imagesForSuggestion profile) suggestions.

(** *** The instructions for the text-completion service *)

Definition partyEmoji : string :=
  text [ascii_of_nat 240; ascii_of_nat 159; ascii_of_nat 142; ascii_of_nat 137].

Definition promptRequest (profile : BusinessProfile) (count : Z) : list string :=
  [ EmptyString;
    "Create " +++ ofZ count +++ " social media content suggestions in JSON format.";
    "Each item should include:";
    "- title (string)";
    "- content (string)";
    "- hashtags (array of strings) based on: " +++ quoted (hashtagsStyle profile)
      +++ ", " +++ quoted (keywords profile) +++ ", " +++ quoted (customHashtags profile);
    "- contentType (one of: " +++ orElse (join ", " (contentTypes profile)) "Post" +++ ")";
    EmptyString;
    "Business Info:";
    "Business Type: " +++ businessType profile;
    "Tone: " +++ toneOfVoice profile;
    "Audience: " +++ audienceType profile;
    "Marketing Goals: " +++ join ", " (marketingGoals profile);
    "Post Length: " +++ postLength profile;
    "Use Emojis: " +++ (if emojisAllowed profile then "Yes" else "No")
      +++ ", Favorites: " +++ join " " (favoriteEmojis profile) ].

Definition promptFormat : list string :=
  [ "IMPORTANT: Return ONLY a valid JSON array. Do not include any markdown formatting, explanations, or additional text. The response must be parseable JSON.";
    EmptyString;
    "Example format:";
    "[";
    "  {";
    "    " +++ quoted "title" +++ ": " +++ quoted "Example Title" +++ ",";
    "    " +++ quoted "content" +++ ": "
      +++ quoted ("Example content with emojis " +++ partyEmoji) +++ ",";
    "    " +++ quoted "hashtags" +++ ": [" +++ quoted "example" +++ ", "
      +++ quoted "hashtag" +++ "],";
    "    " +++ quoted "contentType" +++ ": " +++ quoted "Post";
    "  }";
    "]";
    EmptyString;
    "Return only the JSON array:";
    EmptyString ].

Definition profileOnlyPrompt (profile : BusinessProfile) (count : Z) : string :=
  lines (promptRequest profile count ++ [EmptyString] ++ promptFormat).

(** The Summarizer: [InstagramPost.find({ userId }).sort({ likeCount: -1 }).limit(5)] *)
Definition topPostsOf (userId : string) (w : World) : list InstagramPostDoc :=
  firstn 5 (sortDescBy likeCount
              (filter (fun p => String.eqb (ip_userId p) userId) (instagramPosts w))).

Definition digestLine (idx : nat) (post : InstagramPostDoc) : string :=
  ofZ (Z.of_nat (idx + 1)) +++ ". "
  +++ quoted (newlinesToSpaces (substring0 100 (caption post)))
  +++ " (Likes: " +++ ofZ (likeCount post)
  +++ ", Comments: " +++ ofZ (commentsCount post) +++ ")".

Fixpoint digestLines (idx : nat) (posts : list InstagramPostDoc) : list string :=
  match posts with
  | [] => []
  | p :: r => digestLine idx p :: digestLines (S idx) r
  end.

Definition topPostsSummary (topPosts : list InstagramPostDoc) : string :=
  match topPosts with
  | [] => "No top performing posts found to learn from."
  | _ :: _ => lines (digestLines 0 topPosts)
  end.

(** [topPosts.map(post => post.mediaUrl).filter(Boolean).slice(0, 3)] *)
Definition topImageUrls (topPosts : list InstagramPostDoc) : list string :=
  firstn 3 (filter (fun u => negb (String.eqb u EmptyString)) (map mediaUrl topPosts)).

Definition imageSection (topPosts : list InstagramPostDoc) : string :=
  match topImageUrls topPosts with
  | [] => EmptyString
  | urls => newline +++ "Here are image URLs of the top performing posts:" +++ newline
            +++ lines urls
  end.



Definition instagramPrompt (profile : BusinessProfile) (count : Z)
  (topPosts : list InstagramPostDoc) : string :=
  lines (promptRequest profile count
         ++ [ EmptyString;
              "Based on these top performing Instagram posts by the user:";
              topPostsSummary topPosts;
              imageSection topPosts;
              EmptyString ]
         ++ promptFormat).

(** *** The two generation strategies *)

(** [openai.chat.completions.create(...)] and the fallback [?? "[]"] *)
Definition requestCompletion (prompt : string) : Async string :=
  fun w =>
    let w1 := log (EvChatCompletion prompt) (bumpChat w) in
    match chatCompletion env (chatCalls (calls w)) prompt with
    | ChatContent (Some raw) => (Returned raw, w1)
    | ChatContent None => (Returned "[]", w1)
    | ChatFailed e => (Thrown e, w1)
    end.

(** The [try] block shared by the two strategies; its [catch] logs and
    throws the error again. *)
Definition completeAndParse (profile : BusinessProfile) (prompt : string)
  : Async (list Suggestion) :=
  raw <- requestCompletion prompt ;;
  suggestions <- lift (parseSuggestions raw) ;;
  generateImagesForSuggestions profile suggestions.

Definition generateContentBasedOnProfileOnly (profile : BusinessProfile) (count : Z)
  : Async (list Suggestion) :=
  completeAndParse profile (profileOnlyPrompt profile count).

Definition generateContentBasedOnProfileAndInstagram (profile : BusinessProfile)
  (userId accessToken : string) (count : Z) (updateInstagramPosts : bool)
  : Async (list Suggestion) :=
  (if updateInstagramPosts then fetchAndStoreInstagramPosts userId accessToken else ret tt) ;;;
  fun w =>
    completeAndParse profile (instagramPrompt profile count (topPostsOf userId w)) w.

Definition generateContentFromProfile (profile : BusinessProfile)
  (userId accessToken : option string) (count : Z) (updateInstagramPosts : bool)
  : Async (list Suggestion) :=
  match userId, accessToken with
  | Some uid, Some token =>
      if negb (String.eqb uid EmptyString) && negb (String.eqb token EmptyString) then
        (if updateInstagramPosts then fetchAndStoreInstagramPosts uid token else ret tt) ;;;
        generateContentBasedOnProfileAndInstagram profile uid token count updateInstagramPosts
      else generateContentBasedOnProfileOnly profile count
  | _, _ => generateContentBasedOnProfileOnly profile count
  end.

(** *** The stores *)

Definition findUser (userId : string) (w : World) : option User :=
  find (fun u => String.eqb (user_id u) userId) (users w).

Definition findProfile (userId : string) (w : World) : option BusinessProfile :=
  find (fun p => String.eqb (bp_userId p) userId) (businessProfiles w).

Definition collection (c : Collection) (w : World) : list SuggestionDoc :=
  match c with
  | ContentSuggestion => contentSuggestions w
  | InstagramContentSuggestion => instagramContentSuggestions w
  end.

Definition setCollection (c : Collection) (l : list SuggestionDoc) (w : World) : World :=
  match c with
  | ContentSuggestion => setContentSuggestions l w
  | InstagramContentSuggestion => setInstagramContentSuggestions l w
  end.

(** The filters of the two handlers: [{ userId }] and
    [{ userId, source: "userProfile" }]. *)
Definition byUser (userId : string) (d : SuggestionDoc) : bool :=
  String.eqb (doc_userId d) userId.

Definition byUserProfile (userId : string) (d : SuggestionDoc) : bool :=
  String.eqb (doc_userId d) userId && Source_eqb (doc_source d) userProfile.

(** Modelled from the spec: the suggestion store ([content_suggestion_model]
    and [InstagramContentSuggestion] are not among the sources), with its
    four operations: find sorted by [createdAt] descending, delete-many,
    insert-many and update-by-id.  Documents are stored as given. *)
Definition findSorted (c : Collection) (sel : SuggestionDoc -> bool) (w : World)
  : list SuggestionDoc :=
  sortDescBy doc_createdAt (filter sel (collection c w)).

Definition deleteMany (c : Collection) (sel : SuggestionDoc -> bool) (userId : string)
  (w : World) : World :=
  log (EvDeleteMany c userId)
      (setCollection c (filter (fun d => negb (sel d)) (collection c w)) w).

Fixpoint newDocs (userId : string) (source : Source) (createdAt : Z) (k : nat)
  (items : list Suggestion) : list SuggestionDoc :=
  match items with
  | [] => []
  | item :: r =>
      mkDoc (newObjectId env k) userId source false createdAt item
      :: newDocs userId source createdAt (S k) r
  end.

Definition insertMany (c : Collection) (userId : string) (source : Source)
  (items : list Suggestion) (w : World) : list SuggestionDoc * World :=
  let saved := newDocs userId source (now w) (idCalls (calls w)) items in
  (saved,
   log (EvInsertMany c (length saved))
       (bumpIds (length saved) (setCollection c (collection c w ++ saved) w))).

(** The members of [update] are set on the stored document. *)
Definition mergeFields (update old : JObject) : JObject :=
  fold_left (fun acc kv => Json.setField (fst kv) (snd kv) acc) update old.

Definition refreshedDoc (newContent : Suggestion) (createdAt : Z) (d : SuggestionDoc)
  : SuggestionDoc :=
  mkDoc (doc_id d) (doc_userId d) (doc_source d) true createdAt
    (mkSuggestion (mergeFields (fields newContent) (fields (doc_item d)))
                  (imageUrls newContent)).

Fixpoint updateFirst (id : string) (f : SuggestionDoc -> SuggestionDoc)
  (l : list SuggestionDoc) : option (SuggestionDoc * list SuggestionDoc) :=
  match l with
  | [] => None
  | d :: r =>
      if String.eqb (doc_id d) id then Some (f d, f d :: r)
      else match updateFirst id f r with
           | Some (u, r') => Some (u, d :: r')
           | None => None
           end
  end.

(** *** The handlers *)

(** The two buckets, as the handlers read them. *)
Definition businessBucket (userId : string) (w : World) : list SuggestionDoc :=
  findSorted ContentSuggestion (byUser userId) w.

Definition userBucket (userId : string) (w : World) : list SuggestionDoc :=
  findSorted InstagramContentSuggestion (byUserProfile userId) w.

Inductive Response : Type :=
| Json (status : nat) (body : list SuggestionDoc)
| JsonDoc (status : nat) (body : SuggestionDoc)
| JsonError (status : nat) (error : string)
| Next (err : JsError).

Definition Handler : Type := World -> Response * World.

Definition dayMs : Z := 24 * 60 * 60 * 1000.

(** [Date.now() - new Date(s.createdAt).getTime() > 24 * 60 * 60 * 1000] *)
Definition olderThanADay (w : World) (s : SuggestionDoc) : bool :=
  (dayMs <? now w - doc_createdAt s)%Z.

(** [shouldGenerate] of [getOrGenerateUserSuggestions], from the sorted
    bucket. *)
Definition shouldGenerate (w : World) (existingSuggestions : list SuggestionDoc) : bool :=
  match existingSuggestions with
  | [] => true
  | latestSuggestion :: _ =>
      if olderThanADay w latestSuggestion then true
      else if length existingSuggestions <? 3 then true
      else false
  end.

(** The regeneration shared by the two handlers, after the bucket is
    deleted and the profile found. *)
Definition regenerate (c : Collection) (userId : string) (source : Source)
  (generate : Async (list Suggestion)) : Handler :=
  fun w =>
    match (generated <- callWithBackoff generate 3 1000%Z ;;
           forEach materializeImage generated) w with
    | (Returned items, w1) =>
        let (saved, w2) := insertMany c userId source items w1 in
        (Json 200 saved, w2)
    | (Thrown err, w1) => (Next err, w1)
    end.

(** The generation that each handler wraps in [callWithBackoff], and the
    world once the handler has deleted the bucket. *)
Definition businessGeneration (profile : BusinessProfile) : Async (list Suggestion) :=
  generateContentFromProfile profile None None 3 false.

Definition userGeneration (userId : string) (profile : BusinessProfile) (user : User)
  : Async (list Suggestion) :=
  generateContentFromProfile profile (Some userId) (instagramAccessToken user) 3 true.

Definition businessEvicted (userId : string) (w : World) : World :=
  deleteMany ContentSuggestion (byUser userId) userId w.

Definition userEvicted (userId : string) (w : World) : World :=
  deleteMany InstagramContentSuggestion (byUserProfile userId) userId w.

Definition getOrGenerateSuggestions (userId : string) : Handler :=
  fun w =>
    if negb (objectIdIsValid env userId) then (JsonError 400 "Invalid User ID format", w)
    else
      match findUser userId w with
      | None => (JsonError 404 "User not found", w)
      | Some _ =>
          let existing := businessBucket userId w in
          let isOutdated := existsb (olderThanADay w) existing in
          if (length existing <? 3) || isOutdated then
            let w1 := businessEvicted userId w in
            match findProfile userId w1 with
            | None => (JsonError 404 "No business profile found", w1)
            | Some profile =>
                regenerate ContentSuggestion userId businessProfile
                  (businessGeneration profile) w1
            end
          else (Json 200 existing, w)
      end.

(** The count read before the deletion is only logged, and the [catch]
    around [insertMany] is for errors of the store, whose insert does not
    fail in this model. *)
Definition getOrGenerateUserSuggestions (userId : string) : Handler :=
  fun w =>
    if String.eqb userId EmptyString then (JsonError 400 "User ID is required", w)
    else if negb (objectIdIsValid env userId) then
      (JsonError 400 "Invalid User ID format", w)
    else
      match findUser userId w with
      | None => (JsonError 404 "User not found", w)
      | Some user =>
          if negb (instagramConnected user) || negb (truthy (instagramAccessToken user))
          then (JsonError 401 "Instagram not connected", w)
          else
            let existingSuggestions := userBucket userId w in
            if shouldGenerate w existingSuggestions then
              let w1 := userEvicted userId w in
              match findProfile userId w1 with
              | None => (JsonError 404 "No business profile found", w1)
              | Some profile =>
                  regenerate InstagramContentSuggestion userId userProfile
                    (userGeneration userId profile user) w1
              end
            else (Json 200 existingSuggestions, w)
      end.

Definition refreshSingleSuggestion (suggestionId userId : string) : Handler :=
  fun w =>
    if negb (objectIdIsValid env userId) then (JsonError 400 "Invalid User ID format", w)
    else
      match findProfile userId w with
      | None => (JsonError 404 "No business profile found", w)
      | Some profile =>
          match callWithBackoff (generateContentFromProfile profile None None 1 false)
                  3 1000%Z w with
          | (Thrown err, w1) => (Next err, w1)
          | (Returned [], w1) =>
              (Next (typeError "cannot read properties of undefined"), w1)
          | (Returned (newContent :: _), w1) =>
              match materializeImage newContent w1 with
              | (Thrown err, w2) => (Next err, w2)
              | (Returned newContent', w2) =>
                  if negb (objectIdIsValid env suggestionId) then
                    (Next (plainError "CastError: invalid suggestion id"), w2)
                  else
                    match updateFirst suggestionId (refreshedDoc newContent' (now w2))
                            (contentSuggestions w2) with
                    | Some (updated, l) =>
                        (JsonDoc 200 updated,
                         log (EvUpdateById ContentSuggestion suggestionId)
                             (setContentSuggestions l w2))
                    | None => (JsonError 404 "Suggestion not found", w2)
                    end
              end
          end
      end.

End Engine.

(* ------------------------------------------------------------------ *)
(** ** The other retry loop and the captions digest *)
(* ------------------------------------------------------------------ *)

(** The pauses of a wrapper that keeps retrying: [delayMs] first, then
    twice the pause before, [retries] of them. *)
Fixpoint backoffDelays (retries : nat) (delayMs : Z) : list Z :=
  match retries with
  | 0 => []
  | S remaining => delayMs :: backoffDelays remaining (delayMs * 2)%Z
  end.

Definition totalOf (delays : list Z) : Z := fold_right Z.add 0%Z delays.

(** [imageResponse.data]: [None] when missing, else the [url] of each
    entry, when it has one. *)
Definition ImageData : Type := option (list (option string)).

(** [data && data.length > 0 ? data[0].url ?? null : null] *)
Definition firstUrl (data : ImageData) : option string :=
  match data with
  | Some (Some url :: _) => Some url
  | _ => None
  end.

Section ChatController.

(** The awaited [openai.images.generate({ model, prompt, n: 1, size })]. *)
Variable imagesGenerateCall : string -> Async ImageData.

(** [generateImageWithBackoff] of the chat controller; [retries] counts
    the retries that remain, as in [callWithBackoff], and the [return
    null] after the loop is reached for a negative [retries] only. *)
Fixpoint generateImageWithBackoff (prompt : string) (retries : nat) (delayMs : Z)
  : Async (option string) :=
  fun w =>
    match imagesGenerateCall prompt w with
    | (Returned imageResponse, w1) => (Returned (firstUrl imageResponse), w1)
    | (Thrown error, w1) =>
        if isRateLimit error then
          match retries with
          | S remaining =>
              generateImageWithBackoff prompt remaining (delayMs * 2)%Z (sleep delayMs w1)
          | 0 => (Returned None, w1)
          end
        else (Returned None, w1)
    end.

End ChatController.






(** What [fetchAndStoreInstagramPosts] makes of a remote post: the
    relations between the members of a document that it creates. *)
Definition mappedFromRemote (userId : string) (d : InstagramPostDoc) : Prop :=
  ip_userId d = userId
  /\ instagramId d <> EmptyString
  /\ mediaType d <> EmptyString
  /\ In (ip_contentType d) ["Reel"; "Post"; "Story"]
  /\ (ip_contentType d = "Reel" <-> mediaType d = "VIDEO")
  /\ (ip_contentType d = "Post" <-> mediaType d = "IMAGE")
  /\ ip_content d = caption d
  /\ ip_imageUrls d = (if String.eqb (mediaUrl d) EmptyString then [] else [mediaUrl d])
  /\ ip_hashtags d = hashtagsOf (caption d)
  /\ engagement d = (likeCount d, commentsCount d).

(** A caption made of the given tags: each one after a [#] and before a
    space. *)
Definition tagged (tags : list string) : string :=
  text (flat_map (fun tag => "#"%char :: chars tag ++ [" "%char]) tags).

Definition isTag (tag : string) : Prop :=
  tag <> EmptyString /\ forallb isWordChar (chars tag) = true.

(** *** Invariants of the stores *)

(** An image URL that names a file of the upload directory. *)
Definition servedFromUploads (w : World) (url : string) : Prop :=
  exists filename, url = uploadsBaseUrl +++ filename /\ fileExists filename w = true.

Definition imagesServed (w : World) (docs : list SuggestionDoc) : Prop :=
  forall d url, In d docs -> In url (imageUrls (doc_item d)) -> servedFromUploads w url.

(** The upload directory of [w'] has the files of [w], and maybe more. *)
Definition uploadsGrow (w w' : World) : Prop :=
  exists more, uploads w' = uploads w ++ more.

(** The cache of social posts of [w'] has the posts of [w], and maybe
    more after them. *)
Definition postsGrow (w w' : World) : Prop :=
  exists added, instagramPosts w' = instagramPosts w ++ added.

(** [P] is kept by what the generation and the materialization of the
    images do to the world: an entry of the log, the call counters, the
    clock, the cache of social posts, and a new file in the upload
    directory. *)
Record Lasting (P : World -> Prop) : Prop := {
  lasting_log : forall e w, P w -> P (log e w);
  lasting_calls : forall c w, P w -> P (setCalls c w);
  lasting_now : forall t w, P w -> P (setNow t w);
  lasting_posts : forall l w, P w -> P (setInstagramPosts l w);
  lasting_write : forall f w, P w -> P (writeFile f w)
}.

(** What a handler leaves untouched: the users and the business
    profiles; and the upload directory keeps its files. *)
Definition untouched (w w' : World) : Prop :=
  users w' = users w /\ businessProfiles w' = businessProfiles w /\ uploadsGrow w w'.

(* ------------------------------------------------------------------ *)
(** ** Scenarios *)
(* ------------------------------------------------------------------ *)

Module Scenario.

Definition noCalls : Calls := mkCalls 0 0 0 0 0 0.

Definition rateLimited : JsError := mkError (Some 429%Z) "Too Many Requests".
Definition serverError : JsError := mkError (Some 500%Z) "Internal Server Error".

(** An operation that always meets the rate limit. *)
Definition alwaysRateLimited : Async unit :=
  fun w => (Thrown rateLimited, log (EvChatCompletion "ping") w).

Definition emptyWorld : World := mkWorld 0%Z [] [] [] [] [] [] noCalls [].

(** An operation that fails with a server error. *)
Definition alwaysBroken : Async unit :=
  fun w => (Thrown serverError, log (EvChatCompletion "ping") w).

(** An environment where the text service answers nothing, the image
    service fails, downloads succeed and every random name is the same. *)
Definition quietEnv : Env :=
  {| chatCompletion := fun _ _ => ChatContent None;
     imagesGenerate := fun _ _ => ImagesFailed serverError;
     httpGetStream := fun _ _ => Downloaded;
     instagramMedia := fun _ _ => MediaData None;
     mathRandom := fun _ => "k3x9q";
     newObjectId := fun n => "id" +++ ofZ (Z.of_nat n);
     objectIdIsValid := fun _ => true;
     numberToString := fun lexeme => lexeme |}.

Definition remotePost (id : string) (likes : Z) : RemotePost :=
  {| rp_id := Some id; rp_caption := Some ("Fresh bread #bakery " +++ id);
     rp_media_type := Some "IMAGE"; rp_media_url := Some ("https://cdn.example/" +++ id);
     rp_timestamp := Some "2024-05-01T08:00:00+0000";
     rp_like_count := Some likes; rp_comments_count := Some 2%Z |}.

(** The media API lists three entries, two of them with the same id. *)
Definition mediaEnv : Env :=
  {| chatCompletion := fun _ _ => ChatContent None;
     imagesGenerate := fun _ _ => ImagesFailed serverError;
     httpGetStream := fun _ _ => Downloaded;
     instagramMedia := fun _ _ =>
       MediaData (Some [remotePost "17" 10; remotePost "18" 50; remotePost "17" 10]);
     mathRandom := fun _ => "k3x9q";
     newObjectId := fun n => "id" +++ ofZ (Z.of_nat n);
     objectIdIsValid := fun _ => true;
     numberToString := fun lexeme => lexeme |}.

Definition bakery : BusinessProfile :=
  {| bp_userId := "u1"; businessType := "Bakery"; contentTypes := ["Post"];
     marketingGoals := ["More visits"]; audienceType := "Locals";
     toneOfVoice := "Friendly"; postLength := "short"; emojisAllowed := true;
     favoriteEmojis := []; hashtagsStyle := "fewRelevant"; keywords := "bread";
     customHashtags := "bakery" |}.

(** Five cached posts with 10, 50, 5, 80 and 20 likes; the most liked one
    has no media URL. *)
Definition cachedPost (id : string) (likes : Z) (url : string) : InstagramPostDoc :=
  mkPost "u1" id ("Post " +++ id) "IMAGE" url None likes 1%Z ("Post " +++ id) "Post"
    [] [] (likes, 1%Z).

Definition fivePosts : World :=
  setInstagramPosts
    [ cachedPost "a" 10 "https://cdn.example/a";
      cachedPost "b" 50 "https://cdn.example/b";
      cachedPost "c" 5 "https://cdn.example/c";
      cachedPost "d" 80 EmptyString;
      cachedPost "e" 20 "https://cdn.example/e" ]
    emptyWorld.

(** A valid array of one suggestion, as text. *)
Definition oneSuggestionText : string :=
  "[{" +++ quoted "title" +++ ":" +++ quoted "A" +++ "}]".

Definition oneSuggestionMid : string :=
  "{" +++ quoted "title" +++ ":" +++ quoted "A" +++ "}".

Definition fencedText : string :=
  fenceJson +++ newline +++ oneSuggestionText +++ newline +++ fence.

Definition proseText : string :=
  "Here are your ideas: " +++ oneSuggestionText +++ " Enjoy!".

(** Prose around the array, with brackets of its own after it. *)
Definition bracketedProseText : string :=
  "Sure! " +++ oneSuggestionText +++ " (hashtags in [brackets] are optional)".

Definition alice : User :=
  {| user_id := "u1"; instagramConnected := true; instagramAccessToken := Some "token" |}.

Definition storedSuggestion (id : string) (source : Source) (createdAt : Z)
  : SuggestionDoc :=
  mkDoc id "u1" source false createdAt (mkSuggestion [("title", JStr "Earlier idea")] []).

(** A user whose two buckets hold one suggestion each, created more than
    a day ago. *)
Definition staleWorld : World :=
  mkWorld 100000000%Z [alice] [bakery]
    [storedSuggestion "s1" businessProfile 0%Z]
    [storedSuggestion "s2" userProfile 0%Z]
    [] [] noCalls [].

(** The text service fails with a server error. *)
Definition brokenChatEnv : Env :=
  {| chatCompletion := fun _ _ => ChatFailed serverError;
     imagesGenerate := fun _ _ => ImagesFailed serverError;
     httpGetStream := fun _ _ => Downloaded;
     instagramMedia := fun _ _ => MediaData None;
     mathRandom := fun _ => "k3x9q";
     newObjectId := fun n => "id" +++ ofZ (Z.of_nat n);
     objectIdIsValid := fun _ => true;
     numberToString := fun lexeme => lexeme |}.

(** The text service answers with an array of two suggestions. *)
Definition twoIdeasText : string :=
  "[{" +++ quoted "title" +++ ":" +++ quoted "Morning rolls" +++ ","
       +++ quoted "contentType" +++ ":" +++ quoted "Post" +++ "},{"
       +++ quoted "title" +++ ":" +++ quoted "Weekend cake" +++ ","
       +++ quoted "contentType" +++ ":" +++ quoted "Carousel" +++ "}]".

Definition twoIdeasEnv : Env :=
  {| chatCompletion := fun _ _ => ChatContent (Some twoIdeasText);
     imagesGenerate := fun n _ =>
       match n with
       | 0 => ImagesData (Some ["https://images.example/1a.png";
                                "https://images.example/1b.png"])
       | _ => ImagesFailed serverError
       end;
     httpGetStream := fun _ _ => Downloaded;
     instagramMedia := fun _ _ => MediaData None;
     mathRandom := fun _ => "k3x9q";
     newObjectId := fun n => "id" +++ ofZ (Z.of_nat n);
     objectIdIsValid := fun _ => true;
     numberToString := fun lexeme => lexeme |}.




(** The text service answers with an array whose only item is [null]. *)
Definition nullItemEnv : Env :=
  {| chatCompletion := fun _ _ => ChatContent (Some "[null]");
     imagesGenerate := imagesGenerate twoIdeasEnv;
     httpGetStream := httpGetStream twoIdeasEnv;
     instagramMedia := instagramMedia twoIdeasEnv;
     mathRandom := mathRandom twoIdeasEnv;
     newObjectId := newObjectId twoIdeasEnv;
     objectIdIsValid := objectIdIsValid twoIdeasEnv;
     numberToString := numberToString twoIdeasEnv |}.

(** A business bucket of three suggestions created one hour, two hours
    and twenty-five hours ago. *)
Definition mixedWorld : World :=
  mkWorld 100000000%Z [alice] [bakery]
    [storedSuggestion "s1" businessProfile 96400000%Z;
     storedSuggestion "s2" businessProfile 92800000%Z;
     storedSuggestion "s3" businessProfile 10000000%Z]
    [] [] [] noCalls [].

(** A user whose two buckets hold three suggestions each, created an
    hour ago. *)
Definition freshWorld : World :=
  mkWorld 3600000%Z [alice] [bakery]
    [storedSuggestion "s1" businessProfile 0%Z;
     storedSuggestion "s2" businessProfile 0%Z;
     storedSuggestion "s3" businessProfile 0%Z]
    [storedSuggestion "t1" userProfile 0%Z;
     storedSuggestion "t2" userProfile 0%Z;
     storedSuggestion "t3" userProfile 0%Z]
    [] [] noCalls [].

Definition withFile : World := setUploads ["img-k3x9q.png"] emptyWorld.

Definition oneImage : Suggestion :=
  mkSuggestion [("title", JStr "A")] ["https://images.example/a.png"; "https://images.example/b.png"].

(** As [staleWorld], for a user who has no business profile. *)
Definition noProfileWorld : World :=
  mkWorld 100000000%Z [alice] []
    [storedSuggestion "s1" businessProfile 0%Z]
    [storedSuggestion "s2" userProfile 0%Z]
    [] [] noCalls [].

(** The media API is down. *)
Definition mediaDownEnv : Env :=
  {| chatCompletion := chatCompletion quietEnv;
     imagesGenerate := imagesGenerate quietEnv;
     httpGetStream := httpGetStream quietEnv;
     instagramMedia := fun _ _ => MediaFailed serverError;
     mathRandom := mathRandom quietEnv;
     newObjectId := newObjectId quietEnv;
     objectIdIsValid := objectIdIsValid quietEnv;
     numberToString := numberToString quietEnv |}.

(** The text service answers with an array of three suggestions, and the
    image service fails. *)
Definition threeIdeasText : string :=
  "[{" +++ quoted "title" +++ ":" +++ quoted "Morning rolls" +++ "},{"
       +++ quoted "title" +++ ":" +++ quoted "Weekend cake" +++ "},{"
       +++ quoted "title" +++ ":" +++ quoted "Rye bread" +++ "}]".

Definition threeIdeasEnv : Env :=
  {| chatCompletion := fun _ _ => ChatContent (Some threeIdeasText);
     imagesGenerate := imagesGenerate quietEnv;
     httpGetStream := httpGetStream quietEnv;
     instagramMedia := instagramMedia quietEnv;
     mathRandom := mathRandom quietEnv;
     newObjectId := newObjectId quietEnv;
     objectIdIsValid := objectIdIsValid quietEnv;
     numberToString := numberToString quietEnv |}.

End Scenario.

(* ------------------------------------------------------------------ *)
(** * Properties *)
(* ------------------------------------------------------------------ *)

(** ** The world after the elementary updates *)

Lemma sleepsOf_app (a b : list Event) : sleepsOf (a ++ b) = sleepsOf a ++ sleepsOf b.
Proof. unfold sleepsOf. apply flat_map_app. Qed.

Lemma trace_sleep (ms : Z) (w : World) : trace (sleep ms w) = trace w ++ [EvSleep ms].
Proof. reflexivity. Qed.

(** ** Retry with backoff *)

Section Backoff.

Context {T : Type} (fn : Async T).

Lemma callWithBackoff_returned retries delay w v w1 :
  fn w = (Returned v, w1) -> callWithBackoff fn retries delay w = (Returned v, w1).
Proof. intros H. destruct retries; simpl; rewrite H; reflexivity. Qed.

Lemma callWithBackoff_other retries delay w e w1 :
  fn w = (Thrown e, w1) -> isRateLimit e = false ->
  callWithBackoff fn retries delay w = (Thrown e, w1).
Proof. intros H He. destruct retries; simpl; rewrite H, He; reflexivity. Qed.

Lemma callWithBackoff_retry retries delay w e w1 :
  fn w = (Thrown e, w1) -> isRateLimit e = true ->
  callWithBackoff fn (S retries) delay w
  = callWithBackoff fn retries (delay * 2)%Z (sleep delay w1).
Proof. intros H He. simpl. rewrite H, He. reflexivity. Qed.

Lemma callWithBackoff_exhausted delay w e w1 :
  fn w = (Thrown e, w1) -> callWithBackoff fn 0 delay w = (Thrown e, w1).
Proof. intros H. simpl. rewrite H. destruct (isRateLimit e); reflexivity. Qed.

(** A property of the world that the operation and the pauses keep is
    kept by the wrapper. *)
Lemma callWithBackoff_preserves (P : World -> Prop) :
  (forall w, P w -> P (snd (fn w))) ->
  (forall ms w, P w -> P (sleep ms w)) ->
  forall retries delay w, P w -> P (snd (callWithBackoff fn retries delay w)).
Proof.
  intros Hfn Hsleep retries.
  induction retries as [|r IH]; intros delay w Hw; simpl;
    specialize (Hfn w Hw); destruct (fn w) as [[v|e] w1]; simpl in *; auto.
  - destruct (isRateLimit e); assumption.
  - destruct (isRateLimit e); auto.
Qed.

End Backoff.

(** C2.  With [retries = 3] and [delayMs = 1000], an operation that keeps
    failing with the rate-limit status is run four times, with pauses of
    1000, 2000 and 4000 ms between the runs, and the wrapper then throws
    the rate-limit error of the last run; an operation that fails with
    any other error is run once and the wrapper throws that error, with
    no pause and no retry. *)
Theorem callWithBackoff_contract (T : Type) (fn : Async T) :
  ((forall w, exists e w1, fn w = (Thrown e, w1) /\ isRateLimit e = true) ->
   (forall w, sleepsOf (trace (snd (fn w))) = sleepsOf (trace w)) ->
   forall w,
     let w1 := snd (fn w) in
     let w2 := snd (fn (sleep 1000 w1)) in
     let w3 := snd (fn (sleep 2000 w2)) in
     exists e,
       callWithBackoff fn 3 1000%Z w = (Thrown e, snd (fn (sleep 4000 w3)))
       /\ fn (sleep 4000 w3) = (Thrown e, snd (fn (sleep 4000 w3)))
       /\ isRateLimit e = true
       /\ sleepsOf (trace (snd (callWithBackoff fn 3 1000%Z w)))
          = sleepsOf (trace w) ++ [1000; 2000; 4000]%Z)
  /\
  (forall w e w1 retries delayMs,
     fn w = (Thrown e, w1) -> isRateLimit e = false ->
     callWithBackoff fn retries delayMs w = (Thrown e, w1)).
Proof.
  split.
  - intros Hrate Hquiet w w1 w2 w3.
    destruct (Hrate w) as (e1 & x1 & E1 & R1).
    assert (Hw1 : w1 = x1) by (unfold w1; rewrite E1; reflexivity).
    destruct (Hrate (sleep 1000 w1)) as (e2 & x2 & E2 & R2).
    assert (Hw2 : w2 = x2) by (unfold w2; rewrite E2; reflexivity).
    destruct (Hrate (sleep 2000 w2)) as (e3 & x3 & E3 & R3).
    assert (Hw3 : w3 = x3) by (unfold w3; rewrite E3; reflexivity).
    destruct (Hrate (sleep 4000 w3)) as (e4 & x4 & E4 & R4).
    assert (Hrun : callWithBackoff fn 3 1000%Z w = (Thrown e4, x4)).
    { rewrite (callWithBackoff_retry fn 2 1000%Z w e1 x1 E1 R1).
      rewrite <- Hw1.
      rewrite (callWithBackoff_retry fn 1 _ _ e2 x2 E2 R2).
      rewrite <- Hw2.
      rewrite (callWithBackoff_retry fn 0 _ _ e3 x3 E3 R3).
      rewrite <- Hw3.
      apply (callWithBackoff_exhausted fn _ _ e4 x4 E4). }
    exists e4.
    assert (Hx4 : snd (fn (sleep 4000 w3)) = x4) by (rewrite E4; reflexivity).
    rewrite Hx4, Hrun. repeat split; try assumption.
    change (snd (Thrown e4, x4)) with x4. rewrite <- Hx4.
    rewrite (Hquiet (sleep 4000 w3)), trace_sleep, sleepsOf_app.
    unfold w3. rewrite (Hquiet (sleep 2000 w2)), trace_sleep, sleepsOf_app.
    unfold w2. rewrite (Hquiet (sleep 1000 w1)), trace_sleep, sleepsOf_app.
    unfold w1. rewrite (Hquiet w).
    simpl. rewrite <- !app_assoc. reflexivity.
  - intros w e w1 retries delayMs H He.
    apply callWithBackoff_other; assumption.
Qed.

(** The contract at an operation that always meets the rate limit, and at
    one that fails with a server error. *)
Lemma callWithBackoff_contract_witness :
  sleepsOf (trace (snd (callWithBackoff Scenario.alwaysRateLimited 3 1000%Z
                          Scenario.emptyWorld)))
  = [1000; 2000; 4000]%Z
  /\ callWithBackoff Scenario.alwaysBroken 3 1000%Z Scenario.emptyWorld
     = (Thrown Scenario.serverError,
        log (EvChatCompletion "ping") Scenario.emptyWorld).
Proof.
  split.
  - destruct (proj1 (callWithBackoff_contract unit Scenario.alwaysRateLimited)
                (fun w => ex_intro _ Scenario.rateLimited
                            (ex_intro _ (log (EvChatCompletion "ping") w)
                               (conj eq_refl eq_refl)))
                (fun w => eq_trans (sleepsOf_app (trace w) [EvChatCompletion "ping"])
                                   (app_nil_r _))
                Scenario.emptyWorld) as (e & _ & _ & _ & H).
    exact H.
  - exact (proj2 (callWithBackoff_contract unit Scenario.alwaysBroken)
             Scenario.emptyWorld Scenario.serverError _ 3 1000%Z eq_refl eq_refl).
Defined.

(** ** Image materialization *)

Lemma fetchesOf_app (a b : list Event) : fetchesOf (a ++ b) = fetchesOf a ++ fetchesOf b.
Proof. unfold fetchesOf. apply flat_map_app. Qed.

Lemma fileExists_bumpRandom f w : fileExists f (bumpRandom w) = fileExists f w.
Proof. reflexivity. Qed.

Lemma fileExists_written f w : fileExists f (writeFile f w) = true.
Proof.
  unfold fileExists, writeFile. simpl. rewrite existsb_app. simpl.
  rewrite String.eqb_refl. apply orb_true_iff. right. reflexivity.
Qed.

Section Materialize.

Variable env : Env.

Lemma download_name url w f w1 :
  downloadImageToUploads env url w = (Returned f, w1) -> f = drawnName env w.
Proof.
  unfold downloadImageToUploads, drawnName.
  destruct (fileExists _ (bumpRandom w)).
  - intros H; inversion H; reflexivity.
  - destruct (httpGetStream env _ url); intros H; inversion H; reflexivity.
Qed.

Lemma download_existing url w :
  fileExists (drawnName env w) w = true ->
  downloadImageToUploads env url w = (Returned (drawnName env w), bumpRandom w).
Proof.
  intros H. unfold downloadImageToUploads. fold (drawnName env w).
  rewrite fileExists_bumpRandom, H. reflexivity.
Qed.

Lemma download_fresh url w :
  fileExists (drawnName env w) w = false ->
  httpGetStream env (httpCalls (calls w)) url = Downloaded ->
  downloadImageToUploads env url w
  = (Returned (drawnName env w),
     writeFile (drawnName env w) (log (EvHttpGet url) (bumpHttp (bumpRandom w)))).
Proof.
  intros H D. unfold downloadImageToUploads. fold (drawnName env w).
  rewrite fileExists_bumpRandom, H.
  change (httpCalls (calls (bumpRandom w))) with (httpCalls (calls w)).
  rewrite D. reflexivity.
Qed.

End Materialize.

(** C6.  The local file name is ["img-" + random + ".png"], whatever the
    URL; when a file of that name exists the download is skipped and
    nothing is fetched or written; otherwise the URL is fetched once and
    the file stored; two requests that draw the same name, the first of
    which downloads, make one remote fetch in all; and the handlers
    rewrite [imageUrls] to the served path of the file. *)
Theorem materialization_idempotent (env : Env) (w : World) (url : string) :
  let filename := "img-" +++ mathRandom env (randomCalls (calls w)) +++ ".png" in
  (forall url' f w1,
      downloadImageToUploads env url' w = (Returned f, w1) -> f = filename)
  /\ (fileExists filename w = true ->
      downloadImageToUploads env url w = (Returned filename, bumpRandom w))
  /\ (fileExists filename w = false ->
      httpGetStream env (httpCalls (calls w)) url = Downloaded ->
      downloadImageToUploads env url w
      = (Returned filename,
         writeFile filename (log (EvHttpGet url) (bumpHttp (bumpRandom w)))))
  /\ (forall url2,
      fileExists filename w = false ->
      httpGetStream env (httpCalls (calls w)) url = Downloaded ->
      mathRandom env (S (randomCalls (calls w))) = mathRandom env (randomCalls (calls w)) ->
      exists w1 w2,
        downloadImageToUploads env url w = (Returned filename, w1)
        /\ downloadImageToUploads env url2 w1 = (Returned filename, w2)
        /\ fetchesOf (trace w2) = fetchesOf (trace w) ++ [url]
        /\ uploads w2 = uploads w ++ [filename])
  /\ (forall item first others f w1,
      imageUrls item = first :: others ->
      downloadImageToUploads env first w = (Returned f, w1) ->
      materializeImage env item w
      = (Returned (mkSuggestion (fields item) [uploadsBaseUrl +++ f]), w1)).
Proof.
  intros filename. change filename with (drawnName env w).
  split; [|split; [|split; [|split]]].
  - intros url' f w1 H. exact (download_name env url' w f w1 H).
  - apply download_existing.
  - apply download_fresh.
  - intros url2 Hnew Hdl Hsame.
    eexists. eexists. split; [apply download_fresh; assumption|].
    set (w1 := writeFile _ _).
    assert (Hname : drawnName env w1 = drawnName env w).
    { unfold drawnName, w1. simpl. rewrite Hsame. reflexivity. }
    split; [|split].
    + rewrite <- Hname. apply download_existing. rewrite Hname.
      unfold w1. apply fileExists_written.
    + unfold w1. simpl. rewrite !fetchesOf_app. simpl. rewrite app_nil_r. reflexivity.
    + reflexivity.
  - intros item first others f w1 Hurls Hdl.
    unfold materializeImage. rewrite Hurls. unfold tryCatch, bind.
    rewrite Hdl. reflexivity.
Qed.

(** Two requests for the same name in an empty upload directory; a
    request whose name is already there; the first of the two requests
    alone; and the rewriting of a suggestion with two generated images. *)
Lemma materialization_idempotent_witness :
  (exists w1 w2,
    downloadImageToUploads Scenario.quietEnv "https://images.example/a.png"
      Scenario.emptyWorld = (Returned "img-k3x9q.png", w1)
    /\ downloadImageToUploads Scenario.quietEnv "https://images.example/b.png" w1
       = (Returned "img-k3x9q.png", w2)
    /\ fetchesOf (trace w2) = ["https://images.example/a.png"]
    /\ uploads w2 = ["img-k3x9q.png"])
  /\ downloadImageToUploads Scenario.quietEnv "https://images.example/a.png"
       Scenario.withFile
     = (Returned "img-k3x9q.png", bumpRandom Scenario.withFile)
  /\ fetchesOf (trace (snd (downloadImageToUploads Scenario.quietEnv
                              "https://images.example/a.png" Scenario.emptyWorld)))
     = ["https://images.example/a.png"]
  /\ imageUrls_of_completion
       (fst (materializeImage Scenario.quietEnv Scenario.oneImage Scenario.emptyWorld))
     = Some ["https://aisocial.dev/api/uploads/img-k3x9q.png"].
Proof.
  pose proof (materialization_idempotent Scenario.quietEnv Scenario.emptyWorld
                "https://images.example/a.png") as (_ & _ & Hfresh & Htwice & Hrewrite).
  pose proof (materialization_idempotent Scenario.quietEnv Scenario.withFile
                "https://images.example/a.png") as (_ & Hexisting & _).
  split; [|split; [|split]].
  - exact (Htwice "https://images.example/b.png" eq_refl eq_refl eq_refl).
  - exact (Hexisting eq_refl).
  - rewrite (Hfresh eq_refl eq_refl). reflexivity.
  - rewrite (Hrewrite Scenario.oneImage _ _ _ _ eq_refl (Hfresh eq_refl eq_refl)).
    reflexivity.
Defined.

(** ** Frames: what the steps of the pipeline leave alone *)

Lemma Stable_ret {A} P (a : A) : Stable P (ret a).
Proof. intros w H. exact H. Qed.

Lemma Stable_throw {A} P e : Stable P (@throw A e).
Proof. intros w H. exact H. Qed.

Lemma Stable_lift {A} P (c : Completion A) : Stable P (lift c).
Proof. intros w H. exact H. Qed.

Lemma Stable_bind {A B} P (m : Async A) (k : A -> Async B) :
  Stable P m -> (forall a, Stable P (k a)) -> Stable P (bind m k).
Proof.
  intros Hm Hk w H. unfold bind. specialize (Hm w H).
  destruct (m w) as [[a|e] w1]; simpl in *; [apply Hk|]; assumption.
Qed.

Lemma Stable_tryCatch {A} P (m : Async A) (h : JsError -> Async A) :
  Stable P m -> (forall e, Stable P (h e)) -> Stable P (tryCatch m h).
Proof.
  intros Hm Hh w H. unfold tryCatch. specialize (Hm w H).
  destruct (m w) as [[a|e] w1]; simpl in *; [|apply Hh]; assumption.
Qed.

Lemma Stable_forEach {A B} P (body : A -> Async B) (xs : list A) :
  (forall x, Stable P (body x)) -> Stable P (forEach body xs).
Proof.
  intros Hb. induction xs as [|x r IH]; simpl.
  - apply Stable_ret.
  - apply Stable_bind; [apply Hb|]. intros y.
    apply Stable_bind; [exact IH|]. intros ys. apply Stable_ret.
Qed.

Lemma Stable_callWithBackoff {A} P (fn : Async A) retries delay :
  Ignores P -> Stable P fn -> Stable P (callWithBackoff fn retries delay).
Proof.
  intros HI Hfn w H. apply callWithBackoff_preserves; try assumption.
  intros ms w0 H0. unfold sleep. apply ignores_log; [assumption|].
  apply ignores_now; assumption.
Qed.

Section Frames.

Variable env : Env.
Variable P : World -> Prop.
Hypothesis HI : Ignores P.

Let Hlog := ignores_log P HI.
Let Hcalls := ignores_calls P HI.
Let Hnow := ignores_now P HI.
Let Huploads := ignores_uploads P HI.

Lemma Stable_download url : Stable P (downloadImageToUploads env url).
Proof.
  intros w H. unfold downloadImageToUploads, writeFile, bumpHttp, bumpRandom.
  destruct (fileExists _ _); simpl; [auto|].
  destruct (httpGetStream env _ url) as [|e|e [|]]; simpl; auto 10.
Qed.

Lemma Stable_materializeImage item : Stable P (materializeImage env item).
Proof.
  unfold materializeImage. destruct (imageUrls item) as [|first others].
  - apply Stable_ret.
  - apply Stable_tryCatch.
    + apply Stable_bind; [apply Stable_download|]. intros f. apply Stable_ret.
    + intros e. apply Stable_ret.
Qed.

Lemma Stable_requestCompletion prompt : Stable P (requestCompletion env prompt).
Proof.
  intros w H. unfold requestCompletion, bumpChat.
  destruct (chatCompletion env _ prompt) as [[raw|]|e]; simpl; auto.
Qed.

Lemma Stable_imagesForSuggestion profile x : Stable P (imagesForSuggestion env profile x).
Proof.
  unfold imagesForSuggestion. destruct (asObject x) as [o|]; [|apply Stable_throw].
  destruct (_ || _); [apply Stable_ret|].
  intros w H. unfold bumpImage.
  destruct (imagesGenerate env _ _) as [[urls|]|e]; simpl; auto.
Qed.

Lemma Stable_completeAndParse profile prompt :
  Stable P (completeAndParse env profile prompt).
Proof.
  unfold completeAndParse.
  apply Stable_bind; [apply Stable_requestCompletion|]. intros raw.
  apply Stable_bind; [apply Stable_lift|]. intros suggestions.
  apply Stable_forEach. intros x. apply Stable_imagesForSuggestion.
Qed.

(** The steps that also leave the cache of social posts alone keep a
    property that ignores that cache. *)
Hypothesis Hposts : forall l w, P w -> P (setInstagramPosts l w).

Lemma Stable_storePosts userId posts w : P w -> P (storePosts userId posts w).
Proof.
  unfold storePosts. revert w.
  induction posts as [|post r IH]; intros w H; simpl; [exact H|].
  apply IH. unfold storePost.
  destruct (rp_id post) as [id|]; [|exact H].
  destruct (String.eqb id EmptyString); [exact H|].
  destruct (findPost id w); [exact H|].
  unfold createPost. auto.
Qed.

Lemma Stable_fetch userId token : Stable P (fetchAndStoreInstagramPosts env userId token).
Proof.
  intros w H. unfold fetchAndStoreInstagramPosts, bumpMedia.
  destruct (instagramMedia env _ token) as [[[|post r]|]|e]; simpl; auto.
  apply (Stable_storePosts userId (post :: r)). auto.
Qed.

Lemma Stable_generateContentFromProfile profile userId token count update :
  Stable P (generateContentFromProfile env profile userId token count update).
Proof.
  assert (Hopt : forall u t,
             Stable P (if update then fetchAndStoreInstagramPosts env u t else ret tt)).
  { intros u t. destruct update; [apply Stable_fetch|apply Stable_ret]. }
  assert (Honly : Stable P (generateContentBasedOnProfileOnly env profile count))
    by apply Stable_completeAndParse.
  unfold generateContentFromProfile.
  destruct userId as [uid|]; [|exact Honly].
  destruct token as [tok|]; [|exact Honly].
  destruct (_ && _); [|exact Honly].
  apply Stable_bind; [apply Hopt|]. intros _.
  unfold generateContentBasedOnProfileAndInstagram.
  apply Stable_bind; [apply Hopt|]. intros _.
  intros w H. apply Stable_completeAndParse. exact H.
Qed.

End Frames.

(** ** The cache of social posts *)

Lemma findPost_None id w : findPost id w = None -> ~ In id (storedIds w).
Proof.
  unfold findPost, storedIds. intros H Hin.
  apply in_map_iff in Hin. destruct Hin as (p & Hp & Hin).
  pose proof (find_none _ _ H p Hin) as Hne. simpl in Hne.
  rewrite Hp, String.eqb_refl in Hne. discriminate.
Qed.

Lemma findPost_Some_iff id w : In id (storedIds w) -> findPost id w <> None.
Proof.
  unfold findPost, storedIds. intros Hin H.
  apply in_map_iff in Hin. destruct Hin as (p & Hp & Hin).
  pose proof (find_none _ _ H p Hin) as Hne. simpl in Hne.
  rewrite Hp, String.eqb_refl in Hne. discriminate.
Qed.

Lemma storePost_added userId post w :
  instagramPosts (storePost userId post w) = instagramPosts w
  \/ exists id,
       rp_id post = Some id /\ ~ In id (storedIds w)
       /\ instagramPosts (storePost userId post w)
          = instagramPosts w ++ [postDocument userId id post].
Proof.
  unfold storePost. destruct (rp_id post) as [id|]; [|left; reflexivity].
  destruct (String.eqb id EmptyString); [left; reflexivity|].
  destruct (findPost id w) eqn:F; [left; reflexivity|].
  right. exists id. split; [reflexivity|]. split; [apply findPost_None; exact F|].
  reflexivity.
Qed.

Lemma storePosts_added userId posts : forall w,
  exists added,
    instagramPosts (storePosts userId posts w) = instagramPosts w ++ added
    /\ NoDup (map instagramId added)
    /\ (forall p, In p added -> ~ In (instagramId p) (storedIds w)).
Proof.
  unfold storePosts.
  induction posts as [|post r IH]; intros w; simpl.
  - exists []. rewrite app_nil_r. repeat split; [constructor|intros p []].
  - destruct (IH (storePost userId post w)) as (added & Heq & Hnd & Hnew).
    destruct (storePost_added userId post w) as [Hsame | (id & Hid & Hfresh & Hone)].
    + exists added. rewrite Heq, Hsame. repeat split; [assumption|].
      intros p Hp. specialize (Hnew p Hp). unfold storedIds in *.
      rewrite Hsame in Hnew. exact Hnew.
    + exists (postDocument userId id post :: added).
      rewrite Heq, Hone, <- app_assoc. simpl.
      assert (Hsplit : forall p, In p added ->
                ~ In (instagramId p) (storedIds w) /\ instagramId p <> id).
      { intros p Hp. specialize (Hnew p Hp). unfold storedIds in *.
        rewrite Hone, map_app, in_app_iff in Hnew. simpl in Hnew.
        split; [tauto|]. intros E. apply Hnew. right. left. symmetry. exact E. }
      repeat split.
      * constructor; [|assumption].
        intros Hin. apply in_map_iff in Hin. destruct Hin as (p & Hp & Hin).
        apply (proj2 (Hsplit p Hin)). exact Hp.
      * intros p [<- | Hp]; [exact Hfresh | apply (proj1 (Hsplit p Hp))].
Qed.

Lemma storePosts_noop userId posts : forall w,
  (forall post id, In post posts -> rp_id post = Some id ->
                   id <> EmptyString -> In id (storedIds w)) ->
  storePosts userId posts w = w.
Proof.
  unfold storePosts.
  induction posts as [|post r IH]; intros w H; simpl; [reflexivity|].
  assert (Hpost : storePost userId post w = w).
  { unfold storePost. destruct (rp_id post) as [id|] eqn:Hid; [|reflexivity].
    destruct (String.eqb id EmptyString) eqn:He; [reflexivity|].
    apply String.eqb_neq in He.
    pose proof (findPost_Some_iff id w (H post id (or_introl eq_refl) Hid He)) as F.
    destruct (findPost id w); [reflexivity|contradiction]. }
  rewrite Hpost. apply IH. intros p id Hp. apply H. right. exact Hp.
Qed.

Lemma storePost_keeps userId post w id :
  In id (storedIds w) -> In id (storedIds (storePost userId post w)).
Proof.
  intros H. unfold storedIds in *.
  destruct (storePost_added userId post w) as [-> | (i & _ & _ & ->)]; [exact H|].
  rewrite map_app, in_app_iff. left. exact H.
Qed.

Lemma storePosts_keeps userId posts : forall w id,
  In id (storedIds w) -> In id (storedIds (storePosts userId posts w)).
Proof.
  unfold storePosts. induction posts as [|post r IH]; intros w id H; simpl; [exact H|].
  apply IH. apply storePost_keeps. exact H.
Qed.

Lemma storePosts_stores userId posts : forall w post id,
  In post posts -> rp_id post = Some id -> id <> EmptyString ->
  In id (storedIds (storePosts userId posts w)).
Proof.
  induction posts as [|p r IH]; intros w post id Hin Hid Hne; [destruct Hin|].
  change (storePosts userId (p :: r) w) with (storePosts userId r (storePost userId p w)).
  destruct Hin as [-> | Hin]; [|apply (IH _ post); assumption].
  apply storePosts_keeps. unfold storePost. rewrite Hid.
  apply String.eqb_neq in Hne. rewrite Hne.
  destruct (findPost id w) eqn:F.
  - destruct (in_dec string_dec id (storedIds w)) as [Hi|Hn]; [exact Hi|].
    exfalso. unfold findPost in F. apply find_some in F. destruct F as [Hp He].
    apply String.eqb_eq in He. apply Hn. unfold storedIds.
    apply in_map_iff. exists i. split; assumption.
  - unfold createPost, storedIds. simpl. rewrite map_app, in_app_iff.
    right. left. reflexivity.
Qed.

Lemma storePosts_calls userId posts : forall w,
  calls (storePosts userId posts w) = calls w.
Proof.
  unfold storePosts. induction posts as [|post r IH]; intros w; simpl; [reflexivity|].
  rewrite IH. unfold storePost.
  destruct (rp_id post) as [id|]; [|reflexivity].
  destruct (String.eqb id EmptyString); [reflexivity|].
  destruct (findPost id w); reflexivity.
Qed.

Section Dedup.

Variable env : Env.
Variables userId token : string.

Let fetch := fetchAndStoreInstagramPosts env userId token.

Lemma fetch_added w :
  exists added,
    instagramPosts (snd (fetch w)) = instagramPosts w ++ added
    /\ NoDup (map instagramId added)
    /\ (forall p, In p added -> ~ In (instagramId p) (storedIds w)).
Proof.
  unfold fetch, fetchAndStoreInstagramPosts.
  assert (Hnone : exists added,
             instagramPosts w = instagramPosts w ++ added
             /\ NoDup (map instagramId added)
             /\ (forall p, In p added -> ~ In (instagramId p) (storedIds w))).
  { exists []. rewrite app_nil_r. repeat split; [constructor|intros p []]. }
  destruct (instagramMedia env _ token) as [[[|post r]|]|e]; cbn [snd]; try exact Hnone.
  apply (storePosts_added userId (post :: r)
           (log (EvInstagramMedia token) (bumpMedia w))).
Qed.

Lemma fetch_mediaCalls w :
  mediaCalls (calls (snd (fetch w))) = S (mediaCalls (calls w)).
Proof.
  unfold fetch, fetchAndStoreInstagramPosts.
  destruct (instagramMedia env _ token) as [[[|post r]|]|e]; cbn [snd]; try reflexivity.
  rewrite (storePosts_calls userId (post :: r)). reflexivity.
Qed.

Lemma fetch_again w posts :
  instagramMedia env (mediaCalls (calls w)) token = MediaData (Some posts) ->
  instagramMedia env (S (mediaCalls (calls w))) token = MediaData (Some posts) ->
  instagramPosts (snd (fetch (snd (fetch w)))) = instagramPosts (snd (fetch w)).
Proof.
  intros H1 H2.
  pose proof (fetch_mediaCalls w) as Hk.
  remember (snd (fetch w)) as w1 eqn:Hw1.
  assert (Hids : forall post id, In post posts -> rp_id post = Some id ->
                                 id <> EmptyString -> In id (storedIds w1)).
  { intros post id Hin Hid Hne. subst w1.
    unfold fetch, fetchAndStoreInstagramPosts. rewrite H1.
    destruct posts as [|p r]; [destruct Hin|]. cbn [snd].
    apply (storePosts_stores userId (p :: r) _ post id); assumption. }
  unfold fetch at 1. unfold fetchAndStoreInstagramPosts. rewrite Hk, H2.
  destruct posts as [|p r]; [reflexivity|]. cbn [snd].
  rewrite storePosts_noop; [reflexivity|].
  intros post id Hin Hid Hne. exact (Hids post id Hin Hid Hne).
Qed.

End Dedup.

Lemma Ignores_posts (l : list InstagramPostDoc) : Ignores (fun w => instagramPosts w = l).
Proof. constructor; intros; assumption. Qed.

(** C9.  A fetch adds to the cache only posts whose external id was not
    there, each id once, so distinct ids stay distinct; fetching the same
    remote list again leaves the cache as it is; and the second of the
    two fetches that [generateContentFromProfile] makes when
    [updateInstagramPosts] is set adds no row. *)
Theorem social_posts_deduplicated (env : Env) (userId token : string) (w : World) :
  let fetch := fetchAndStoreInstagramPosts env userId token in
  (exists added,
      instagramPosts (snd (fetch w)) = instagramPosts w ++ added
      /\ NoDup (map instagramId added)
      /\ (forall p, In p added -> ~ In (instagramId p) (storedIds w)))
  /\ (NoDup (storedIds w) -> NoDup (storedIds (snd (fetch w))))
  /\ (forall posts,
        instagramMedia env (mediaCalls (calls w)) token = MediaData (Some posts) ->
        instagramMedia env (S (mediaCalls (calls w))) token = MediaData (Some posts) ->
        instagramPosts (snd (fetch (snd (fetch w)))) = instagramPosts (snd (fetch w)))
  /\ (forall profile count posts,
        userId <> EmptyString -> token <> EmptyString ->
        instagramMedia env (mediaCalls (calls w)) token = MediaData (Some posts) ->
        instagramMedia env (S (mediaCalls (calls w))) token = MediaData (Some posts) ->
        instagramPosts
          (snd (generateContentFromProfile env profile (Some userId) (Some token)
                  count true w))
        = instagramPosts (snd (fetch w))).
Proof.
  intros fetch. split; [|split; [|split]].
  - apply fetch_added.
  - intros Hnd. destruct (fetch_added env userId token w) as (added & Heq & Hnd' & Hnew).
    unfold storedIds in *. fold fetch in Heq. rewrite Heq, map_app.
    apply NoDup_app; try assumption.
    intros id Hin Hin'. apply in_map_iff in Hin'. destruct Hin' as (p & <- & Hp).
    exact (Hnew p Hp Hin).
  - apply fetch_again.
  - intros profile count posts Hu Ht H1 H2.
    pose proof (fetch_mediaCalls env userId token w) as Hk.
    assert (Hret : forall x d, instagramMedia env (mediaCalls (calls x)) token = MediaData d ->
                               fst (fetch x) = Returned tt).
    { intros x d Hd. unfold fetch, fetchAndStoreInstagramPosts. rewrite Hd.
      destruct d as [[|p r]|]; reflexivity. }
    fold fetch in Hk.
    remember (snd (fetch w)) as w1 eqn:Hw1.
    remember (snd (fetch w1)) as w2 eqn:Hw2.
    assert (Hagain : instagramPosts w2 = instagramPosts w1)
      by (subst w2 w1; exact (fetch_again env userId token w posts H1 H2)).
    assert (E1 : fetch w = (Returned tt, w1)).
    { rewrite (surjective_pairing (fetch w)), (Hret w _ H1), Hw1. reflexivity. }
    assert (E2 : fetch w1 = (Returned tt, w2)).
    { rewrite (surjective_pairing (fetch w1)), (Hret w1 (Some posts)), Hw2;
        [reflexivity | rewrite Hk; exact H2]. }
    unfold generateContentFromProfile.
    apply String.eqb_neq in Hu. apply String.eqb_neq in Ht. rewrite Hu, Ht. cbn [negb andb].
    fold fetch. unfold bind at 1. rewrite E1.
    unfold generateContentBasedOnProfileAndInstagram. fold fetch.
    unfold bind. rewrite E2.
    rewrite <- Hagain.
    apply (Stable_completeAndParse env _ (Ignores_posts _)). reflexivity.
Qed.

(** A first fetch of three listed posts, two of which share an id, into
    an empty cache, and the generation that fetches twice. *)
Lemma social_posts_deduplicated_witness :
  storedIds (snd (fetchAndStoreInstagramPosts Scenario.mediaEnv "u1" "token"
                    Scenario.emptyWorld)) = ["17"; "18"]
  /\ NoDup (storedIds (snd (fetchAndStoreInstagramPosts Scenario.mediaEnv "u1" "token"
                              Scenario.emptyWorld)))
  /\ storedIds (snd (fetchAndStoreInstagramPosts Scenario.mediaEnv "u1" "token"
                       (snd (fetchAndStoreInstagramPosts Scenario.mediaEnv "u1" "token"
                               Scenario.emptyWorld)))) = ["17"; "18"]
  /\ storedIds (snd (generateContentFromProfile Scenario.mediaEnv Scenario.bakery
                       (Some "u1") (Some "token") 3%Z true Scenario.emptyWorld))
     = ["17"; "18"].
Proof.
  pose proof (social_posts_deduplicated Scenario.mediaEnv "u1" "token"
                Scenario.emptyWorld) as (_ & Hnd & Hagain & Hgen).
  assert (Hne : forall a b : string, String.eqb a b = false -> a <> b)
    by (intros a b; apply String.eqb_neq).
  split; [reflexivity|]. split; [apply Hnd; constructor|].
  split.
  - unfold storedIds. rewrite (Hagain _ eq_refl eq_refl). reflexivity.
  - unfold storedIds.
    rewrite (Hgen Scenario.bakery 3%Z _ (Hne "u1" EmptyString eq_refl)
               (Hne "token" EmptyString eq_refl) eq_refl eq_refl).
    reflexivity.
Defined.

(** ** Ranking of the cached posts *)


Section Ranking.

Context {A : Type} (key : A -> Z).

Let above (a b : A) : Prop := (key b <= key a)%Z.

Lemma insertDesc_perm x l : Permutation (insertDesc key x l) (x :: l).
Proof.
  induction l as [|y r IH]; simpl; [reflexivity|].
  destruct (key y <=? key x)%Z; [reflexivity|].
  rewrite IH. apply perm_swap.
Qed.

Lemma sortDescBy_perm l : Permutation (sortDescBy key l) l.
Proof.
  induction l as [|x r IH]; simpl; [reflexivity|].
  rewrite insertDesc_perm. constructor. exact IH.
Qed.

Lemma insertDesc_sorted x l :
  StronglySorted above l -> StronglySorted above (insertDesc key x l).
Proof.
  induction 1 as [|y r Hr IH Hy]; simpl.
  - constructor; constructor.
  - destruct (key y <=? key x)%Z eqn:E.
    + apply Z.leb_le in E. constructor.
      * constructor; assumption.
      * constructor; [exact E|].
        eapply Forall_impl; [|exact Hy]. intros b Hb. unfold above in *. lia.
    + apply Z.leb_gt in E. constructor; [exact IH|].
      apply (Permutation_Forall (Permutation_sym (insertDesc_perm x r))).
      constructor; [unfold above; lia | exact Hy].
Qed.

Lemma sortDescBy_sorted l : StronglySorted above (sortDescBy key l).
Proof.
  induction l as [|x r IH]; simpl; [constructor|].
  apply insertDesc_sorted. exact IH.
Qed.





End Ranking.


Lemma append_assoc (a b c : string) : (a +++ b) +++ c = a +++ (b +++ c).
Proof. induction a as [|ch a IH]; simpl; [|rewrite IH]; reflexivity. Qed.






(** ** The parsing ladder *)

Lemma text_chars (s : string) : text (chars s) = s.
Proof. apply string_of_list_ascii_of_string. Qed.

Lemma chars_text (l : list ascii) : chars (text l) = l.
Proof. apply list_ascii_of_string_of_list_ascii. Qed.

Lemma chars_append (a b : string) : chars (a +++ b) = chars a ++ chars b.
Proof. unfold chars. induction a as [|c a IH]; simpl; [|rewrite IH]; reflexivity. Qed.

Lemma text_app (a b : list ascii) : text (a ++ b) = text a +++ text b.
Proof. unfold text. induction a as [|c a IH]; simpl; [|rewrite IH]; reflexivity. Qed.

Lemma dropWhileEnd_keep {A} (p : A -> bool) (l : list A) (c : A) :
  p c = false -> dropWhileEnd p (l ++ [c]) = l ++ [c].
Proof.
  intros H. unfold dropWhileEnd. rewrite rev_app_distr. simpl. rewrite H.
  simpl. rewrite rev_involutive. reflexivity.
Qed.

Lemma dropWhileEnd_drop {A} (p : A -> bool) (l : list A) (c : A) :
  p c = true -> dropWhileEnd p (l ++ [c]) = dropWhileEnd p l.
Proof.
  intros H. unfold dropWhileEnd. rewrite rev_app_distr. simpl. rewrite H. reflexivity.
Qed.

Lemma stripPrefix_app (p l : list ascii) : stripPrefix p (p ++ l) = Some l.
Proof.
  induction p as [|c p IH]; simpl; [reflexivity|]. rewrite Ascii.eqb_refl. exact IH.
Qed.

Lemma stripSuffix_app (p l : list ascii) : stripSuffix p (l ++ p) = Some l.
Proof.
  unfold stripSuffix. rewrite rev_app_distr, stripPrefix_app, rev_involutive. reflexivity.
Qed.

Lemma fromFirst_skip (c : ascii) (p l : list ascii) :
  forallb (fun x => negb (Ascii.eqb x c)) p = true ->
  fromFirst c (p ++ c :: l) = Some (c :: l).
Proof.
  induction p as [|x p IH]; simpl; intros H.
  - rewrite Ascii.eqb_refl. reflexivity.
  - apply andb_true_iff in H. destruct H as [Hx Hp].
    apply negb_true_iff in Hx. rewrite Hx. apply IH. exact Hp.
Qed.

Lemma forallb_rev {A} (f : A -> bool) (l : list A) : forallb f (rev l) = forallb f l.
Proof.
  induction l as [|x l IH]; simpl; [reflexivity|].
  rewrite forallb_app, IH. simpl. rewrite andb_true_r. apply andb_comm.
Qed.

Lemma throughLast_skip (c : ascii) (l q : list ascii) :
  forallb (fun x => negb (Ascii.eqb x c)) q = true ->
  throughLast c (l ++ c :: q) = Some (l ++ [c]).
Proof.
  intros H. unfold throughLast.
  rewrite rev_app_distr. simpl. rewrite <- app_assoc. simpl.
  rewrite fromFirst_skip by (rewrite forallb_rev; exact H).
  simpl. rewrite rev_involutive. reflexivity.
Qed.

(** The fallback takes the text from the first opening bracket to the
    last closing one. *)
Lemma matchBracketed_spans (before mid after : string) :
  lacks "["%char before = true -> lacks "]"%char after = true ->
  matchBracketed (before +++ "[" +++ mid +++ "]" +++ after)
  = Some ("[" +++ mid +++ "]").
Proof.
  unfold lacks, matchBracketed. intros Hb Ha.
  rewrite !chars_append. simpl (chars "["). simpl (chars "]").
  change (["["%char] ++ chars mid ++ ["]"%char] ++ chars after)
    with ("["%char :: chars mid ++ "]"%char :: chars after).
  rewrite fromFirst_skip by exact Hb.
  rewrite throughLast_skip by exact Ha.
  f_equal. change ("["%char :: chars mid ++ ["]"%char])
    with (chars "[" ++ chars mid ++ chars "]").
  rewrite !text_app, !text_chars. reflexivity.
Qed.

Lemma trimChars_tight (c d : ascii) (l : list ascii) :
  isSpace c = false -> isSpace d = false ->
  trimChars (c :: l ++ [d]) = c :: l ++ [d].
Proof.
  intros Hc Hd. unfold trimChars. simpl. rewrite Hc.
  exact (dropWhileEnd_keep isSpace (c :: l) d Hd).
Qed.

Lemma cleanResponse_bare (mid : string) :
  cleanResponse ("[" +++ mid +++ "]") = "[" +++ mid +++ "]".
Proof.
  unfold cleanResponse, trim.
  rewrite !chars_append. simpl (chars "["). simpl (chars "]").
  change (["["%char] ++ chars mid ++ ["]"%char]) with ("["%char :: chars mid ++ ["]"%char]).
  rewrite trimChars_tight by reflexivity.
  unfold startsWith. rewrite chars_text. simpl.
  change ("["%char :: chars mid ++ ["]"%char]) with (chars "[" ++ chars mid ++ chars "]").
  rewrite !text_app, !text_chars. reflexivity.
Qed.

Lemma cleanResponse_fencedJson (mid : string) :
  cleanResponse (fenceJson +++ newline +++ "[" +++ mid +++ "]" +++ newline +++ fence)
  = "[" +++ mid +++ "]".
Proof.
  unfold cleanResponse, trim.
  set (body := "["%char :: chars mid ++ ["]"%char]).
  assert (Hchars : chars (fenceJson +++ newline +++ "[" +++ mid +++ "]" +++ newline +++ fence)
                   = "`"%char :: (chars "``json" ++ "010"%char :: body ++ ["010"%char; "`"%char; "`"%char])
                     ++ ["`"%char]).
  { rewrite !chars_append. unfold body. simpl. rewrite <- !app_assoc. reflexivity. }
  rewrite Hchars, trimChars_tight by reflexivity.
  unfold startsWith. rewrite !chars_text.
  replace ("`"%char :: (chars "``json" ++ "010"%char :: body
                        ++ ["010"%char; "`"%char; "`"%char]) ++ ["`"%char])
    with (chars fenceJson ++ ("010"%char :: body ++ ["010"%char]) ++ chars fence)
    by (simpl; rewrite <- !app_assoc; reflexivity).
  rewrite stripPrefix_app.
  unfold removeLeading. rewrite stripPrefix_app.
  unfold removeTrailing.
  change (dropWhile isSpace (("010"%char :: body ++ ["010"%char]) ++ chars fence))
    with ((body ++ ["010"%char]) ++ chars fence).
  rewrite stripSuffix_app.
  rewrite dropWhileEnd_drop by reflexivity.
  unfold body.
  change (dropWhileEnd isSpace ("["%char :: chars mid ++ ["]"%char]))
    with (dropWhileEnd isSpace (("["%char :: chars mid) ++ ["]"%char])).
  rewrite dropWhileEnd_keep by reflexivity.
  change (("["%char :: chars mid) ++ ["]"%char])
    with ("["%char :: chars mid ++ ["]"%char]).
  change ("["%char :: chars mid ++ ["]"%char]) with (chars "[" ++ chars mid ++ chars "]").
  rewrite !text_app, !text_chars. reflexivity.
Qed.

Lemma cleanResponse_fenced (mid : string) :
  cleanResponse (fence +++ newline +++ "[" +++ mid +++ "]" +++ newline +++ fence)
  = "[" +++ mid +++ "]".
Proof.
  unfold cleanResponse, trim.
  set (body := "["%char :: chars mid ++ ["]"%char]).
  assert (Hchars : chars (fence +++ newline +++ "[" +++ mid +++ "]" +++ newline +++ fence)
                   = "`"%char :: (chars "``" ++ "010"%char :: body ++ ["010"%char; "`"%char; "`"%char])
                     ++ ["`"%char]).
  { rewrite !chars_append. unfold body. simpl. rewrite <- !app_assoc. reflexivity. }
  rewrite Hchars, trimChars_tight by reflexivity.
  unfold startsWith. rewrite !chars_text.
  replace ("`"%char :: (chars "``" ++ "010"%char :: body
                        ++ ["010"%char; "`"%char; "`"%char]) ++ ["`"%char])
    with (chars fence ++ ("010"%char :: body ++ ["010"%char]) ++ chars fence)
    by (simpl; rewrite <- !app_assoc; reflexivity).
  rewrite stripPrefix_app.
  change (stripPrefix (chars fenceJson)
            (chars fence ++ ("010"%char :: body ++ ["010"%char]) ++ chars fence))
    with (@None (list ascii)).
  unfold removeLeading. rewrite stripPrefix_app.
  unfold removeTrailing.
  change (dropWhile isSpace (("010"%char :: body ++ ["010"%char]) ++ chars fence))
    with ((body ++ ["010"%char]) ++ chars fence).
  rewrite stripSuffix_app.
  rewrite dropWhileEnd_drop by reflexivity.
  unfold body.
  change (dropWhileEnd isSpace ("["%char :: chars mid ++ ["]"%char]))
    with (dropWhileEnd isSpace (("["%char :: chars mid) ++ ["]"%char])).
  rewrite dropWhileEnd_keep by reflexivity.
  change (("["%char :: chars mid) ++ ["]"%char])
    with (chars "[" ++ chars mid ++ chars "]").
  rewrite !text_app, !text_chars. reflexivity.
Qed.

(** The result of the ladder depends on the response through its cleaned
    text and its bracketed match only. *)
Lemma parseSuggestions_congruence (a b : string) :
  cleanResponse a = cleanResponse b -> matchBracketed a = matchBracketed b ->
  parseSuggestions a = parseSuggestions b.
Proof. intros Hc Hm. unfold parseSuggestions. rewrite Hc, Hm. reflexivity. Qed.

(** C3, as the code has it.  The parser trims the response, strips a
    leading [```json] or [```] marker and a trailing [```] marker, and
    parses the result as JSON; only when that fails does it take the text
    from the first opening bracket of the raw response to its last closing
    bracket and parse that; when both fail, or the parsed value is not an
    array, parsing fails.  So a fenced array parses as the bare array
    does, and a response with prose around a valid array parses to that
    array when the prose before it has no opening bracket, the prose
    after it has no closing bracket, and the direct parse fails. *)
Theorem parsing_ladder :
  (forall raw v,
      Json.parse (cleanResponse raw) = Some v ->
      parseSuggestions raw
      = match v with
        | JArr items => Returned items
        | _ => Thrown notAnArray
        end)
  /\ (forall raw,
      Json.parse (cleanResponse raw) = None ->
      parseSuggestions raw
      = match matchBracketed raw with
        | None => Thrown noArrayFound
        | Some jsonMatch =>
            match Json.parse jsonMatch with
            | Some (JArr items) => Returned items
            | Some _ => Thrown notAnArray
            | None => Thrown unableToParse
            end
        end)
  /\ (forall before mid after,
      lacks "["%char before = true -> lacks "]"%char after = true ->
      matchBracketed (before +++ "[" +++ mid +++ "]" +++ after)
      = Some ("[" +++ mid +++ "]"))
  /\ (forall mid,
      parseSuggestions (fenceJson +++ newline +++ "[" +++ mid +++ "]" +++ newline +++ fence)
      = parseSuggestions ("[" +++ mid +++ "]")
      /\ parseSuggestions (fence +++ newline +++ "[" +++ mid +++ "]" +++ newline +++ fence)
         = parseSuggestions ("[" +++ mid +++ "]"))
  /\ (forall before mid after items,
      lacks "["%char before = true -> lacks "]"%char after = true ->
      Json.parse (cleanResponse (before +++ "[" +++ mid +++ "]" +++ after)) = None ->
      Json.parse ("[" +++ mid +++ "]") = Some (JArr items) ->
      parseSuggestions (before +++ "[" +++ mid +++ "]" +++ after) = Returned items).
Proof.
  split; [|split; [|split; [|split]]].
  - intros raw v H. unfold parseSuggestions. rewrite H. destruct v; reflexivity.
  - intros raw H. unfold parseSuggestions. rewrite H.
    destruct (matchBracketed raw) as [m|]; [|reflexivity].
    destruct (Json.parse m) as [[]|]; reflexivity.
  - apply matchBracketed_spans.
  - intros mid.
    assert (Hbare : matchBracketed ("[" +++ mid +++ "]") = Some ("[" +++ mid +++ "]")).
    { pose proof (matchBracketed_spans EmptyString mid EmptyString eq_refl eq_refl) as H.
      exact H. }
    split; apply parseSuggestions_congruence.
    + rewrite cleanResponse_fencedJson, cleanResponse_bare. reflexivity.
    + rewrite Hbare.
      replace (fenceJson +++ newline +++ "[" +++ mid +++ "]" +++ newline +++ fence)
        with ((fenceJson +++ newline) +++ "[" +++ mid +++ "]" +++ (newline +++ fence))
        by (rewrite !append_assoc; reflexivity).
      apply matchBracketed_spans; reflexivity.
    + rewrite cleanResponse_fenced, cleanResponse_bare. reflexivity.
    + rewrite Hbare.
      replace (fence +++ newline +++ "[" +++ mid +++ "]" +++ newline +++ fence)
        with ((fence +++ newline) +++ "[" +++ mid +++ "]" +++ (newline +++ fence))
        by (rewrite !append_assoc; reflexivity).
      apply matchBracketed_spans; reflexivity.
  - intros before mid after items Hb Ha Hdirect Harr.
    unfold parseSuggestions.
    rewrite Hdirect, (matchBracketed_spans before mid after Hb Ha), Harr. reflexivity.
Qed.

(** The fenced array and the array in plain prose of the scenarios. *)
Lemma parsing_ladder_witness :
  parseSuggestions Scenario.fencedText = Returned [JObj [("title", JStr "A")]]
  /\ parseSuggestions Scenario.fencedText = parseSuggestions Scenario.oneSuggestionText
  /\ parseSuggestions Scenario.proseText = Returned [JObj [("title", JStr "A")]]
  /\ matchBracketed Scenario.proseText = Some Scenario.oneSuggestionText
  /\ parseSuggestions "No ideas today." = Thrown noArrayFound.
Proof.
  pose proof parsing_ladder as (Hdirect & Hfallback & Hspan & Hfenced & Hprose).
  split; [|split; [|split; [|split]]].
  - exact (Hdirect Scenario.fencedText (JArr [JObj [("title", JStr "A")]]) eq_refl).
  - exact (proj1 (Hfenced Scenario.oneSuggestionMid)).
  - exact (Hprose "Here are your ideas: " Scenario.oneSuggestionMid " Enjoy!"
             [JObj [("title", JStr "A")]] eq_refl eq_refl eq_refl eq_refl).
  - exact (Hspan "Here are your ideas: " Scenario.oneSuggestionMid " Enjoy!"
             eq_refl eq_refl).
  - exact (Hfallback "No ideas today." eq_refl).
Defined.

(** C3, as the claim words it, fails on a response whose prose has
    brackets of its own: the array is valid and the first balanced
    bracketed substring is that array, but the fallback takes the text up
    to the last closing bracket of the response, which is not JSON, and
    parsing fails. *)
Lemma parsing_prose_counterexample :
  parseSuggestions Scenario.oneSuggestionText = Returned [JObj [("title", JStr "A")]]
  /\ matchBalanced Scenario.bracketedProseText = Some Scenario.oneSuggestionText
  /\ matchBracketed Scenario.bracketedProseText
     = Some (Scenario.oneSuggestionText +++ " (hashtags in [brackets]")
  /\ parseSuggestions Scenario.bracketedProseText = Thrown unableToParse.
Proof. repeat split; vm_compute; reflexivity. Qed.

(** ** Materialization of a batch *)

Section Batch.

Variable env : Env.

Lemma materializeImage_returns item w :
  exists item' w',
    materializeImage env item w = (Returned item', w')
    /\ fields item' = fields item
    /\ length (imageUrls item') <= 1
    /\ (imageUrls item = [] -> item' = item /\ w' = w).
Proof.
  unfold materializeImage. destruct (imageUrls item) as [|first others] eqn:E.
  - exists item, w. rewrite E. repeat split; auto.
  - unfold tryCatch, bind, ret.
    destruct (downloadImageToUploads env first w) as [[f|e] w1]; eexists; eexists;
      (split; [reflexivity|]); simpl; repeat split; auto; discriminate.
Qed.


Lemma forEach_materialize items : forall w,
  exists items' w',
    forEach (materializeImage env) items w = (Returned items', w')
    /\ map fields items' = map fields items
    /\ Forall (fun i => length (imageUrls i) <= 1) items'.
Proof.
  induction items as [|item r IH]; intros w; simpl.
  - exists [], w. repeat split; constructor.
  - destruct (materializeImage_returns item w) as (item' & w1 & E1 & Hf & Hl & _).
    destruct (IH w1) as (r' & w2 & E2 & Hfs & Hls).
    exists (item' :: r'), w2. unfold bind, ret. rewrite E1, E2.
    repeat split; simpl; [rewrite Hf, Hfs; reflexivity | constructor; assumption].
Qed.

Lemma newDocs_length userId source t items : forall k,
  length (newDocs env userId source t k items) = length items.
Proof. induction items as [|i r IH]; intros k; simpl; [|rewrite IH]; reflexivity. Qed.

Lemma newDocs_items userId source t items : forall k,
  map doc_item (newDocs env userId source t k items) = items.
Proof. induction items as [|i r IH]; intros k; simpl; [|rewrite IH]; reflexivity. Qed.

Lemma newDocs_meta userId source t items : forall k d,
  In d (newDocs env userId source t k items) ->
  doc_userId d = userId /\ doc_source d = source /\ doc_refreshed d = false
  /\ doc_createdAt d = t.
Proof.
  induction items as [|i r IH]; intros k d; simpl; [intros []|].
  intros [<- | H]; [repeat split | exact (IH _ _ H)].
Qed.

(** The regeneration, once the wrapped generation has returned or thrown. *)
Lemma regenerate_thrown c userId source generate w e w1 :
  callWithBackoff generate 3 1000%Z w = (Thrown e, w1) ->
  regenerate env c userId source generate w = (Next e, w1).
Proof. intros H. unfold regenerate, bind. rewrite H. reflexivity. Qed.

Lemma regenerate_returned c userId source generate w generated w1 :
  callWithBackoff generate 3 1000%Z w = (Returned generated, w1) ->
  exists items w2,
    forEach (materializeImage env) generated w1 = (Returned items, w2)
    /\ map fields items = map fields generated
    /\ Forall (fun i => length (imageUrls i) <= 1) items
    /\ regenerate env c userId source generate w
       = (Json 200 (fst (insertMany env c userId source items w2)),
          snd (insertMany env c userId source items w2)).
Proof.
  intros H.
  destruct (forEach_materialize generated w1) as (items & w2 & E & Hf & Hl).
  exists items, w2. repeat split; try assumption.
  unfold regenerate, bind. rewrite H, E.
  destruct (insertMany env c userId source items w2). reflexivity.
Qed.

End Batch.

(** ** The staleness policy *)

Lemma Ignores_stores (cs igs : list SuggestionDoc) :
  Ignores (fun w => contentSuggestions w = cs /\ instagramContentSuggestions w = igs).
Proof. constructor; intros; assumption. Qed.

Lemma Ignores_trace (t0 : list Event) :
  Ignores (fun w => exists later, trace w = t0 ++ later).
Proof.
  constructor; intros; try assumption.
  destruct H as (later & E). exists (later ++ [e]). simpl. rewrite E, app_assoc. reflexivity.
Qed.

Lemma filter_filter_negb {A} (f : A -> bool) (l : list A) :
  filter f (filter (fun d => negb (f d)) l) = [].
Proof.
  induction l as [|x r IH]; simpl; [reflexivity|].
  destruct (f x) eqn:E; simpl; [exact IH|]. rewrite E. exact IH.
Qed.

Lemma olderThanADay_spec w d : olderThanADay w d = true <-> (dayInMs < ageOf w d)%Z.
Proof. unfold olderThanADay, ageOf, dayMs, dayInMs. rewrite Z.ltb_lt. simpl. reflexivity. Qed.

Lemma olderThanADay_false w d : olderThanADay w d = false <-> (ageOf w d <= dayInMs)%Z.
Proof. unfold olderThanADay, ageOf, dayMs, dayInMs. rewrite Z.ltb_ge. simpl. reflexivity. Qed.

Lemma findSorted_head_newest c sel w latest rest :
  findSorted c sel w = latest :: rest -> isNewest latest (findSorted c sel w).
Proof.
  intros E. split; [rewrite E; left; reflexivity|].
  pose proof (sortDescBy_sorted doc_createdAt (filter sel (collection c w))) as Hs.
  unfold findSorted in E. rewrite E in Hs. unfold findSorted. rewrite E.
  inversion Hs as [|? ? _ Hall]; subst. rewrite Forall_forall in Hall.
  intros d [<- | Hd]; [lia | apply Hall; exact Hd].
Qed.

(** Two newest items of a bucket were created at the same time. *)
Lemma isNewest_same bucket a b :
  isNewest a bucket -> isNewest b bucket -> doc_createdAt a = doc_createdAt b.
Proof.
  intros [Ha Ha'] [Hb Hb']. specialize (Ha' b Hb). specialize (Hb' a Ha). lia.
Qed.

Section Policy.

Variable env : Env.
Variable userId : string.
Variable w : World.

(** The test of [getOrGenerateSuggestions]. *)
Lemma business_test_stale :
  stale w (businessBucket userId w) ->
  (length (businessBucket userId w) <? 3)
  || existsb (olderThanADay w) (businessBucket userId w) = true.
Proof.
  intros [Hlen | (n & [Hin _] & Hage)]; apply orb_true_iff.
  - left. apply Nat.ltb_lt. exact Hlen.
  - right. apply existsb_exists. exists n. split; [exact Hin|].
    apply olderThanADay_spec. exact Hage.
Qed.

Lemma business_test_allFresh :
  allFresh w (businessBucket userId w) ->
  (length (businessBucket userId w) <? 3)
  || existsb (olderThanADay w) (businessBucket userId w) = false.
Proof.
  intros [Hlen Hall]. apply orb_false_iff. split.
  - apply Nat.ltb_ge. exact Hlen.
  - destruct (existsb _ _) eqn:E; [|reflexivity].
    apply existsb_exists in E. destruct E as (d & Hd & Hold).
    apply olderThanADay_spec in Hold. specialize (Hall d Hd). lia.
Qed.

(** The test of [getOrGenerateUserSuggestions]. *)
Lemma user_test_stale :
  stale w (userBucket userId w) -> shouldGenerate w (userBucket userId w) = true.
Proof.
  intros Hstale. unfold shouldGenerate.
  destruct (userBucket userId w) as [|latest rest] eqn:E; [reflexivity|].
  destruct (olderThanADay w latest) eqn:Hold; [reflexivity|].
  destruct (length (latest :: rest) <? 3) eqn:Hlen; [reflexivity|].
  exfalso. apply Nat.ltb_ge in Hlen. apply olderThanADay_false in Hold.
  destruct Hstale as [Hshort | (n & Hn & Hage)]; [lia|].
  pose proof (findSorted_head_newest _ _ _ _ _ E) as Hhead.
  fold (userBucket userId w) in Hhead. rewrite E in Hhead.
  pose proof (isNewest_same _ _ _ Hn Hhead) as Hsame.
  unfold ageOf in *. lia.
Qed.

Lemma user_test_fresh :
  fresh w (userBucket userId w) -> shouldGenerate w (userBucket userId w) = false.
Proof.
  intros [Hlen (n & Hn & Hage)]. unfold shouldGenerate.
  destruct (userBucket userId w) as [|latest rest] eqn:E; [simpl in Hlen; lia|].
  pose proof (findSorted_head_newest _ _ _ _ _ E) as Hhead.
  fold (userBucket userId w) in Hhead. rewrite E in Hhead.
  pose proof (isNewest_same _ _ _ Hn Hhead) as Hsame.
  assert (Hold : olderThanADay w latest = false)
    by (apply olderThanADay_false; unfold ageOf in *; lia).
  rewrite Hold. apply Nat.ltb_ge in Hlen. rewrite Hlen. reflexivity.
Qed.

End Policy.

(** ** The two handlers, by case *)

Section Handlers.

Variable env : Env.
Variable userId : string.
Variable w : World.

Hypothesis Hvalid : objectIdIsValid env userId = true.

Lemma business_regenerates user profile :
  findUser userId w = Some user ->
  stale w (businessBucket userId w) ->
  findProfile userId w = Some profile ->
  getOrGenerateSuggestions env userId w
  = regenerate env ContentSuggestion userId businessProfile
      (businessGeneration env profile) (businessEvicted userId w).
Proof.
  intros Hu Hs Hp. unfold getOrGenerateSuggestions.
  rewrite Hvalid, Hu. cbn [negb].
  rewrite (business_test_stale userId w Hs).
  change (findProfile userId (businessEvicted userId w)) with (findProfile userId w).
  rewrite Hp. reflexivity.
Qed.

Lemma business_serves user :
  findUser userId w = Some user ->
  allFresh w (businessBucket userId w) ->
  getOrGenerateSuggestions env userId w = (Json 200 (businessBucket userId w), w).
Proof.
  intros Hu Hf. unfold getOrGenerateSuggestions.
  rewrite Hvalid, Hu. cbn [negb].
  rewrite (business_test_allFresh userId w Hf). reflexivity.
Qed.

Hypothesis Hgiven : userId <> EmptyString.

Lemma user_regenerates user profile :
  findUser userId w = Some user ->
  instagramConnected user = true -> truthy (instagramAccessToken user) = true ->
  stale w (userBucket userId w) ->
  findProfile userId w = Some profile ->
  getOrGenerateUserSuggestions env userId w
  = regenerate env InstagramContentSuggestion userId userProfile
      (userGeneration env userId profile user) (userEvicted userId w).
Proof.
  intros Hu Hc Ht Hs Hp. unfold getOrGenerateUserSuggestions.
  apply String.eqb_neq in Hgiven. rewrite Hgiven, Hvalid, Hu, Hc, Ht. cbn [negb orb].
  rewrite (user_test_stale userId w Hs).
  change (findProfile userId (userEvicted userId w)) with (findProfile userId w).
  rewrite Hp. reflexivity.
Qed.

Lemma user_serves user :
  findUser userId w = Some user ->
  instagramConnected user = true -> truthy (instagramAccessToken user) = true ->
  fresh w (userBucket userId w) ->
  getOrGenerateUserSuggestions env userId w = (Json 200 (userBucket userId w), w).
Proof.
  intros Hu Hc Ht Hf. unfold getOrGenerateUserSuggestions.
  apply String.eqb_neq in Hgiven. rewrite Hgiven, Hvalid, Hu, Hc, Ht. cbn [negb orb].
  rewrite (user_test_fresh userId w Hf). reflexivity.
Qed.

End Handlers.

(** ** Eviction and regeneration *)

Section Regeneration.

Variable env : Env.

Lemma Stable_generation_phase P (generate : Async (list Suggestion)) :
  Ignores P -> Stable P generate ->
  Stable P (bind (callWithBackoff generate 3 1000%Z)
                 (fun generated => forEach (materializeImage env) generated)).
Proof.
  intros HI Hg. apply Stable_bind.
  - apply Stable_callWithBackoff; assumption.
  - intros generated. apply Stable_forEach. intros item.
    apply Stable_materializeImage. exact HI.
Qed.

(** The trace of a regeneration extends the trace it starts from. *)
Lemma regenerate_trace c userId source generate w1 :
  (forall t0, Stable (fun x => exists later, trace x = t0 ++ later) generate) ->
  exists later, trace (snd (regenerate env c userId source generate w1)) = trace w1 ++ later.
Proof.
  intros Hg.
  pose proof (Stable_generation_phase _ generate (Ignores_trace (trace w1)) (Hg (trace w1)) w1) as H.
  specialize (H (ex_intro _ [] (eq_sym (app_nil_r _)))).
  unfold regenerate.
  destruct (bind _ _ w1) as [[items|e] w2]; simpl in H |- *; [|exact H].
  destruct H as (later & E). exists (later ++ [EvInsertMany c (length (newDocs env userId source (now w2) (idCalls (calls w2)) items))]).
  destruct c; simpl; rewrite E, app_assoc; reflexivity.
Qed.

Lemma generation_trace profile userId token count update t0 :
  Stable (fun x => exists later, trace x = t0 ++ later)
         (generateContentFromProfile env profile userId token count update).
Proof.
  apply Stable_generateContentFromProfile; [apply Ignores_trace|].
  intros l x H. exact H.
Qed.

Lemma generation_stores profile userId token count update cs igs retries delay :
  Stable (fun x => contentSuggestions x = cs /\ instagramContentSuggestions x = igs)
         (callWithBackoff (generateContentFromProfile env profile userId token count update)
                          retries delay).
Proof.
  apply Stable_callWithBackoff; [apply Ignores_stores|].
  apply Stable_generateContentFromProfile; [apply Ignores_stores|].
  intros l x H. exact H.
Qed.

Lemma businessBucket_evicted userId w x :
  contentSuggestions x = contentSuggestions (businessEvicted userId w) ->
  businessBucket userId x = [].
Proof.
  intros E. unfold businessBucket, findSorted. simpl. rewrite E. simpl.
  rewrite filter_filter_negb. reflexivity.
Qed.

Lemma userBucket_evicted userId w x :
  instagramContentSuggestions x = instagramContentSuggestions (userEvicted userId w) ->
  userBucket userId x = [].
Proof.
  intros E. unfold userBucket, findSorted. simpl. rewrite E. simpl.
  rewrite filter_filter_negb. reflexivity.
Qed.

(** The first text-completion call of the profile-only generation fails
    with an error that is not a rate limit. *)
Lemma businessGeneration_chat_failed profile w e retries delay :
  chatCompletion env (chatCalls (calls w)) (profileOnlyPrompt profile 3) = ChatFailed e ->
  isRateLimit e = false ->
  callWithBackoff (businessGeneration env profile) retries delay w
  = (Thrown e, log (EvChatCompletion (profileOnlyPrompt profile 3)) (bumpChat w)).
Proof.
  intros Hc He. apply callWithBackoff_other; [|exact He].
  unfold businessGeneration, generateContentFromProfile,
    generateContentBasedOnProfileOnly, completeAndParse, bind, requestCompletion.
  rewrite Hc. reflexivity.
Qed.

Lemma business_aborts userId w user profile e w2 :
  objectIdIsValid env userId = true ->
  findUser userId w = Some user ->
  stale w (businessBucket userId w) ->
  findProfile userId w = Some profile ->
  callWithBackoff (businessGeneration env profile) 3 1000%Z (businessEvicted userId w)
  = (Thrown e, w2) ->
  getOrGenerateSuggestions env userId w = (Next e, w2)
  /\ businessBucket userId w2 = []
  /\ contentSuggestions w2
     = filter (fun d => negb (byUser userId d)) (contentSuggestions w).
Proof.
  intros Hvalid Hu Hs Hp Hthrown.
  pose proof (generation_stores profile None None 3%Z false _ _ 3 1000%Z
                (businessEvicted userId w) (conj eq_refl eq_refl)) as [Hcs _].
  fold (businessGeneration env profile) in Hcs. rewrite Hthrown in Hcs. simpl in Hcs.
  rewrite (business_regenerates env userId w Hvalid user profile Hu Hs Hp).
  split; [apply regenerate_thrown; exact Hthrown|].
  split; [apply (businessBucket_evicted userId w); exact Hcs | exact Hcs].
Qed.

Lemma user_aborts userId w user profile e w2 :
  userId <> EmptyString ->
  objectIdIsValid env userId = true ->
  findUser userId w = Some user ->
  instagramConnected user = true ->
  truthy (instagramAccessToken user) = true ->
  stale w (userBucket userId w) ->
  findProfile userId w = Some profile ->
  callWithBackoff (userGeneration env userId profile user) 3 1000%Z (userEvicted userId w)
  = (Thrown e, w2) ->
  getOrGenerateUserSuggestions env userId w = (Next e, w2)
  /\ userBucket userId w2 = []
  /\ instagramContentSuggestions w2
     = filter (fun d => negb (byUserProfile userId d)) (instagramContentSuggestions w).
Proof.
  intros Hgiven Hvalid Hu Hc Ht Hs Hp Hthrown.
  pose proof (generation_stores profile (Some userId) (instagramAccessToken user)
                3%Z true _ _ 3 1000%Z
                (userEvicted userId w) (conj eq_refl eq_refl)) as [_ Higs].
  fold (userGeneration env userId profile user) in Higs.
  rewrite Hthrown in Higs. simpl in Higs.
  rewrite (user_regenerates env userId w Hvalid Hgiven user profile Hu Hc Ht Hs Hp).
  split; [apply regenerate_thrown; exact Hthrown|].
  split; [apply (userBucket_evicted userId w); exact Higs | exact Higs].
Qed.

End Regeneration.

(** C5.  In a regeneration the first thing the handler does is to delete
    the bucket: every event of the request, the text-completion call
    among them, comes after the deletion.  When the wrapped generation
    then throws, the handler passes the error on, inserts nothing and
    restores nothing: the stored bucket is empty, the collection is the
    one the deletion left, and the next request finds the bucket stale.
    In particular, when the text-completion call of the profile-only
    generation fails with an error that is not a rate limit, the request
    consists of the deletion followed by that call. *)
Theorem eviction_before_regeneration (env : Env) (userId : string) (w : World) :
  (forall user profile,
      objectIdIsValid env userId = true ->
      findUser userId w = Some user ->
      stale w (businessBucket userId w) ->
      findProfile userId w = Some profile ->
      let run := getOrGenerateSuggestions env userId w in
      (exists later,
          trace (snd run) = trace w ++ EvDeleteMany ContentSuggestion userId :: later)
      /\ (forall e w2,
            callWithBackoff (businessGeneration env profile) 3 1000%Z
              (businessEvicted userId w) = (Thrown e, w2) ->
            run = (Next e, w2)
            /\ businessBucket userId w2 = []
            /\ contentSuggestions w2
               = filter (fun d => negb (byUser userId d)) (contentSuggestions w)
            /\ stale w2 (businessBucket userId w2))
      /\ (forall e,
            chatCompletion env (chatCalls (calls w)) (profileOnlyPrompt profile 3)
            = ChatFailed e ->
            isRateLimit e = false ->
            fst run = Next e
            /\ trace (snd run)
               = trace w ++ [EvDeleteMany ContentSuggestion userId;
                             EvChatCompletion (profileOnlyPrompt profile 3)]
            /\ businessBucket userId (snd run) = []))
  /\
  (forall user profile,
      userId <> EmptyString ->
      objectIdIsValid env userId = true ->
      findUser userId w = Some user ->
      instagramConnected user = true ->
      truthy (instagramAccessToken user) = true ->
      stale w (userBucket userId w) ->
      findProfile userId w = Some profile ->
      let run := getOrGenerateUserSuggestions env userId w in
      (exists later,
          trace (snd run) = trace w ++ EvDeleteMany InstagramContentSuggestion userId :: later)
      /\ (forall e w2,
            callWithBackoff (userGeneration env userId profile user) 3 1000%Z
              (userEvicted userId w) = (Thrown e, w2) ->
            run = (Next e, w2)
            /\ userBucket userId w2 = []
            /\ instagramContentSuggestions w2
               = filter (fun d => negb (byUserProfile userId d))
                        (instagramContentSuggestions w)
            /\ stale w2 (userBucket userId w2))).
Proof.
  split.
  - intros user profile Hvalid Hu Hs Hp run.
    assert (Hrun : run = regenerate env ContentSuggestion userId businessProfile
                           (businessGeneration env profile) (businessEvicted userId w))
      by (apply (business_regenerates env userId w Hvalid user profile); assumption).
    split; [|split].
    + rewrite Hrun.
      destruct (regenerate_trace env ContentSuggestion userId businessProfile
                  (businessGeneration env profile) (businessEvicted userId w)
                  (generation_trace env profile None None 3%Z false))
        as (later & E).
      exists later. rewrite E. simpl. rewrite <- app_assoc. reflexivity.
    + intros e w2 Hthrown.
      destruct (business_aborts env userId w user profile e w2 Hvalid Hu Hs Hp Hthrown)
        as (H1 & H2 & H3).
      split; [exact H1|]. split; [exact H2|]. split; [exact H3|].
      left. rewrite H2. simpl. lia.
    + intros e Hc He.
      pose proof (businessGeneration_chat_failed env profile (businessEvicted userId w)
                    e 3 1000%Z Hc He) as Hthrown.
      rewrite Hrun, (regenerate_thrown env _ _ _ _ _ _ _ Hthrown).
      split; [reflexivity|]. split.
      * simpl. rewrite <- app_assoc. reflexivity.
      * apply (businessBucket_evicted userId w). reflexivity.
  - intros user profile Hgiven Hvalid Hu Hc Ht Hs Hp run.
    assert (Hrun : run = regenerate env InstagramContentSuggestion userId userProfile
                           (userGeneration env userId profile user) (userEvicted userId w))
      by (apply (user_regenerates env userId w Hvalid Hgiven user profile); assumption).
    split.
    + rewrite Hrun.
      destruct (regenerate_trace env InstagramContentSuggestion userId userProfile
                  (userGeneration env userId profile user) (userEvicted userId w)
                  (generation_trace env profile (Some userId) (instagramAccessToken user)
                     3%Z true))
        as (later & E).
      exists later. rewrite E. simpl. rewrite <- app_assoc. reflexivity.
    + intros e w2 Hthrown.
      destruct (user_aborts env userId w user profile e w2 Hgiven Hvalid Hu Hc Ht Hs Hp
                  Hthrown) as (H1 & H2 & H3).
      split; [exact H1|]. split; [exact H2|]. split; [exact H3|].
      left. rewrite H2. simpl. lia.
Qed.

(** A stale bucket and a text service that fails with a server error. *)
Lemma eviction_before_regeneration_witness :
  fst (getOrGenerateSuggestions Scenario.brokenChatEnv "u1" Scenario.staleWorld)
  = Next Scenario.serverError
  /\ businessBucket "u1"
       (snd (getOrGenerateSuggestions Scenario.brokenChatEnv "u1" Scenario.staleWorld)) = []
  /\ fst (getOrGenerateUserSuggestions Scenario.brokenChatEnv "u1" Scenario.staleWorld)
     = Next Scenario.serverError
  /\ userBucket "u1"
       (snd (getOrGenerateUserSuggestions Scenario.brokenChatEnv "u1" Scenario.staleWorld))
     = [].
Proof.
  pose proof (eviction_before_regeneration Scenario.brokenChatEnv "u1" Scenario.staleWorld)
    as [Hbusiness Huser].
  assert (Hs1 : stale Scenario.staleWorld (businessBucket "u1" Scenario.staleWorld))
    by (left; vm_compute; lia).
  assert (Hs2 : stale Scenario.staleWorld (userBucket "u1" Scenario.staleWorld))
    by (left; vm_compute; lia).
  assert (Hne : "u1" <> EmptyString) by discriminate.
  destruct (Hbusiness Scenario.alice Scenario.bakery eq_refl eq_refl Hs1 eq_refl)
    as (_ & _ & Hchat).
  destruct (Hchat Scenario.serverError eq_refl eq_refl) as (H1 & _ & H2).
  destruct (Huser Scenario.alice Scenario.bakery Hne eq_refl eq_refl eq_refl eq_refl
              Hs2 eq_refl) as (_ & Hthrown).
  destruct (Hthrown Scenario.serverError
              (snd (callWithBackoff
                      (userGeneration Scenario.brokenChatEnv "u1" Scenario.bakery
                         Scenario.alice) 3 1000%Z
                      (userEvicted "u1" Scenario.staleWorld)))
              ltac:(vm_compute; reflexivity)) as (H3 & H4 & _ & _).
  split; [exact H1|]. split; [exact H2|].
  rewrite H3. split; [reflexivity | exact H4].
Defined.

Lemma sortDescBy_same_key {A} (key : A -> Z) (t : Z) (l : list A) :
  (forall x, In x l -> key x = t) -> sortDescBy key l = l.
Proof.
  induction l as [|x r IH]; intros H; simpl; [reflexivity|].
  rewrite IH by (intros y Hy; apply H; right; exact Hy).
  destruct r as [|y r']; simpl; [reflexivity|].
  rewrite (H x (or_introl eq_refl)), (H y (or_intror (or_introl eq_refl))).
  rewrite Z.leb_refl. reflexivity.
Qed.

Lemma filter_all {A} (f : A -> bool) (l : list A) :
  (forall x, In x l -> f x = true) -> filter f l = l.
Proof.
  induction l as [|x r IH]; intros H; simpl; [reflexivity|].
  rewrite (H x (or_introl eq_refl)), IH; [reflexivity|].
  intros y Hy. apply H. right. exact Hy.
Qed.

Section Inserted.

Variable env : Env.

(** A regeneration whose generation returns: the collection it starts
    from, without documents of the bucket, gets the new documents, which
    are then the whole bucket. *)
Lemma regenerate_inserts c sel userId source generate w1 generated w2 :
  (forall cs igs,
      Stable (fun x => contentSuggestions x = cs /\ instagramContentSuggestions x = igs)
             (callWithBackoff generate 3 1000%Z)) ->
  filter sel (collection c w1) = [] ->
  (forall d, doc_userId d = userId -> doc_source d = source -> sel d = true) ->
  callWithBackoff generate 3 1000%Z w1 = (Returned generated, w2) ->
  exists saved w3,
    regenerate env c userId source generate w1 = (Json 200 saved, w3)
    /\ map (fun d => fields (doc_item d)) saved = map fields generated
    /\ length saved = length generated
    /\ Forall atMostOneImage saved
    /\ (forall d, In d saved ->
          doc_userId d = userId /\ doc_source d = source /\ doc_refreshed d = false)
    /\ collection c w3 = collection c w1 ++ saved
    /\ findSorted c sel w3 = saved.
Proof.
  intros Hstable Hempty Hsel Hgen.
  destruct (regenerate_returned env c userId source generate w1 generated w2 Hgen)
    as (items & w2' & Hloop & Hfields & Hone & Hrun).
  assert (Hcoll : collection c w2' = collection c w1).
  { pose proof (Hstable _ _ w1 (conj eq_refl eq_refl)) as H2. rewrite Hgen in H2.
    simpl in H2.
    pose proof (Stable_forEach _ (materializeImage env) generated
                  (fun item => Stable_materializeImage env _ (Ignores_stores _ _) item)
                  w2 (conj eq_refl eq_refl)) as H3.
    rewrite Hloop in H3. simpl in H3.
    destruct H2 as [A1 A2], H3 as [B1 B2]. destruct c; simpl; congruence. }
  set (saved := newDocs env userId source (now w2') (idCalls (calls w2')) items).
  assert (Hsaved : fst (insertMany env c userId source items w2') = saved) by reflexivity.
  assert (Hfinal : collection c (snd (insertMany env c userId source items w2'))
                   = collection c w1 ++ saved).
  { unfold insertMany. fold saved. rewrite <- Hcoll. destruct c; reflexivity. }
  exists saved, (snd (insertMany env c userId source items w2')).
  rewrite Hrun, Hsaved.
  assert (Hmeta := newDocs_meta env userId source (now w2') items (idCalls (calls w2'))).
  fold saved in Hmeta.
  split; [reflexivity|]. split.
  { rewrite <- Hfields. unfold saved.
    rewrite <- (newDocs_items env userId source (now w2') items (idCalls (calls w2'))) at 2.
    rewrite map_map. reflexivity. }
  split.
  { unfold saved. rewrite newDocs_length.
    rewrite <- (length_map fields items), Hfields, length_map. reflexivity. }
  split.
  { apply Forall_forall. intros d Hd. unfold atMostOneImage.
    rewrite Forall_forall in Hone. apply Hone.
    rewrite <- (newDocs_items env userId source (now w2') items (idCalls (calls w2'))).
    apply in_map. exact Hd. }
  split; [intros d Hd; destruct (Hmeta d Hd) as (A & B & C & _); auto|].
  split; [exact Hfinal|].
  unfold findSorted. rewrite Hfinal, filter_app, Hempty. simpl.
  rewrite filter_all by (intros d Hd; destruct (Hmeta d Hd) as (A & B & _); auto).
  apply (sortDescBy_same_key doc_createdAt (now w2')).
  intros d Hd. apply (Hmeta d Hd).
Qed.

End Inserted.

Section Refill.

Variable env : Env.
Variable userId : string.
Variable w : World.
Hypothesis Hvalid : objectIdIsValid env userId = true.

Lemma business_inserts user profile generated w2 :
  findUser userId w = Some user ->
  stale w (businessBucket userId w) ->
  findProfile userId w = Some profile ->
  callWithBackoff (businessGeneration env profile) 3 1000%Z (businessEvicted userId w)
  = (Returned generated, w2) ->
  exists saved w3,
    getOrGenerateSuggestions env userId w = (Json 200 saved, w3)
    /\ map (fun d => fields (doc_item d)) saved = map fields generated
    /\ length saved = length generated
    /\ (forall d, In d saved ->
          doc_userId d = userId /\ doc_source d = businessProfile
          /\ doc_refreshed d = false)
    /\ contentSuggestions w3
       = filter (fun d => negb (byUser userId d)) (contentSuggestions w) ++ saved
    /\ businessBucket userId w3 = saved.
Proof.
  intros Hu Hs Hp Hgen.
  rewrite (business_regenerates env userId w Hvalid user profile Hu Hs Hp).
  destruct (regenerate_inserts env ContentSuggestion (byUser userId) userId
              businessProfile (businessGeneration env profile)
              (businessEvicted userId w) generated w2)
    as (saved & w3 & Hrun & Hfields & Hlen & _ & Hmeta & Hcoll & Hbucket).
  - intros cs igs. apply generation_stores.
  - apply filter_filter_negb.
  - intros d Hd _. unfold byUser. rewrite Hd. apply String.eqb_refl.
  - exact Hgen.
  - exists saved, w3. split; [exact Hrun|]. split; [exact Hfields|].
    split; [exact Hlen|]. split; [exact Hmeta|]. split; [exact Hcoll | exact Hbucket].
Qed.

Hypothesis Hgiven : userId <> EmptyString.

Lemma user_inserts user profile generated w2 :
  findUser userId w = Some user ->
  instagramConnected user = true ->
  truthy (instagramAccessToken user) = true ->
  stale w (userBucket userId w) ->
  findProfile userId w = Some profile ->
  callWithBackoff (userGeneration env userId profile user) 3 1000%Z
    (userEvicted userId w) = (Returned generated, w2) ->
  exists saved w3,
    getOrGenerateUserSuggestions env userId w = (Json 200 saved, w3)
    /\ map (fun d => fields (doc_item d)) saved = map fields generated
    /\ length saved = length generated
    /\ (forall d, In d saved ->
          doc_userId d = userId /\ doc_source d = userProfile
          /\ doc_refreshed d = false)
    /\ instagramContentSuggestions w3
       = filter (fun d => negb (byUserProfile userId d)) (instagramContentSuggestions w)
         ++ saved
    /\ userBucket userId w3 = saved.
Proof.
  intros Hu Hc Ht Hs Hp Hgen.
  rewrite (user_regenerates env userId w Hvalid Hgiven user profile Hu Hc Ht Hs Hp).
  destruct (regenerate_inserts env InstagramContentSuggestion (byUserProfile userId)
              userId userProfile (userGeneration env userId profile user)
              (userEvicted userId w) generated w2)
    as (saved & w3 & Hrun & Hfields & Hlen & _ & Hmeta & Hcoll & Hbucket).
  - intros cs igs. apply generation_stores.
  - apply filter_filter_negb.
  - intros d Hd Hsrc. unfold byUserProfile. rewrite Hd, Hsrc, String.eqb_refl. reflexivity.
  - exact Hgen.
  - exists saved, w3. split; [exact Hrun|]. split; [exact Hfields|].
    split; [exact Hlen|]. split; [exact Hmeta|]. split; [exact Hcoll | exact Hbucket].
Qed.

End Refill.

(** C1, as the code has it.  A bucket of at least three suggestions none
    of which is older than 24 hours is returned as stored, and the world
    is left as it was: no external call, no write (for the bucket of
    [getOrGenerateUserSuggestions] it is enough that the newest item is
    no older than 24 hours).  A bucket of fewer than three suggestions,
    or whose newest item is older than 24 hours, is deleted; then, when
    the profile exists and the generation returns, the handler stores and
    returns one new document for each item that the generation returned:
    three are requested, the number returned is not checked. *)
Theorem staleness_contract (env : Env) (userId : string) (w : World) :
  (forall user,
      objectIdIsValid env userId = true ->
      findUser userId w = Some user ->
      allFresh w (businessBucket userId w) ->
      getOrGenerateSuggestions env userId w = (Json 200 (businessBucket userId w), w))
  /\
  (forall user,
      userId <> EmptyString ->
      objectIdIsValid env userId = true ->
      findUser userId w = Some user ->
      instagramConnected user = true ->
      truthy (instagramAccessToken user) = true ->
      fresh w (userBucket userId w) ->
      getOrGenerateUserSuggestions env userId w = (Json 200 (userBucket userId w), w))
  /\
  (forall user profile generated w2,
      objectIdIsValid env userId = true ->
      findUser userId w = Some user ->
      stale w (businessBucket userId w) ->
      findProfile userId w = Some profile ->
      callWithBackoff (businessGeneration env profile) 3 1000%Z (businessEvicted userId w)
      = (Returned generated, w2) ->
      exists saved w3,
        getOrGenerateSuggestions env userId w = (Json 200 saved, w3)
        /\ map (fun d => fields (doc_item d)) saved = map fields generated
        /\ length saved = length generated
        /\ (forall d, In d saved ->
              doc_userId d = userId /\ doc_source d = businessProfile
              /\ doc_refreshed d = false)
        /\ contentSuggestions w3
           = filter (fun d => negb (byUser userId d)) (contentSuggestions w) ++ saved
        /\ businessBucket userId w3 = saved)
  /\
  (forall user profile generated w2,
      userId <> EmptyString ->
      objectIdIsValid env userId = true ->
      findUser userId w = Some user ->
      instagramConnected user = true ->
      truthy (instagramAccessToken user) = true ->
      stale w (userBucket userId w) ->
      findProfile userId w = Some profile ->
      callWithBackoff (userGeneration env userId profile user) 3 1000%Z
        (userEvicted userId w) = (Returned generated, w2) ->
      exists saved w3,
        getOrGenerateUserSuggestions env userId w = (Json 200 saved, w3)
        /\ map (fun d => fields (doc_item d)) saved = map fields generated
        /\ length saved = length generated
        /\ (forall d, In d saved ->
              doc_userId d = userId /\ doc_source d = userProfile
              /\ doc_refreshed d = false)
        /\ instagramContentSuggestions w3
           = filter (fun d => negb (byUserProfile userId d)) (instagramContentSuggestions w)
             ++ saved
        /\ userBucket userId w3 = saved).
Proof.
  split; [|split; [|split]].
  - intros user Hvalid Hu Hf. apply (business_serves env userId w Hvalid user); assumption.
  - intros user Hgiven Hvalid Hu Hc Ht Hf.
    apply (user_serves env userId w Hvalid Hgiven user); assumption.
  - intros user profile generated w2 Hvalid Hu Hs Hp Hgen.
    apply (business_inserts env userId w Hvalid user profile generated w2); assumption.
  - intros user profile generated w2 Hgiven Hvalid Hu Hc Ht Hs Hp Hgen.
    apply (user_inserts env userId w Hvalid Hgiven user profile generated w2); assumption.
Qed.

(** Fresh buckets served from the cache, and stale buckets regenerated
    from a text service that returns two suggestions. *)
Lemma staleness_contract_witness :
  getOrGenerateSuggestions Scenario.quietEnv "u1" Scenario.freshWorld
  = (Json 200 (businessBucket "u1" Scenario.freshWorld), Scenario.freshWorld)
  /\ getOrGenerateUserSuggestions Scenario.quietEnv "u1" Scenario.freshWorld
     = (Json 200 (userBucket "u1" Scenario.freshWorld), Scenario.freshWorld)
  /\ (exists saved w3,
        getOrGenerateSuggestions Scenario.twoIdeasEnv "u1" Scenario.staleWorld
        = (Json 200 saved, w3)
        /\ length saved = 2 /\ businessBucket "u1" w3 = saved)
  /\ (exists saved w3,
        getOrGenerateUserSuggestions Scenario.twoIdeasEnv "u1" Scenario.staleWorld
        = (Json 200 saved, w3)
        /\ length saved = 2 /\ userBucket "u1" w3 = saved).
Proof.
  assert (Hne : "u1" <> EmptyString) by discriminate.
  pose proof (staleness_contract Scenario.quietEnv "u1" Scenario.freshWorld)
    as (Hserve1 & Hserve2 & _ & _).
  pose proof (staleness_contract Scenario.twoIdeasEnv "u1" Scenario.staleWorld)
    as (_ & _ & Hregen1 & Hregen2).
  split; [|split; [|split]].
  - apply (Hserve1 Scenario.alice eq_refl eq_refl). split; [vm_compute; lia|].
    intros d Hd. vm_compute in Hd.
    destruct Hd as [<- | [<- | [<- | []]]]; vm_compute; discriminate.
  - apply (Hserve2 Scenario.alice Hne eq_refl eq_refl eq_refl eq_refl).
    split; [vm_compute; lia|].
    exists (Scenario.storedSuggestion "t1" userProfile 0%Z). split; [split|].
    + vm_compute. left. reflexivity.
    + intros d Hd. vm_compute in Hd.
      destruct Hd as [<- | [<- | [<- | []]]]; vm_compute; discriminate.
    + vm_compute. discriminate.
  - edestruct (Hregen1 Scenario.alice Scenario.bakery) as (saved & w3 & Hrun & _ & Hlen & _ & _ & Hb).
    + reflexivity.
    + reflexivity.
    + left. vm_compute. lia.
    + reflexivity.
    + vm_compute. reflexivity.
    + exists saved, w3. split; [exact Hrun|]. split; [exact Hlen | exact Hb].
  - edestruct (Hregen2 Scenario.alice Scenario.bakery) as (saved & w3 & Hrun & _ & Hlen & _ & _ & Hb).
    + exact Hne.
    + reflexivity.
    + reflexivity.
    + reflexivity.
    + reflexivity.
    + left. vm_compute. lia.
    + reflexivity.
    + vm_compute. reflexivity.
    + exists saved, w3. split; [exact Hrun|]. split; [exact Hlen | exact Hb].
Defined.

(** C1, as the claim words it, fails on a stale bucket when the text
    service returns two suggestions: the bucket is deleted and two new
    items, not three, are stored and returned. *)
Lemma staleness_count_counterexample :
  stale Scenario.staleWorld (businessBucket "u1" Scenario.staleWorld)
  /\ match getOrGenerateSuggestions Scenario.twoIdeasEnv "u1" Scenario.staleWorld with
     | (Json 200 saved, w3) =>
         length saved = 2 /\ length (businessBucket "u1" w3) = 2
         /\ length (contentSuggestions w3) = 2
     | _ => False
     end.
Proof.
  split; [left; vm_compute; lia|].
  vm_compute. repeat split.
Qed.

(** ** Image URLs of the stored suggestions *)

Lemma written_refl l : writtenWithOneImage l l.
Proof. intros d H. left. exact H. Qed.

Lemma written_filter f l : writtenWithOneImage l (filter f l).
Proof. intros d H. left. apply filter_In in H. apply H. Qed.

Lemma written_trans a b c :
  writtenWithOneImage a b -> writtenWithOneImage b c -> writtenWithOneImage a c.
Proof.
  intros H1 H2 d Hd. destruct (H2 d Hd) as [Hb | Hone]; [apply H1; exact Hb | right; exact Hone].
Qed.

Lemma updateFirst_In id f l u l' :
  updateFirst id f l = Some (u, l') ->
  (exists d0, In d0 l /\ u = f d0) /\ forall d, In d l' -> d = u \/ In d l.
Proof.
  revert u l'. induction l as [|x r IH]; intros u l'; simpl; [discriminate|].
  destruct (String.eqb (doc_id x) id).
  - intros H. inversion H; subst. split; [exists x; auto|].
    intros d [<- | Hd]; auto.
  - destruct (updateFirst id f r) as [[u0 r0]|]; [|discriminate].
    intros H. inversion H; subst. destruct (IH u r0 eq_refl) as [(d0 & Hd0 & E) Hin].
    split; [exists d0; auto|].
    intros d [<- | Hd]; [auto|]. destruct (Hin d Hd); auto.
Qed.

Section OneImage.

Variable env : Env.

Lemma collection_stable {T} c (generate : Async T) w :
  (forall cs igs,
      Stable (fun x => contentSuggestions x = cs /\ instagramContentSuggestions x = igs)
             generate) ->
  collection c (snd (generate w)) = collection c w.
Proof.
  intros H. destruct (H _ _ w (conj eq_refl eq_refl)) as [Hcs Higs].
  destruct c; simpl; assumption.
Qed.

Lemma regenerate_written c userId source generate w1 c' :
  (forall cs igs,
      Stable (fun x => contentSuggestions x = cs /\ instagramContentSuggestions x = igs)
             (callWithBackoff generate 3 1000%Z)) ->
  writtenWithOneImage (collection c' w1)
    (collection c' (snd (regenerate env c userId source generate w1))).
Proof.
  intros Hst.
  pose proof (collection_stable c' _ w1 Hst) as Hcall.
  destruct (callWithBackoff generate 3 1000%Z w1) as [[generated|e] w2] eqn:Hgen.
  - destruct (regenerate_returned env c userId source generate w1 generated w2 Hgen)
      as (items & w2' & Hloop & _ & Hone & Hrun).
    rewrite Hrun. simpl in Hcall.
    assert (Hloop' : collection c' w2' = collection c' w2).
    { pose proof (collection_stable c' (forEach (materializeImage env) generated) w2) as H.
      rewrite Hloop in H. apply H. intros cs igs. apply Stable_forEach. intros item.
      apply Stable_materializeImage. apply Ignores_stores. }
    intros d Hd.
    assert (Hcases : In d (collection c' w2')
                     \/ In d (newDocs env userId source (now w2') (idCalls (calls w2')) items)).
    { unfold insertMany in Hd. destruct c, c'; simpl in Hd;
        try (left; exact Hd); apply in_app_or in Hd; exact Hd. }
    destruct Hcases as [Hold | Hnew].
    + left. rewrite <- Hcall, <- Hloop'. exact Hold.
    + right. unfold atMostOneImage. rewrite Forall_forall in Hone. apply Hone.
      rewrite <- (newDocs_items env userId source (now w2') items (idCalls (calls w2'))).
      apply in_map. exact Hnew.
  - rewrite (regenerate_thrown env c userId source generate w1 e w2 Hgen).
    simpl in *. rewrite Hcall. apply written_refl.
Qed.

Lemma evicted_written c sel userId w c' :
  writtenWithOneImage (collection c' w) (collection c' (deleteMany c sel userId w)).
Proof.
  destruct c, c'; simpl; try apply written_refl; apply written_filter.
Qed.

Lemma business_written userId w c' :
  writtenWithOneImage (collection c' w)
    (collection c' (snd (getOrGenerateSuggestions env userId w))).
Proof.
  unfold getOrGenerateSuggestions.
  destruct (negb _); [apply written_refl|].
  destruct (findUser userId w); [|apply written_refl].
  destruct (_ || _); [|apply written_refl].
  destruct (findProfile _ _) as [profile|]; [|apply evicted_written].
  eapply written_trans; [apply (evicted_written ContentSuggestion (byUser userId))|].
  apply regenerate_written. intros cs igs. apply generation_stores.
Qed.

Lemma user_written userId w c' :
  writtenWithOneImage (collection c' w)
    (collection c' (snd (getOrGenerateUserSuggestions env userId w))).
Proof.
  unfold getOrGenerateUserSuggestions.
  destruct (String.eqb userId EmptyString); [apply written_refl|].
  destruct (negb _); [apply written_refl|].
  destruct (findUser userId w) as [user|]; [|apply written_refl].
  destruct (_ || _); [apply written_refl|].
  destruct (shouldGenerate _ _); [|apply written_refl].
  destruct (findProfile _ _) as [profile|]; [|apply evicted_written].
  eapply written_trans;
    [apply (evicted_written InstagramContentSuggestion (byUserProfile userId))|].
  apply regenerate_written. intros cs igs. apply generation_stores.
Qed.

Lemma refresh_written suggestionId userId w c' :
  writtenWithOneImage (collection c' w)
    (collection c' (snd (refreshSingleSuggestion env suggestionId userId w))).
Proof.
  unfold refreshSingleSuggestion.
  destruct (negb (objectIdIsValid env userId)); [apply written_refl|].
  destruct (findProfile userId w) as [profile|]; [|apply written_refl].
  pose proof (collection_stable c'
                (callWithBackoff (generateContentFromProfile env profile None None 1 false)
                   3 1000%Z) w
                (fun cs igs => generation_stores env profile None None 1%Z false cs igs 3 1000%Z))
    as Hcall.
  destruct (callWithBackoff _ 3 1000%Z w) as [[[|newContent others]|e] w1];
    simpl in Hcall; simpl; try (rewrite Hcall; apply written_refl).
  destruct (materializeImage_returns env newContent w1)
    as (item' & w2 & Hm & _ & Hone & _).
  pose proof (collection_stable c' (materializeImage env newContent) w1
                (fun cs igs => Stable_materializeImage env _ (Ignores_stores cs igs)
                                 newContent)) as Hmat.
  rewrite Hm in *. simpl in Hmat.
  destruct (negb (objectIdIsValid env suggestionId));
    [simpl; rewrite Hmat, Hcall; apply written_refl|].
  destruct (updateFirst _ _ _) as [[updated l]|] eqn:Hup;
    [|simpl; rewrite Hmat, Hcall; apply written_refl].
  destruct (updateFirst_In _ _ _ _ _ Hup) as [(d0 & _ & Hu) Hin].
  intros d Hd. destruct c'; simpl in Hd.
  - destruct (Hin d Hd) as [-> | Hold].
    + right. rewrite Hu. exact Hone.
    + left. rewrite <- Hcall, <- Hmat. exact Hold.
  - left. rewrite <- Hcall, <- Hmat. exact Hd.
Qed.

End OneImage.

(** C10.  Whatever the three handlers write to the two collections has at
    most one image URL: after [getOrGenerateSuggestions],
    [getOrGenerateUserSuggestions] or [refreshSingleSuggestion], every
    stored document either was stored before the request or has an
    [imageUrls] list of length 0 or 1.  The image service is asked for
    two images of each suggestion, and of the URLs it returns only the
    first is fetched. *)
Theorem persisted_image_urls (env : Env) (userId suggestionId : string) (w : World)
  (c : Collection) :
  writtenWithOneImage (collection c w)
    (collection c (snd (getOrGenerateSuggestions env userId w)))
  /\ writtenWithOneImage (collection c w)
       (collection c (snd (getOrGenerateUserSuggestions env userId w)))
  /\ writtenWithOneImage (collection c w)
       (collection c (snd (refreshSingleSuggestion env suggestionId userId w)))
  /\ (forall profile suggestion,
        let w1 := snd (imagesForSuggestion env profile suggestion w) in
        trace w1 = trace w
        \/ exists prompt, trace w1 = trace w ++ [EvImageGenerate prompt 2 "512x512"])
  /\ (forall members first others,
        fetchesOf (trace (snd (materializeImage env (mkSuggestion members (first :: others)) w)))
        = fetchesOf (trace w)
          ++ (if fileExists (drawnName env w) w then [] else [first])).
Proof.
  split; [apply business_written|].
  split; [apply user_written|].
  split; [apply refresh_written|].
  split.
  - intros profile suggestion. unfold imagesForSuggestion.
    destruct (asObject suggestion) as [o|]; [|left; reflexivity].
    destruct (_ || _); [left; reflexivity|].
    right. eexists. destruct (imagesGenerate env _ _) as [[urls|]|e]; reflexivity.
  - intros members first others.
    unfold materializeImage, tryCatch, bind, downloadImageToUploads. cbn [imageUrls].
    fold (drawnName env w). rewrite fileExists_bumpRandom.
    destruct (fileExists (drawnName env w) w).
    + simpl. rewrite app_nil_r. reflexivity.
    + destruct (httpGetStream env _ first) as [|e|e [|]]; simpl;
        rewrite ?fetchesOf_app; simpl; rewrite ?app_nil_r; reflexivity.
Qed.

(** The documents stored by a regeneration from two suggestions, the
    first of which got two image URLs from the image service. *)
Lemma persisted_image_urls_witness :
  map (fun d => length (imageUrls (doc_item d)))
      (contentSuggestions
         (snd (getOrGenerateSuggestions Scenario.twoIdeasEnv "u1" Scenario.staleWorld)))
  = [1; 0]
  /\ Forall atMostOneImage
       (contentSuggestions
          (snd (getOrGenerateSuggestions Scenario.twoIdeasEnv "u1" Scenario.staleWorld))).
Proof.
  split; [reflexivity|].
  apply Forall_forall. intros d Hd.
  destruct (proj1 (persisted_image_urls Scenario.twoIdeasEnv "u1" "s1"
                     Scenario.staleWorld ContentSuggestion) d Hd) as [Hold | Hone];
    [|exact Hone].
  vm_compute in Hold. destruct Hold as [<- | []]. vm_compute. lia.
Defined.

(** ** Failures of image generation and download *)

Section Degradation.

Variable env : Env.

Lemma imagesForSuggestion_object profile suggestion o w :
  asObject suggestion = Some o ->
  exists urls w1,
    imagesForSuggestion env profile suggestion w
    = (Returned (withImages (coerceContentType o) urls), w1)
    /\ (forall e,
          imagesGenerate env (imageCalls (calls w))
            (imagePromptOf env profile (coerceContentType o)) = ImagesFailed e ->
          urls = []).
Proof.
  intros Ho. unfold imagesForSuggestion. rewrite Ho.
  destruct (_ || _).
  - exists [], w. split; [reflexivity|]. intros; reflexivity.
  - destruct (imagesGenerate env _ _) as [[urls|]|e0] eqn:E.
    + eexists urls, _. split; [reflexivity|]. intros e H. discriminate H.
    + eexists [], _. split; [reflexivity|]. intros; reflexivity.
    + eexists [], _. split; [reflexivity|]. intros; reflexivity.
Qed.



End Degradation.



(** ** Validation of the content type *)

Lemma getField_setField key v o : Json.getField key (Json.setField key v o) = Some v.
Proof.
  induction o as [|[k x] r IH]; simpl.
  - rewrite String.eqb_refl. reflexivity.
  - destruct (String.eqb k key) eqn:E; simpl; rewrite E; [reflexivity | exact IH].
Qed.

Lemma getField_setField_other key key' v o :
  key' <> key -> Json.getField key' (Json.setField key v o) = Json.getField key' o.
Proof.
  intros Hne. induction o as [|[k x] r IH]; simpl.
  - apply String.eqb_neq in Hne. rewrite String.eqb_sym, Hne. reflexivity.
  - destruct (String.eqb k key) eqn:E; simpl.
    + apply String.eqb_eq in E. subst k.
      apply String.eqb_neq in Hne. rewrite String.eqb_sym, Hne. reflexivity.
    + destruct (String.eqb k key'); [reflexivity | exact IH].
Qed.

(** On an item that is an object, the validation keeps a content type of
    the vocabulary, sets any other or missing one to ["Post"], and leaves
    the other members alone; the loop body does not throw. *)
Lemma coercion_on_objects (env : Env) (profile : BusinessProfile) (o : JObject) (w : World) :
  (isValidType (Json.getField "contentType" o) = true -> coerceContentType o = o)
  /\ (isValidType (Json.getField "contentType" o) = false ->
      Json.getField "contentType" (coerceContentType o) = Some (JStr "Post")
      /\ forall key, key <> "contentType" ->
           Json.getField key (coerceContentType o) = Json.getField key o)
  /\ exists urls w1,
       imagesForSuggestion env profile (JObj o) w
       = (Returned (mkSuggestion (storedFields o) urls), w1).
Proof.
  unfold coerceContentType. split; [|split].
  - intros H. rewrite H. reflexivity.
  - intros H. rewrite H. split; [apply getField_setField|].
    intros key Hne. apply getField_setField_other. exact Hne.
  - destruct (imagesForSuggestion_object env profile (JObj o) o w eq_refl)
      as (urls & w1 & E & _).
    exists urls, w1. exact E.
Qed.

(** An item with the content type ["Carousel"] is stored as ["Post"]. *)
Example carousel_is_stored_as_post :
  map (fun d => Json.getField "contentType" (fields (doc_item d)))
      (contentSuggestions
         (snd (getOrGenerateSuggestions Scenario.twoIdeasEnv "u1" Scenario.staleWorld)))
  = [Some (JStr "Post"); Some (JStr "Post")].
Proof. reflexivity. Qed.

(** C8 at the response [[null]]: the response parses to an array of one
    item, the validation reads [contentType] of [null] and throws, and
    the regeneration ends with that error and an empty bucket. *)
Theorem validation_throws_on_null :
  parseSuggestions "[null]" = Returned [JNull]
  /\ (forall env profile w,
        generateImagesForSuggestions env profile [JNull] w
        = (Thrown (typeError "cannot use the suggestion as an object"), w))
  /\ fst (getOrGenerateSuggestions Scenario.nullItemEnv "u1" Scenario.staleWorld)
     = Next (typeError "cannot use the suggestion as an object")
  /\ contentSuggestions
       (snd (getOrGenerateSuggestions Scenario.nullItemEnv "u1" Scenario.staleWorld)) = [].
Proof. repeat split. Qed.

(** The business bucket is tested item by item: with three suggestions of
    which the newest is an hour old and the oldest twenty-five hours old,
    [getOrGenerateSuggestions] regenerates. *)
Example business_bucket_mixed_ages :
  fresh Scenario.mixedWorld (businessBucket "u1" Scenario.mixedWorld)
  /\ trace (snd (getOrGenerateSuggestions Scenario.quietEnv "u1" Scenario.mixedWorld))
     = [EvDeleteMany ContentSuggestion "u1";
        EvChatCompletion (profileOnlyPrompt Scenario.bakery 3);
        EvInsertMany ContentSuggestion 0].
Proof.
  split; [|reflexivity].
  split; [vm_compute; lia|].
  exists (Scenario.storedSuggestion "s1" businessProfile 96400000%Z).
  split; [split|].
  - vm_compute. left. reflexivity.
  - intros d Hd. vm_compute in Hd.
    destruct Hd as [<- | [<- | [<- | []]]]; vm_compute; discriminate.
  - vm_compute. discriminate.
Qed.

(* ------------------------------------------------------------------ *)
(** * Further properties of the code *)
(* ------------------------------------------------------------------ *)

(** ** The retry loops, for any number of retries *)

Lemma backoffDelays_length retries : forall delay,
  length (backoffDelays retries delay) = retries.
Proof. induction retries as [|r IH]; intros delay; simpl; [|rewrite IH]; reflexivity. Qed.

Lemma backoffDelays_total retries : forall delay,
  totalOf (backoffDelays retries delay) = (delay * (2 ^ Z.of_nat retries - 1))%Z.
Proof.
  induction retries as [|r IH]; intros delay.
  - simpl. lia.
  - change (totalOf (backoffDelays (S r) delay))
      with (delay + totalOf (backoffDelays r (delay * 2)))%Z.
    rewrite IH, Nat2Z.inj_succ, Z.pow_succ_r by lia. ring.
Qed.

Lemma sleepsOf_sleep ms w : sleepsOf (trace (sleep ms w)) = sleepsOf (trace w) ++ [ms].
Proof. rewrite trace_sleep, sleepsOf_app. reflexivity. Qed.



(** The pauses of [callWithBackoff], whatever the operation does, as long
    as it does not pause itself: they are the first [k] pauses of the
    schedule for some [k <= retries], and the wrapper throws a rate-limit
    error only once all [retries] pauses were made. *)
Theorem callWithBackoff_pauses (T : Type) (fn : Async T) (retries : nat) (delayMs : Z)
  (w : World) :
  (forall x, sleepsOf (trace (snd (fn x))) = sleepsOf (trace x)) ->
  exists k,
    k <= retries
    /\ sleepsOf (trace (snd (callWithBackoff fn retries delayMs w)))
       = sleepsOf (trace w) ++ firstn k (backoffDelays retries delayMs)
    /\ (forall e, fst (callWithBackoff fn retries delayMs w) = Thrown e ->
                  isRateLimit e = true -> k = retries).
Proof.
  intros Hquiet. revert delayMs w.
  induction retries as [|r IH]; intros delayMs w;
    pose proof (Hquiet w) as Hq; destruct (fn w) as [[v|e] x1] eqn:Hrun; simpl in Hq.
  - exists 0. rewrite (callWithBackoff_returned fn 0 delayMs w v x1 Hrun).
    simpl. rewrite app_nil_r. repeat split; [lia | exact Hq].
  - exists 0. rewrite (callWithBackoff_exhausted fn delayMs w e x1 Hrun).
    simpl. rewrite app_nil_r. repeat split; [lia | exact Hq].
  - exists 0. rewrite (callWithBackoff_returned fn (S r) delayMs w v x1 Hrun).
    simpl. rewrite app_nil_r. repeat split; [lia | exact Hq | discriminate].
  - destruct (isRateLimit e) eqn:He.
    + rewrite (callWithBackoff_retry fn r delayMs w e x1 Hrun He).
      destruct (IH (delayMs * 2)%Z (sleep delayMs x1)) as (k & Hk & Hs & Hlast).
      exists (S k). repeat split; [lia | |].
      * rewrite Hs, sleepsOf_sleep, Hq, <- app_assoc. reflexivity.
      * intros e' Hthrown He'. rewrite (Hlast e' Hthrown He'). reflexivity.
    + exists 0. rewrite (callWithBackoff_other fn (S r) delayMs w e x1 Hrun He).
      simpl. rewrite app_nil_r. repeat split; [lia | exact Hq |].
      intros e' E He'. inversion E; subst. congruence.
Qed.

Lemma callWithBackoff_pauses_witness :
  exists k,
    k <= 3
    /\ sleepsOf (trace (snd (callWithBackoff Scenario.alwaysBroken 3 1000%Z
                               Scenario.emptyWorld)))
       = sleepsOf (trace Scenario.emptyWorld) ++ firstn k (backoffDelays 3 1000%Z).
Proof.
  destruct (callWithBackoff_pauses unit Scenario.alwaysBroken 3 1000%Z Scenario.emptyWorld
              (fun x => eq_trans (sleepsOf_app (trace x) [EvChatCompletion "ping"])
                                 (app_nil_r _)))
    as (k & Hk & Hs & _).
  exists k. split; [exact Hk | exact Hs].
Defined.

(** What [callWithBackoff] returns or throws, and the world it leaves, are
    those of one run of the operation, the last one: the wrapper wraps no
    error and does nothing after that run.  Without retries it is the
    operation itself. *)
Theorem callWithBackoff_last_run (T : Type) (fn : Async T) (retries : nat) (delayMs : Z)
  (w : World) :
  (exists w0, callWithBackoff fn retries delayMs w = fn w0)
  /\ callWithBackoff fn 0 delayMs w = fn w.
Proof.
  split.
  - revert delayMs w. induction retries as [|r IH]; intros delayMs w.
    + exists w. simpl. destruct (fn w) as [[v|e] x1]; [reflexivity|].
      destruct (isRateLimit e); reflexivity.
    + destruct (fn w) as [[v|e] x1] eqn:Hrun.
      * exists w. rewrite Hrun. apply callWithBackoff_returned. exact Hrun.
      * destruct (isRateLimit e) eqn:He.
        -- rewrite (callWithBackoff_retry fn r delayMs w e x1 Hrun He). apply IH.
        -- exists w. rewrite Hrun. apply callWithBackoff_other; assumption.
  - simpl. destruct (fn w) as [[v|e] x1]; [reflexivity|].
    destruct (isRateLimit e); reflexivity.
Qed.

(** [generateImageWithBackoff] of the chat controller retries as
    [callWithBackoff] does, and turns every failure into [null]: it is
    [callWithBackoff] on the image request, followed by the choice of the
    first URL, inside a [catch] that returns [null].  So it never throws. *)
Theorem generateImageWithBackoff_never_throws
  (client : string -> Async ImageData) (prompt : string) (retries : nat) (delayMs : Z)
  (w : World) :
  generateImageWithBackoff client prompt retries delayMs w
  = tryCatch (bind (callWithBackoff (client prompt) retries delayMs)
                   (fun data => ret (firstUrl data)))
             (fun _ => ret None) w
  /\ exists url w',
       generateImageWithBackoff client prompt retries delayMs w = (Returned url, w').
Proof.
  revert delayMs w. induction retries as [|r IH]; intros delayMs w;
    unfold tryCatch, bind, ret; simpl;
    destruct (client prompt w) as [[data|e] x1]; simpl.
  - split; [reflexivity | eauto].
  - destruct (isRateLimit e); split; try reflexivity; eauto.
  - split; [reflexivity | eauto].
  - destruct (isRateLimit e); [|split; [reflexivity | eauto]].
    destruct (IH (delayMs * 2)%Z (sleep delayMs x1)) as [Heq Hret].
    split; [|exact Hret]. rewrite Heq. reflexivity.
Qed.

(** ** What the handlers leave untouched *)

Section Footprint.

Variable env : Env.
Variable P : World -> Prop.
Hypothesis HL : Lasting P.

Let Hlog := lasting_log P HL.
Let Hcalls := lasting_calls P HL.
Let Hnow := lasting_now P HL.
Let Hposts := lasting_posts P HL.
Let Hwrite := lasting_write P HL.

Lemma Lasting_sleep ms w : P w -> P (sleep ms w).
Proof. intros H. unfold sleep. auto. Qed.

Lemma Lasting_download url : Stable P (downloadImageToUploads env url).
Proof.
  intros w H. unfold downloadImageToUploads, bumpHttp, bumpRandom.
  destruct (fileExists _ _); simpl; [auto|].
  destruct (httpGetStream env _ url) as [|e|e [|]]; simpl; auto 10.
Qed.

Lemma Lasting_materializeImage item : Stable P (materializeImage env item).
Proof.
  unfold materializeImage. destruct (imageUrls item) as [|first others].
  - apply Stable_ret.
  - apply Stable_tryCatch.
    + apply Stable_bind; [apply Lasting_download|]. intros f. apply Stable_ret.
    + intros e. apply Stable_ret.
Qed.

Lemma Lasting_completeAndParse profile prompt :
  Stable P (completeAndParse env profile prompt).
Proof.
  unfold completeAndParse.
  apply Stable_bind.
  { intros w H. unfold requestCompletion, bumpChat.
    destruct (chatCompletion env _ prompt) as [[raw|]|e]; simpl; auto. }
  intros raw. apply Stable_bind; [apply Stable_lift|]. intros suggestions.
  apply Stable_forEach. intros x.
  unfold imagesForSuggestion. destruct (asObject x) as [o|]; [|apply Stable_throw].
  destruct (_ || _); [apply Stable_ret|].
  intros w H. unfold bumpImage.
  destruct (imagesGenerate env _ _) as [[urls|]|e]; simpl; auto.
Qed.

Lemma Lasting_fetch userId token : Stable P (fetchAndStoreInstagramPosts env userId token).
Proof.
  assert (Hstore : forall posts w, P w -> P (storePosts userId posts w)).
  { unfold storePosts. induction posts as [|post r IH]; intros w H; simpl; [exact H|].
    apply IH. unfold storePost.
    destruct (rp_id post) as [id|]; [|exact H].
    destruct (String.eqb id EmptyString); [exact H|].
    destruct (findPost id w); [exact H|].
    unfold createPost. auto. }
  intros w H. unfold fetchAndStoreInstagramPosts, bumpMedia.
  destruct (instagramMedia env _ token) as [[[|post r]|]|e]; simpl; auto.
  apply (Hstore (post :: r)). auto.
Qed.

Lemma Lasting_generation profile userId token count update retries delay :
  Stable P (callWithBackoff
              (generateContentFromProfile env profile userId token count update)
              retries delay).
Proof.
  intros w H. apply callWithBackoff_preserves; [|intros; apply Lasting_sleep|]; try assumption.
  clear w H.
  assert (Hopt : forall u t,
             Stable P (if update then fetchAndStoreInstagramPosts env u t else ret tt)).
  { intros u t. destruct update; [apply Lasting_fetch|apply Stable_ret]. }
  assert (Honly : Stable P (generateContentBasedOnProfileOnly env profile count))
    by apply Lasting_completeAndParse.
  unfold generateContentFromProfile.
  destruct userId as [uid|]; [|exact Honly].
  destruct token as [tok|]; [|exact Honly].
  destruct (_ && _); [|exact Honly].
  apply Stable_bind; [apply Hopt|]. intros _.
  unfold generateContentBasedOnProfileAndInstagram.
  apply Stable_bind; [apply Hopt|]. intros _.
  intros w H. apply Lasting_completeAndParse. exact H.
Qed.

(** The handlers also write to the two suggestion stores. *)
Hypothesis Hsuggestions : forall l w, P w -> P (setContentSuggestions l w).
Hypothesis HinstagramSuggestions :
  forall l w, P w -> P (setInstagramContentSuggestions l w).

Lemma Lasting_setCollection c l w : P w -> P (setCollection c l w).
Proof. intros H. destruct c; simpl; auto. Qed.

Lemma Lasting_regenerate c userId source profile uid token count update w :
  P w ->
  P (snd (regenerate env c userId source
            (generateContentFromProfile env profile uid token count update) w)).
Proof.
  intros H. unfold regenerate, bind.
  pose proof (Lasting_generation profile uid token count update 3 1000%Z w H) as H1.
  destruct (callWithBackoff _ 3 1000%Z w) as [[generated|e] w1]; simpl in H1; [|exact H1].
  pose proof (Stable_forEach P (materializeImage env) generated
                Lasting_materializeImage w1 H1) as H2.
  destruct (forEach _ generated w1) as [[items|e] w2]; simpl in H2; [|exact H2].
  unfold insertMany, bumpIds. simpl. apply Hlog, Hcalls, Lasting_setCollection. exact H2.
Qed.

Lemma Lasting_business userId w :
  P w -> P (snd (getOrGenerateSuggestions env userId w)).
Proof.
  intros H. unfold getOrGenerateSuggestions.
  destruct (negb _); [exact H|].
  destruct (findUser userId w); [|exact H].
  destruct (_ || _); [|exact H].
  assert (H1 : P (businessEvicted userId w)).
  { unfold businessEvicted, deleteMany. apply Hlog, Lasting_setCollection. exact H. }
  destruct (findProfile _ _) as [profile|]; [|exact H1].
  apply Lasting_regenerate. exact H1.
Qed.

Lemma Lasting_user userId w :
  P w -> P (snd (getOrGenerateUserSuggestions env userId w)).
Proof.
  intros H. unfold getOrGenerateUserSuggestions.
  destruct (String.eqb userId EmptyString); [exact H|].
  destruct (negb _); [exact H|].
  destruct (findUser userId w) as [user|]; [|exact H].
  destruct (_ || _); [exact H|].
  destruct (shouldGenerate _ _); [|exact H].
  assert (H1 : P (userEvicted userId w)).
  { unfold userEvicted, deleteMany. apply Hlog, Lasting_setCollection. exact H. }
  destruct (findProfile _ _) as [profile|]; [|exact H1].
  apply Lasting_regenerate. exact H1.
Qed.

Lemma Lasting_refresh suggestionId userId w :
  P w -> P (snd (refreshSingleSuggestion env suggestionId userId w)).
Proof.
  intros H. unfold refreshSingleSuggestion.
  destruct (negb (objectIdIsValid env userId)); [exact H|].
  destruct (findProfile userId w) as [profile|]; [|exact H].
  pose proof (Lasting_generation profile None None 1%Z false 3 1000%Z w H) as H1.
  destruct (callWithBackoff _ 3 1000%Z w) as [[[|newContent others]|e] w1];
    simpl in H1; try exact H1.
  pose proof (Lasting_materializeImage newContent w1 H1) as H2.
  destruct (materializeImage env newContent w1) as [[item'|e] w2]; simpl in H2; [|exact H2].
  destruct (negb (objectIdIsValid env suggestionId)); [exact H2|].
  destruct (updateFirst _ _ _) as [[updated l]|]; [|exact H2].
  simpl. apply Hlog, Hsuggestions. exact H2.
Qed.

End Footprint.

Lemma uploadsGrow_refl w : uploadsGrow w w.
Proof. exists []. symmetry. apply app_nil_r. Qed.

Lemma uploadsGrow_trans a b c : uploadsGrow a b -> uploadsGrow b c -> uploadsGrow a c.
Proof.
  intros (m1 & E1) (m2 & E2). exists (m1 ++ m2). rewrite E2, E1, app_assoc. reflexivity.
Qed.

Lemma Lasting_uploadsGrow w0 : Lasting (uploadsGrow w0).
Proof.
  constructor; intros; try assumption.
  destruct H as (more & Hm). exists (more ++ [f]). simpl. rewrite Hm, app_assoc. reflexivity.
Qed.

Lemma Lasting_untouched w0 : Lasting (untouched w0).
Proof.
  constructor; intros; try assumption.
  destruct H as (Hu & Hb & Hg). repeat split; try assumption.
  apply (lasting_write _ (Lasting_uploadsGrow w0)). exact Hg.
Qed.

(** The three handlers never change a user or a business profile, and
    never remove a file from the upload directory: the files of deleted
    and of replaced suggestions stay there. *)
Theorem handlers_leave_untouched (env : Env) (userId suggestionId : string) (w : World) :
  untouched w (snd (getOrGenerateSuggestions env userId w))
  /\ untouched w (snd (getOrGenerateUserSuggestions env userId w))
  /\ untouched w (snd (refreshSingleSuggestion env suggestionId userId w)).
Proof.
  assert (H0 : untouched w w) by (repeat split; apply uploadsGrow_refl).
  split; [|split].
  - apply Lasting_business; auto using Lasting_untouched.
  - apply Lasting_user; auto using Lasting_untouched.
  - apply Lasting_refresh; auto using Lasting_untouched.
Qed.

(** ** The image URLs of the store name uploaded files *)

Lemma served_mono w w' url :
  uploadsGrow w w' -> servedFromUploads w url -> servedFromUploads w' url.
Proof.
  intros (more & E) (f & Hu & Hf). exists f. split; [exact Hu|].
  unfold fileExists in *. rewrite E, existsb_app, Hf. reflexivity.
Qed.

(** The documents of [docs'] were in [docs] or have served images. *)
Lemma served_step w w' docs docs' :
  imagesServed w docs -> uploadsGrow w w' ->
  (forall d, In d docs' ->
     In d docs \/ forall url, In url (imageUrls (doc_item d)) -> servedFromUploads w' url) ->
  imagesServed w' docs'.
Proof.
  intros H Hg Hstep d url Hd Hurl. destruct (Hstep d Hd) as [Hold | Hnew].
  - apply (served_mono w w' url Hg). exact (H d url Hold Hurl).
  - exact (Hnew url Hurl).
Qed.

Lemma Lasting_kept c w0 :
  Lasting (fun x => collection c x = collection c w0 /\ uploadsGrow w0 x).
Proof.
  constructor; intros; destruct H as [Hc Hg];
    (split; [destruct c; exact Hc|]); try exact Hg.
  apply (lasting_write _ (Lasting_uploadsGrow w0)). exact Hg.
Qed.

Section Served.

Variable env : Env.

Lemma download_stored url w f w1 :
  downloadImageToUploads env url w = (Returned f, w1) -> fileExists f w1 = true.
Proof.
  unfold downloadImageToUploads.
  destruct (fileExists _ (bumpRandom w)) eqn:E.
  - intros H; inversion H; subst. exact E.
  - destruct (httpGetStream env _ url); intros H; inversion H; subst.
    apply fileExists_written.
Qed.

Lemma materialize_served item w item' w1 :
  materializeImage env item w = (Returned item', w1) ->
  forall url, In url (imageUrls item') -> servedFromUploads w1 url.
Proof.
  unfold materializeImage. destruct (imageUrls item) as [|first others] eqn:E.
  - intros H; inversion H; subst. rewrite E. intros url [].
  - unfold tryCatch, bind, ret.
    destruct (downloadImageToUploads env first w) as [[f|e] x1] eqn:D;
      intros H; inversion H; subst; simpl; intros url Hurl; [|destruct Hurl].
    destruct Hurl as [<- | []]. exists f. split; [reflexivity|].
    exact (download_stored first w f w1 D).
Qed.

Lemma forEach_served items : forall w items' w',
  forEach (materializeImage env) items w = (Returned items', w') ->
  forall i url, In i items' -> In url (imageUrls i) -> servedFromUploads w' url.
Proof.
  induction items as [|item r IH]; intros w items' w'; simpl.
  - intros H; inversion H; subst. intros i url [].
  - unfold bind, ret.
    destruct (materializeImage env item w) as [[i1|e] w1] eqn:E1; [|discriminate].
    destruct (forEach (materializeImage env) r w1) as [[r'|e] w2] eqn:E2; [|discriminate].
    intros H; inversion H; subst. intros i url [<- | Hi] Hurl.
    + apply (served_mono w1 w' url); [|exact (materialize_served item w i1 w1 E1 url Hurl)].
      pose proof (Stable_forEach (uploadsGrow w1) (materializeImage env) r
                    (Lasting_materializeImage env _ (Lasting_uploadsGrow w1))
                    w1 (uploadsGrow_refl w1)) as Hg.
      rewrite E2 in Hg. exact Hg.
    + exact (IH w1 r' w' E2 i url Hi Hurl).
Qed.

Lemma regenerate_served c userId source profile uid token count update w c' :
  imagesServed w (collection c' w) ->
  imagesServed
    (snd (regenerate env c userId source
            (generateContentFromProfile env profile uid token count update) w))
    (collection c'
       (snd (regenerate env c userId source
               (generateContentFromProfile env profile uid token count update) w))).
Proof.
  intros H. unfold regenerate, bind.
  pose proof (Lasting_generation env _ (Lasting_kept c' w) profile uid token count update
                3 1000%Z w (conj eq_refl (uploadsGrow_refl w))) as H1.
  destruct (callWithBackoff _ 3 1000%Z w) as [[generated|e] w1]; simpl in H1.
  2:{ destruct H1 as [Hc Hg]. simpl. apply (served_step w w1 (collection c' w)); auto.
      intros d Hd. left. rewrite <- Hc. exact Hd. }
  pose proof (Stable_forEach _ (materializeImage env) generated
                (Lasting_materializeImage env _ (Lasting_kept c' w)) w1 H1) as H2.
  destruct (forEach _ generated w1) as [[items|e] w2] eqn:Hloop; simpl in H2;
    destruct H2 as [Hc Hg].
  2:{ simpl. apply (served_step w w2 (collection c' w)); auto.
      intros d Hd. left. rewrite <- Hc. exact Hd. }
  pose proof (forEach_served generated w1 items w2 Hloop) as Hs.
  unfold insertMany. cbn [snd].
  set (saved := newDocs env userId source (now w2) (idCalls (calls w2)) items).
  apply (served_step w _ (collection c' w)); [exact H | |].
  - destruct Hg as (more & Hm). exists more. rewrite <- Hm. destruct c; reflexivity.
  - intros d Hd.
    assert (Hcases : In d (collection c' w2) \/ In d saved).
    { destruct c, c'; simpl in Hd; try (left; exact Hd); apply in_app_or in Hd; exact Hd. }
    destruct Hcases as [Hold | Hnew]; [left; rewrite <- Hc; exact Hold|].
    right. intros url Hurl.
    assert (Hitem : In (doc_item d) items).
    { rewrite <- (newDocs_items env userId source (now w2) items (idCalls (calls w2))).
      apply in_map. exact Hnew. }
    destruct (Hs (doc_item d) url Hitem Hurl) as (f & Hu & Hf).
    exists f. split; [exact Hu|]. destruct c; exact Hf.
Qed.

Lemma evicted_served c sel userId w c' :
  imagesServed w (collection c' w) ->
  imagesServed (deleteMany c sel userId w) (collection c' (deleteMany c sel userId w)).
Proof.
  intros H. apply (served_step w _ (collection c' w)); [exact H | |].
  - exists []. rewrite app_nil_r. destruct c; reflexivity.
  - intros d Hd. left. destruct c, c'; simpl in Hd; try exact Hd;
      apply filter_In in Hd; apply Hd.
Qed.

End Served.

(** If every image URL of the stored suggestions names a file of the
    upload directory, at the public base URL, it is so again after each
    of the three handlers: what they store are the local URLs of files
    they have written or found, never the URL the image service gave. *)
Theorem stored_images_are_served (env : Env) (userId suggestionId : string)
  (c : Collection) (w : World) :
  imagesServed w (collection c w) ->
  imagesServed (snd (getOrGenerateSuggestions env userId w))
    (collection c (snd (getOrGenerateSuggestions env userId w)))
  /\ imagesServed (snd (getOrGenerateUserSuggestions env userId w))
       (collection c (snd (getOrGenerateUserSuggestions env userId w)))
  /\ imagesServed (snd (refreshSingleSuggestion env suggestionId userId w))
       (collection c (snd (refreshSingleSuggestion env suggestionId userId w))).
Proof.
  intros H. split; [|split].
  - unfold getOrGenerateSuggestions.
    destruct (negb _); [exact H|].
    destruct (findUser userId w); [|exact H].
    destruct (_ || _); [|exact H].
    pose proof (evicted_served ContentSuggestion (byUser userId) userId w c H) as H1.
    destruct (findProfile _ _) as [profile|]; [|exact H1].
    apply regenerate_served. exact H1.
  - unfold getOrGenerateUserSuggestions.
    destruct (String.eqb userId EmptyString); [exact H|].
    destruct (negb _); [exact H|].
    destruct (findUser userId w) as [user|]; [|exact H].
    destruct (_ || _); [exact H|].
    destruct (shouldGenerate _ _); [|exact H].
    pose proof (evicted_served InstagramContentSuggestion (byUserProfile userId) userId w c H)
      as H1.
    destruct (findProfile _ _) as [profile|]; [|exact H1].
    apply regenerate_served. exact H1.
  - unfold refreshSingleSuggestion.
    destruct (negb (objectIdIsValid env userId)); [exact H|].
    destruct (findProfile userId w) as [profile|]; [|exact H].
    pose proof (Lasting_generation env _ (Lasting_kept c w) profile None None 1%Z false
                  3 1000%Z w (conj eq_refl (uploadsGrow_refl w))) as H1.
    assert (Hkeep : forall x, collection c x = collection c w /\ uploadsGrow w x ->
                              imagesServed x (collection c x)).
    { intros x [Hc Hg]. apply (served_step w x (collection c w)); auto.
      intros d Hd. left. rewrite <- Hc. exact Hd. }
    destruct (callWithBackoff _ 3 1000%Z w) as [[[|newContent others]|e] w1];
      simpl in H1; try (apply Hkeep; exact H1).
    pose proof (Lasting_materializeImage env _ (Lasting_kept c w) newContent w1 H1) as H2.
    destruct (materializeImage env newContent w1) as [[item'|e] w2] eqn:Hm; simpl in H2;
      [|apply Hkeep; exact H2].
    destruct (negb (objectIdIsValid env suggestionId)); [apply Hkeep; exact H2|].
    destruct (updateFirst _ _ _) as [[updated l]|] eqn:Hup; [|apply Hkeep; exact H2].
    destruct H2 as [Hc Hg].
    destruct (updateFirst_In _ _ _ _ _ Hup) as [(d0 & _ & Hu) Hin].
    apply (served_step w _ (collection c w)); [exact H | exact Hg |].
    intros d Hd. destruct c; simpl in Hd.
    + destruct (Hin d Hd) as [-> | Hold]; [|left; rewrite <- Hc; exact Hold].
      right. rewrite Hu. simpl. intros url Hurl.
      destruct (materialize_served env newContent w1 item' w2 Hm url Hurl) as (f & E & Hf).
      exists f. split; [exact E | exact Hf].
    + left. rewrite <- Hc. exact Hd.
Qed.

Lemma stored_images_are_served_witness :
  imagesServed Scenario.staleWorld (collection ContentSuggestion Scenario.staleWorld)
  /\ imagesServed
       (snd (getOrGenerateSuggestions Scenario.twoIdeasEnv "u1" Scenario.staleWorld))
       (collection ContentSuggestion
          (snd (getOrGenerateSuggestions Scenario.twoIdeasEnv "u1" Scenario.staleWorld))).
Proof.
  assert (H : imagesServed Scenario.staleWorld
                (collection ContentSuggestion Scenario.staleWorld)).
  { intros d url Hd Hurl. simpl in Hd. destruct Hd as [<- | []]. destruct Hurl. }
  split; [exact H|].
  exact (proj1 (stored_images_are_served Scenario.twoIdeasEnv "u1" "s1"
                  ContentSuggestion Scenario.staleWorld H)).
Defined.

(** ** The two staleness tests, exactly *)

Lemma trace_not_longer (t : list Event) e later : t <> t ++ e :: later.
Proof.
  intros E. apply (f_equal (@length Event)) in E.
  rewrite length_app in E. simpl in E. lia.
Qed.

Section Tests.

Variable env : Env.
Variable userId : string.
Variable w : World.

Lemma business_test_false :
  (length (businessBucket userId w) <? 3)
  || existsb (olderThanADay w) (businessBucket userId w) = false ->
  allFresh w (businessBucket userId w).
Proof.
  intros H. apply orb_false_iff in H. destruct H as [Hlen Hold].
  split; [apply Nat.ltb_ge; exact Hlen|].
  intros d Hd. apply olderThanADay_false.
  destruct (olderThanADay w d) eqn:E; [|reflexivity].
  rewrite <- Hold. symmetry. apply existsb_exists. exists d. split; assumption.
Qed.

Lemma user_test_false :
  shouldGenerate w (userBucket userId w) = false -> fresh w (userBucket userId w).
Proof.
  unfold shouldGenerate.
  destruct (userBucket userId w) as [|latest rest] eqn:E; [discriminate|].
  destruct (olderThanADay w latest) eqn:Hold; [discriminate|].
  destruct (length (latest :: rest) <? 3) eqn:Hlen; [discriminate|]. intros _.
  split; [apply Nat.ltb_ge; exact Hlen|].
  exists latest. split; [|apply olderThanADay_false; exact Hold].
  pose proof (findSorted_head_newest _ _ _ _ _ E) as Hhead.
  fold (userBucket userId w) in Hhead. rewrite E in Hhead. exact Hhead.
Qed.

Hypothesis Hvalid : objectIdIsValid env userId = true.

(** The business handler whenever some item is missing or too old. *)
Lemma business_evicts user :
  findUser userId w = Some user ->
  ~ allFresh w (businessBucket userId w) ->
  getOrGenerateSuggestions env userId w
  = match findProfile userId w with
    | None => (JsonError 404 "No business profile found", businessEvicted userId w)
    | Some profile =>
        regenerate env ContentSuggestion userId businessProfile
          (businessGeneration env profile) (businessEvicted userId w)
    end.
Proof.
  intros Hu Hn. unfold getOrGenerateSuggestions. rewrite Hvalid, Hu. cbn [negb].
  destruct (_ || _) eqn:Htest; [reflexivity|].
  exfalso. apply Hn. apply business_test_false. exact Htest.
Qed.

Lemma user_evicts user :
  userId <> EmptyString ->
  findUser userId w = Some user ->
  instagramConnected user = true -> truthy (instagramAccessToken user) = true ->
  ~ fresh w (userBucket userId w) ->
  getOrGenerateUserSuggestions env userId w
  = match findProfile userId w with
    | None => (JsonError 404 "No business profile found", userEvicted userId w)
    | Some profile =>
        regenerate env InstagramContentSuggestion userId userProfile
          (userGeneration env userId profile user) (userEvicted userId w)
    end.
Proof.
  intros Hgiven Hu Hc Ht Hn. unfold getOrGenerateUserSuggestions.
  apply String.eqb_neq in Hgiven. rewrite Hgiven, Hvalid, Hu, Hc, Ht. cbn [negb orb].
  destruct (shouldGenerate _ _) eqn:Htest; [reflexivity|].
  exfalso. apply Hn. apply user_test_false. exact Htest.
Qed.

Lemma evicted_then_trace c sel source uid token count update :
  exists later,
    trace (snd (match findProfile userId w with
                | None => (JsonError 404 "No business profile found",
                           deleteMany c sel userId w)
                | Some profile =>
                    regenerate env c userId source
                      (generateContentFromProfile env profile uid token count update)
                      (deleteMany c sel userId w)
                end))
    = trace w ++ EvDeleteMany c userId :: later.
Proof.
  destruct (findProfile userId w) as [p|].
  - destruct (regenerate_trace env c userId source
                (generateContentFromProfile env p uid token count update)
                (deleteMany c sel userId w)) as (later & E).
    + intros t0. apply generation_trace.
    + exists later. rewrite E. destruct c; simpl; rewrite <- app_assoc; reflexivity.
  - exists []. destruct c; reflexivity.
Qed.

End Tests.

(** When a handler evicts.  [getOrGenerateSuggestions] deletes the bucket
    exactly when it has fewer than three items or some item, not only the
    newest, is older than 24 hours; [getOrGenerateUserSuggestions] deletes
    it exactly when it has fewer than three items or its newest item is
    older than 24 hours. *)
Theorem eviction_tests_exact (env : Env) (userId : string) (w : World) (user : User) :
  objectIdIsValid env userId = true ->
  findUser userId w = Some user ->
  ((exists later,
       trace (snd (getOrGenerateSuggestions env userId w))
       = trace w ++ EvDeleteMany ContentSuggestion userId :: later)
   <-> ~ allFresh w (businessBucket userId w))
  /\ (userId <> EmptyString ->
      instagramConnected user = true -> truthy (instagramAccessToken user) = true ->
      ((exists later,
           trace (snd (getOrGenerateUserSuggestions env userId w))
           = trace w ++ EvDeleteMany InstagramContentSuggestion userId :: later)
       <-> ~ fresh w (userBucket userId w))).
Proof.
  intros Hvalid Hu. split; [|intros Hgiven Hc Ht]; split.
  - intros (later & E) Hf.
    rewrite (business_serves env userId w Hvalid user Hu Hf) in E.
    exact (trace_not_longer _ _ _ E).
  - intros Hn. rewrite (business_evicts env userId w Hvalid user Hu Hn).
    destruct (findProfile userId w) as [profile|] eqn:Hp.
    + pose proof (evicted_then_trace env userId w ContentSuggestion (byUser userId)
                    businessProfile None None 3%Z false) as H.
      rewrite Hp in H. exact H.
    + exists []. reflexivity.
  - intros (later & E) Hf.
    rewrite (user_serves env userId w Hvalid Hgiven user Hu Hc Ht Hf) in E.
    exact (trace_not_longer _ _ _ E).
  - intros Hn. rewrite (user_evicts env userId w Hvalid user Hgiven Hu Hc Ht Hn).
    destruct (findProfile userId w) as [profile|] eqn:Hp.
    + pose proof (evicted_then_trace env userId w InstagramContentSuggestion
                    (byUserProfile userId) userProfile (Some userId)
                    (instagramAccessToken user) 3%Z true) as H.
      rewrite Hp in H. exact H.
    + exists []. reflexivity.
Qed.

Lemma eviction_tests_exact_witness :
  (exists later,
      trace (snd (getOrGenerateSuggestions Scenario.quietEnv "u1" Scenario.mixedWorld))
      = trace Scenario.mixedWorld ++ EvDeleteMany ContentSuggestion "u1" :: later)
  <-> ~ allFresh Scenario.mixedWorld (businessBucket "u1" Scenario.mixedWorld).
Proof.
  exact (proj1 (eviction_tests_exact Scenario.quietEnv "u1" Scenario.mixedWorld
                  Scenario.alice eq_refl eq_refl)).
Defined.

(** A user without a business profile loses the cached suggestions: when
    the bucket is not fresh, each handler deletes it before it looks for
    the profile, answers 404 and calls no external service. *)
Theorem missing_profile_loses_cache (env : Env) (userId : string) (w : World)
  (user : User) :
  objectIdIsValid env userId = true ->
  findUser userId w = Some user ->
  findProfile userId w = None ->
  (~ allFresh w (businessBucket userId w) ->
   let r := getOrGenerateSuggestions env userId w in
   fst r = JsonError 404 "No business profile found"
   /\ businessBucket userId (snd r) = []
   /\ trace (snd r) = trace w ++ [EvDeleteMany ContentSuggestion userId])
  /\ (userId <> EmptyString ->
      instagramConnected user = true -> truthy (instagramAccessToken user) = true ->
      ~ fresh w (userBucket userId w) ->
      let r := getOrGenerateUserSuggestions env userId w in
      fst r = JsonError 404 "No business profile found"
      /\ userBucket userId (snd r) = []
      /\ trace (snd r) = trace w ++ [EvDeleteMany InstagramContentSuggestion userId]).
Proof.
  intros Hvalid Hu Hp. split.
  - intros Hn. cbv zeta. rewrite (business_evicts env userId w Hvalid user Hu Hn), Hp.
    repeat split. apply (businessBucket_evicted userId w). reflexivity.
  - intros Hgiven Hc Ht Hn. cbv zeta.
    rewrite (user_evicts env userId w Hvalid user Hgiven Hu Hc Ht Hn), Hp.
    repeat split. apply (userBucket_evicted userId w). reflexivity.
Qed.

Lemma missing_profile_loses_cache_witness :
  fst (getOrGenerateSuggestions Scenario.quietEnv "u1" Scenario.noProfileWorld)
  = JsonError 404 "No business profile found"
  /\ businessBucket "u1"
       (snd (getOrGenerateSuggestions Scenario.quietEnv "u1" Scenario.noProfileWorld)) = []
  /\ trace (snd (getOrGenerateSuggestions Scenario.quietEnv "u1" Scenario.noProfileWorld))
     = trace Scenario.noProfileWorld ++ [EvDeleteMany ContentSuggestion "u1"].
Proof.
  assert (Hn : ~ allFresh Scenario.noProfileWorld
                   (businessBucket "u1" Scenario.noProfileWorld)).
  { intros [Hlen _]. vm_compute in Hlen. lia. }
  exact (proj1 (missing_profile_loses_cache Scenario.quietEnv "u1" Scenario.noProfileWorld
                  Scenario.alice eq_refl eq_refl eq_refl) Hn).
Defined.

(** ** A regenerated batch and the requests that follow *)

Lemma Lasting_users (us : list User) : Lasting (fun x => users x = us).
Proof. constructor; intros; assumption. Qed.

Lemma regenerate_stamps env c userId source generate w saved w3 :
  regenerate env c userId source generate w = (Json 200 saved, w3) ->
  forall d, In d saved -> doc_createdAt d = now w3.
Proof.
  unfold regenerate.
  destruct (bind _ _ w) as [[items|e] w2]; [|discriminate].
  unfold insertMany. intros H; inversion H; subst. intros d Hd.
  destruct (newDocs_meta env userId source (now w2) items _ d Hd) as (_ & _ & _ & Ht).
  rewrite Ht. destruct c; reflexivity.
Qed.

Lemma regenerate_json env c userId source generate w saved w3 :
  regenerate env c userId source generate w = (Json 200 saved, w3) ->
  exists generated w2, callWithBackoff generate 3 1000%Z w = (Returned generated, w2).
Proof.
  unfold regenerate, bind.
  destruct (callWithBackoff generate 3 1000%Z w) as [[generated|e] w2]; [eauto|discriminate].
Qed.

(** Once [getOrGenerateSuggestions] has regenerated a bucket, a later
    request, with the users and the store as the regeneration left them,
    is answered with the same batch and changes nothing, as long as the
    batch has at least three items and at most 24 hours have passed; with
    a smaller batch, or after 24 hours, it deletes the bucket again. *)
Theorem regenerated_batch_lives_a_day (env : Env) (userId : string) (w : World)
  (user : User) (saved : list SuggestionDoc) (w3 : World) :
  objectIdIsValid env userId = true ->
  findUser userId w = Some user ->
  ~ allFresh w (businessBucket userId w) ->
  getOrGenerateSuggestions env userId w = (Json 200 saved, w3) ->
  forall w4,
    users w4 = users w3 -> contentSuggestions w4 = contentSuggestions w3 ->
    (3 <= length saved -> (now w4 <= now w3 + dayInMs)%Z ->
     getOrGenerateSuggestions env userId w4 = (Json 200 saved, w4))
    /\ (length saved < 3 \/ (now w3 + dayInMs < now w4)%Z ->
        exists later,
          trace (snd (getOrGenerateSuggestions env userId w4))
          = trace w4 ++ EvDeleteMany ContentSuggestion userId :: later).
Proof.
  intros Hvalid Hu Hn Hrun w4 Husers Hstore.
  assert (Hu3 : users w3 = users w).
  { pose proof (Lasting_business env _ (Lasting_users (users w))
                  (fun l x H => H) (fun l x H => H) userId w eq_refl) as H.
    rewrite Hrun in H. exact H. }
  assert (Hu4 : findUser userId w4 = Some user).
  { unfold findUser in *. rewrite Husers, Hu3. exact Hu. }
  rewrite (business_evicts env userId w Hvalid user Hu Hn) in Hrun.
  destruct (findProfile userId w) as [profile|]; [|discriminate].
  destruct (regenerate_json _ _ _ _ _ _ _ _ Hrun) as (generated & w2 & Hgen).
  destruct (regenerate_inserts env ContentSuggestion (byUser userId) userId
              businessProfile (businessGeneration env profile)
              (businessEvicted userId w) generated w2)
    as (saved' & w3' & Hrun' & _ & _ & _ & _ & _ & Hbucket).
  { intros cs igs. apply generation_stores. }
  { apply filter_filter_negb. }
  { intros d Hd _. unfold byUser. rewrite Hd. apply String.eqb_refl. }
  { exact Hgen. }
  rewrite Hrun in Hrun'. injection Hrun' as Hs Hw. subst saved' w3'.
  assert (Hbucket4 : businessBucket userId w4 = saved).
  { rewrite <- Hbucket. unfold businessBucket, findSorted. simpl. rewrite Hstore.
    reflexivity. }
  pose proof (regenerate_stamps _ _ _ _ _ _ _ _ Hrun) as Hstamp.
  split.
  - intros Hlen Htime.
    rewrite <- Hbucket4 at 1. apply (business_serves env userId w4 Hvalid user Hu4).
    rewrite Hbucket4. split; [exact Hlen|].
    intros d Hd. unfold ageOf. rewrite (Hstamp d Hd). lia.
  - intros Hcase.
    assert (Hn4 : ~ allFresh w4 (businessBucket userId w4)).
    { rewrite Hbucket4. intros [Hlen Hall]. destruct Hcase as [Hshort | Hlate]; [lia|].
      destruct saved as [|d r]; [simpl in Hlen; lia|].
      specialize (Hall d (or_introl eq_refl)). unfold ageOf in Hall.
      rewrite (Hstamp d (or_introl eq_refl)) in Hall. lia. }
    rewrite (business_evicts env userId w4 Hvalid user Hu4 Hn4).
    apply (evicted_then_trace env userId w4 ContentSuggestion (byUser userId)
             businessProfile None None 3%Z false).
Qed.

Lemma regenerated_batch_lives_a_day_witness :
  exists saved w3,
    getOrGenerateSuggestions Scenario.threeIdeasEnv "u1" Scenario.staleWorld
    = (Json 200 saved, w3)
    /\ length saved = 3
    /\ getOrGenerateSuggestions Scenario.threeIdeasEnv "u1" w3 = (Json 200 saved, w3).
Proof.
  assert (Hn : ~ allFresh Scenario.staleWorld (businessBucket "u1" Scenario.staleWorld)).
  { intros [Hlen _]. vm_compute in Hlen. lia. }
  destruct (getOrGenerateSuggestions Scenario.threeIdeasEnv "u1" Scenario.staleWorld)
    as [response w3] eqn:Hrun.
  assert (Hjson : exists saved, response = Json 200 saved /\ length saved = 3).
  { vm_compute in Hrun. injection Hrun as <- _. eexists. split; reflexivity. }
  destruct Hjson as (saved & -> & Hlen).
  exists saved, w3. split; [reflexivity|]. split; [exact Hlen|].
  apply (proj1 (regenerated_batch_lives_a_day Scenario.threeIdeasEnv "u1"
                  Scenario.staleWorld Scenario.alice saved w3 eq_refl eq_refl Hn Hrun
                  w3 eq_refl eq_refl)).
  - rewrite Hlen. apply le_n.
  - unfold dayInMs. lia.
Defined.

(** An answer of the text service without content counts as an empty
    array: [getOrGenerateSuggestions] then answers 200 with an empty list
    and leaves the user's bucket empty, so that the next request
    generates again. *)
Theorem empty_answer_stores_nothing (env : Env) (userId : string) (w : World)
  (user : User) (profile : BusinessProfile) :
  objectIdIsValid env userId = true ->
  findUser userId w = Some user ->
  findProfile userId w = Some profile ->
  ~ allFresh w (businessBucket userId w) ->
  chatCompletion env (chatCalls (calls w)) (profileOnlyPrompt profile 3)
  = ChatContent None ->
  let r := getOrGenerateSuggestions env userId w in
  fst r = Json 200 []
  /\ contentSuggestions (snd r)
     = filter (fun d => negb (byUser userId d)) (contentSuggestions w)
  /\ businessBucket userId (snd r) = []
  /\ ~ allFresh (snd r) (businessBucket userId (snd r)).
Proof.
  intros Hvalid Hu Hp Hn Hc. cbv zeta.
  rewrite (business_evicts env userId w Hvalid user Hu Hn), Hp.
  assert (Hparse : parseSuggestions "[]" = Returned []) by (vm_compute; reflexivity).
  assert (Hgen : callWithBackoff (businessGeneration env profile) 3 1000%Z
                   (businessEvicted userId w)
                 = (Returned [],
                    log (EvChatCompletion (profileOnlyPrompt profile 3))
                        (bumpChat (businessEvicted userId w)))).
  { apply callWithBackoff_returned.
    unfold businessGeneration, generateContentFromProfile,
      generateContentBasedOnProfileOnly, completeAndParse, bind, requestCompletion, lift.
    change (chatCalls (calls (businessEvicted userId w))) with (chatCalls (calls w)).
    rewrite Hc, Hparse. reflexivity. }
  unfold regenerate, bind. rewrite Hgen. cbn [forEach ret insertMany newDocs fst snd].
  assert (Hb : businessBucket userId
                 (log (EvInsertMany ContentSuggestion (length (@nil SuggestionDoc)))
                    (bumpIds (length (@nil SuggestionDoc))
                       (setCollection ContentSuggestion
                          (collection ContentSuggestion
                             (log (EvChatCompletion (profileOnlyPrompt profile 3))
                                (bumpChat (businessEvicted userId w))) ++ [])
                          (log (EvChatCompletion (profileOnlyPrompt profile 3))
                             (bumpChat (businessEvicted userId w)))))) = []).
  { apply (businessBucket_evicted userId w). simpl. apply app_nil_r. }
  split; [reflexivity|]. split; [simpl; apply app_nil_r|]. split; [exact Hb|].
  rewrite Hb. intros [Hlen _]. simpl in Hlen. lia.
Qed.

Lemma empty_answer_stores_nothing_witness :
  fst (getOrGenerateSuggestions Scenario.quietEnv "u1" Scenario.staleWorld) = Json 200 []
  /\ businessBucket "u1"
       (snd (getOrGenerateSuggestions Scenario.quietEnv "u1" Scenario.staleWorld)) = [].
Proof.
  assert (Hn : ~ allFresh Scenario.staleWorld (businessBucket "u1" Scenario.staleWorld)).
  { intros [Hlen _]. vm_compute in Hlen. lia. }
  destruct (empty_answer_stores_nothing Scenario.quietEnv "u1" Scenario.staleWorld
              Scenario.alice Scenario.bakery eq_refl eq_refl eq_refl Hn eq_refl)
    as (H1 & _ & H3 & _).
  split; [exact H1 | exact H3].
Defined.

(** ** Calls to the text service *)

Lemma forEach_keeps {A B} (m : World -> nat) (body : A -> Async B) (xs : list A) :
  (forall x w, m (snd (body x w)) = m w) ->
  forall w, m (snd (forEach body xs w)) = m w.
Proof.
  intros Hb. induction xs as [|x r IH]; intros w; simpl; [reflexivity|].
  unfold bind, ret. specialize (Hb x w).
  destruct (body x w) as [[y|e] w1]; simpl in Hb; [|exact Hb].
  specialize (IH w1). destruct (forEach body r w1) as [[ys|e] w2]; simpl in *; congruence.
Qed.

(** The wrapper runs the operation at least once and at most
    [retries + 1] times: a count that each run raises by at most one,
    and that a pause keeps, is raised by at most [retries + 1]. *)
Lemma callWithBackoff_bounded {T} (m : World -> nat) (fn : Async T) :
  (forall w, m w <= m (snd (fn w)) <= S (m w)) ->
  (forall ms w, m (sleep ms w) = m w) ->
  forall retries delay w,
    m w <= m (snd (callWithBackoff fn retries delay w)) <= m w + S retries.
Proof.
  intros Hfn Hsleep retries.
  induction retries as [|r IH]; intros delay w; simpl;
    specialize (Hfn w); destruct (fn w) as [[v|e] w1]; simpl in *; try lia.
  - destruct (isRateLimit e); simpl; lia.
  - destruct (isRateLimit e); simpl; [|lia].
    specialize (IH (delay * 2)%Z (sleep delay w1)). rewrite Hsleep in IH. lia.
Qed.

(** The world that the wrapper leaves is the one that a run of the
    operation leaves, and a count that no run and no pause lowers is not
    lower at the start of that run. *)
Lemma callWithBackoff_last_step {T} (fn : Async T) (m : World -> nat) :
  (forall w, m w <= m (snd (fn w))) ->
  (forall ms w, m (sleep ms w) = m w) ->
  forall retries delay w,
    exists w0, m w <= m w0 /\ callWithBackoff fn retries delay w = fn w0.
Proof.
  intros Hfn Hsleep retries.
  induction retries as [|r IH]; intros delay w.
  - exists w. split; [lia|]. simpl. destruct (fn w) as [[v|e] x1]; [reflexivity|].
    destruct (isRateLimit e); reflexivity.
  - destruct (fn w) as [[v|e] x1] eqn:Hrun.
    + exists w. split; [lia|]. rewrite Hrun. apply callWithBackoff_returned. exact Hrun.
    + destruct (isRateLimit e) eqn:He.
      * rewrite (callWithBackoff_retry fn r delay w e x1 Hrun He).
        destruct (IH (delay * 2)%Z (sleep delay x1)) as (w0 & Hle & E).
        exists w0. split; [|exact E]. rewrite Hsleep in Hle.
        specialize (Hfn w). rewrite Hrun in Hfn. simpl in Hfn. lia.
      * exists w. split; [lia|]. rewrite Hrun. apply callWithBackoff_other; assumption.
Qed.

Section Accounting.

Variable env : Env.

Let chats (w : World) : nat := chatCalls (calls w).

Lemma imagesForSuggestion_chats profile x w :
  chats (snd (imagesForSuggestion env profile x w)) = chats w.
Proof.
  unfold imagesForSuggestion. destruct (asObject x) as [o|]; [|reflexivity].
  destruct (_ || _); [reflexivity|].
  destruct (imagesGenerate env _ _) as [[urls|]|e]; reflexivity.
Qed.

Lemma materializeImage_chats item w :
  chats (snd (materializeImage env item w)) = chats w.
Proof.
  unfold materializeImage. destruct (imageUrls item) as [|first others]; [reflexivity|].
  unfold tryCatch, bind, ret, downloadImageToUploads.
  destruct (fileExists _ _); [reflexivity|].
  destruct (httpGetStream env _ first) as [|e|e [|]]; reflexivity.
Qed.

Lemma completeAndParse_chats profile prompt w :
  chats (snd (completeAndParse env profile prompt w)) = S (chats w).
Proof.
  unfold completeAndParse, bind, requestCompletion, lift.
  destruct (chatCompletion env _ prompt) as [[raw|]|e]; try reflexivity.
  destruct (parseSuggestions raw) as [suggestions|e]; [|reflexivity].
  unfold generateImagesForSuggestions.
  rewrite (forEach_keeps chats _ suggestions (imagesForSuggestion_chats profile)).
  reflexivity.
Qed.

Lemma fetch_chats userId token w :
  chats (snd (fetchAndStoreInstagramPosts env userId token w)) = chats w.
Proof.
  unfold fetchAndStoreInstagramPosts, chats.
  destruct (instagramMedia env _ token) as [[[|post r]|]|e]; cbn [snd]; try reflexivity.
  rewrite (storePosts_calls userId (post :: r)). reflexivity.
Qed.

Lemma generation_chats profile userId token count update w :
  chats w
  <= chats (snd (generateContentFromProfile env profile userId token count update w))
  <= S (chats w).
Proof.
  assert (Honly : chats w
                  <= chats (snd (generateContentBasedOnProfileOnly env profile count w))
                  <= S (chats w)).
  { unfold generateContentBasedOnProfileOnly. rewrite completeAndParse_chats. lia. }
  assert (Hopt : forall u t x,
             chats (snd ((if update then fetchAndStoreInstagramPosts env u t else ret tt) x))
             = chats x).
  { intros u t x. destruct update; [apply fetch_chats | reflexivity]. }
  unfold generateContentFromProfile.
  destruct userId as [uid|]; [|exact Honly].
  destruct token as [tok|]; [|exact Honly].
  destruct (_ && _); [|exact Honly].
  unfold bind. pose proof (Hopt uid tok w) as H1.
  destruct ((if update then fetchAndStoreInstagramPosts env uid tok else ret tt) w)
    as [[[]|e] w1]; simpl in H1; [|simpl; lia].
  unfold generateContentBasedOnProfileAndInstagram, bind.
  pose proof (Hopt uid tok w1) as H2.
  destruct ((if update then fetchAndStoreInstagramPosts env uid tok else ret tt) w1)
    as [[[]|e] w2]; simpl in H2; [|simpl; lia].
  rewrite completeAndParse_chats. lia.
Qed.

Lemma regenerate_chats c userId source profile uid token count update w :
  chats w
  <= chats (snd (regenerate env c userId source
                   (generateContentFromProfile env profile uid token count update) w))
  <= chats w + 4.
Proof.
  unfold regenerate, bind.
  pose proof (callWithBackoff_bounded chats
                (generateContentFromProfile env profile uid token count update)
                (fun x => generation_chats profile uid token count update x)
                (fun ms x => eq_refl) 3 1000%Z w) as H1.
  destruct (callWithBackoff _ 3 1000%Z w) as [[generated|e] w1]; simpl in H1; [|simpl; lia].
  pose proof (forEach_keeps chats _ generated materializeImage_chats w1) as H2.
  destruct (forEach _ generated w1) as [[items|e] w2]; simpl in H2; [|simpl; lia].
  unfold insertMany. cbn [snd].
  change (chats (log _ (bumpIds _ (setCollection c _ w2)))) with (chats (setCollection c
    (collection c w2 ++ newDocs env userId source (now w2) (idCalls (calls w2)) items) w2)).
  destruct c; simpl; unfold chats in *; simpl; lia.
Qed.

End Accounting.

(** A request makes at most four calls to the text service, the first
    call and three retries; the count of these calls never goes down. *)
Theorem text_calls_bounded (env : Env) (userId suggestionId : string) (w : World) :
  (chatCalls (calls w)
   <= chatCalls (calls (snd (getOrGenerateSuggestions env userId w)))
   <= chatCalls (calls w) + 4)
  /\ (chatCalls (calls w)
      <= chatCalls (calls (snd (getOrGenerateUserSuggestions env userId w)))
      <= chatCalls (calls w) + 4)
  /\ (chatCalls (calls w)
      <= chatCalls (calls (snd (refreshSingleSuggestion env suggestionId userId w)))
      <= chatCalls (calls w) + 4).
Proof.
  split; [|split].
  - unfold getOrGenerateSuggestions.
    destruct (negb _); [simpl; lia|].
    destruct (findUser userId w); [|simpl; lia].
    destruct (_ || _); [|simpl; lia].
    destruct (findProfile _ _) as [profile|]; [|simpl; lia].
    apply (regenerate_chats env ContentSuggestion userId businessProfile profile
             None None 3%Z false (businessEvicted userId w)).
  - unfold getOrGenerateUserSuggestions.
    destruct (String.eqb userId EmptyString); [simpl; lia|].
    destruct (negb _); [simpl; lia|].
    destruct (findUser userId w) as [user|]; [|simpl; lia].
    destruct (_ || _); [simpl; lia|].
    destruct (shouldGenerate _ _); [|simpl; lia].
    destruct (findProfile _ _) as [profile|]; [|simpl; lia].
    apply (regenerate_chats env InstagramContentSuggestion userId userProfile profile
             (Some userId) (instagramAccessToken user) 3%Z true (userEvicted userId w)).
  - unfold refreshSingleSuggestion.
    destruct (negb (objectIdIsValid env userId)); [simpl; lia|].
    destruct (findProfile userId w) as [profile|]; [|simpl; lia].
    pose proof (callWithBackoff_bounded (fun x => chatCalls (calls x))
                  (generateContentFromProfile env profile None None 1%Z false)
                  (fun x => generation_chats env profile None None 1%Z false x)
                  (fun ms x => eq_refl) 3 1000%Z w) as H1.
    destruct (callWithBackoff _ 3 1000%Z w) as [[[|newContent others]|e] w1];
      simpl in H1; try (simpl; lia).
    pose proof (materializeImage_chats env newContent w1) as H2.
    destruct (materializeImage env newContent w1) as [[item'|e] w2]; simpl in H2;
      [|simpl; lia].
    destruct (negb (objectIdIsValid env suggestionId)); [simpl; lia|].
    destruct (updateFirst _ _ _) as [[updated l]|]; simpl; lia.
Qed.

(** ** The refresh of one suggestion *)

Lemma updateFirst_split id f l u l' :
  updateFirst id f l = Some (u, l') ->
  exists before old after,
    l = before ++ old :: after /\ l' = before ++ u :: after /\ u = f old
    /\ doc_id old = id /\ forall d, In d before -> doc_id d <> id.
Proof.
  revert u l'. induction l as [|x r IH]; intros u l'; simpl; [discriminate|].
  destruct (String.eqb (doc_id x) id) eqn:E.
  - intros H. injection H as <- <-. exists [], x, r.
    repeat split. { apply String.eqb_eq. exact E. } intros d [].
  - destruct (updateFirst id f r) as [[u0 r0]|]; [|discriminate].
    intros H. injection H as <- <-.
    destruct (IH u0 r0 eq_refl) as (before & old & after & -> & -> & Hu & Hid & Hb).
    exists (x :: before), old, after. repeat split; try assumption.
    intros d [<- | Hd]; [apply String.eqb_neq; exact E | apply Hb; exact Hd].
Qed.

Lemma updateFirst_none id f l :
  updateFirst id f l = None -> forall d, In d l -> doc_id d <> id.
Proof.
  induction l as [|x r IH]; simpl; [intros _ d []|].
  destruct (String.eqb (doc_id x) id) eqn:E; [discriminate|].
  destruct (updateFirst id f r) as [[u0 r0]|]; [discriminate|].
  intros _ d [<- | Hd]; [apply String.eqb_neq; exact E | apply IH; [reflexivity | exact Hd]].
Qed.

(** [refreshSingleSuggestion] writes to one document at most.  When it
    answers with a document, the store of business suggestions differs
    from the one before in a single place, the first document with the
    given id, whoever owns it, and the answer is the new document, marked
    as refreshed and dated now.  With any other answer the store is as
    before; the answer [Suggestion not found] means that no document has
    the id, and is given only after the text service was called.  The
    store of social suggestions is never touched. *)
Theorem refresh_changes_one_document (env : Env) (suggestionId userId : string)
  (w : World) :
  let r := refreshSingleSuggestion env suggestionId userId w in
  instagramContentSuggestions (snd r) = instagramContentSuggestions w
  /\ match fst r with
     | JsonDoc _ updated =>
         exists before old after,
           contentSuggestions w = before ++ old :: after
           /\ contentSuggestions (snd r) = before ++ updated :: after
           /\ doc_id old = suggestionId
           /\ (forall d, In d before -> doc_id d <> suggestionId)
           /\ doc_refreshed updated = true
           /\ doc_createdAt updated = now (snd r)
     | JsonError _ msg =>
         contentSuggestions (snd r) = contentSuggestions w
         /\ (msg = "Suggestion not found" ->
             (forall d, In d (contentSuggestions w) -> doc_id d <> suggestionId)
             /\ chatCalls (calls w) < chatCalls (calls (snd r)))
     | _ => contentSuggestions (snd r) = contentSuggestions w
     end.
Proof.
  cbv zeta. unfold refreshSingleSuggestion.
  destruct (negb (objectIdIsValid env userId));
    [split; [reflexivity | split; [reflexivity | discriminate]]|].
  destruct (findProfile userId w) as [profile|];
    [|split; [reflexivity | split; [reflexivity | discriminate]]].
  pose proof (generation_stores env profile None None 1%Z false _ _ 3 1000%Z w
                (conj eq_refl eq_refl)) as [Hcs Higs].
  assert (Hchat : chatCalls (calls w)
                  < chatCalls (calls (snd (callWithBackoff
                        (generateContentFromProfile env profile None None 1%Z false)
                        3 1000%Z w)))).
  { destruct (callWithBackoff_last_step
                (generateContentFromProfile env profile None None 1%Z false)
                (fun x => chatCalls (calls x))
                (fun x => proj1 (generation_chats env profile None None 1%Z false x))
                (fun ms x => eq_refl) 3 1000%Z w) as (w0 & Hle & ->).
    unfold generateContentFromProfile, generateContentBasedOnProfileOnly.
    rewrite completeAndParse_chats. lia. }
  destruct (callWithBackoff _ 3 1000%Z w) as [[[|newContent others]|e] w1];
    simpl in Hcs, Higs, Hchat; cbn [fst snd]; try (split; assumption).
  pose proof (Stable_materializeImage env _ (Ignores_stores _ _) newContent w1
                (conj eq_refl eq_refl)) as [Mcs Migs].
  pose proof (materializeImage_chats env newContent w1) as Mchat.
  destruct (materializeImage env newContent w1) as [[item'|e] w2];
    simpl in Mcs, Migs, Mchat; cbn [fst snd]; [|split; congruence].
  destruct (negb (objectIdIsValid env suggestionId)); cbn [fst snd]; [split; congruence|].
  destruct (updateFirst _ _ _) as [[updated l]|] eqn:Hup; cbn [fst snd].
  - split; [simpl; congruence|].
    destruct (updateFirst_split _ _ _ _ _ Hup)
      as (before & old & after & Hl & Hl' & Hu & Hid & Hb).
    exists before, old, after. rewrite <- Hcs, <- Mcs.
    repeat split; try assumption; rewrite Hu; reflexivity.
  - split; [congruence|]. split; [congruence|]. intros _. split; [|lia].
    rewrite <- Hcs, <- Mcs. exact (updateFirst_none _ _ _ Hup).
Qed.

Lemma refresh_changes_one_document_witness :
  (forall d, In d (contentSuggestions Scenario.staleWorld) -> doc_id d <> "s9")
  /\ chatCalls (calls Scenario.staleWorld)
     < chatCalls (calls (snd (refreshSingleSuggestion Scenario.twoIdeasEnv "s9" "u1"
                                Scenario.staleWorld))).
Proof.
  pose proof (refresh_changes_one_document Scenario.twoIdeasEnv "s9" "u1"
                Scenario.staleWorld) as H.
  cbv zeta in H. destruct H as [_ H].
  assert (E : fst (refreshSingleSuggestion Scenario.twoIdeasEnv "s9" "u1"
                     Scenario.staleWorld)
              = JsonError 404 "Suggestion not found") by (vm_compute; reflexivity).
  rewrite E in H. exact (proj2 H eq_refl).
Defined.

(** ** Requests to the image service *)

Section ImageRequests.

Variable env : Env.
Variable profile : BusinessProfile.

Let isRequest (e : Event) : Prop := exists prompt, e = EvImageGenerate prompt 2 "512x512".

Lemma imagesForSuggestion_requests x w :
  exists requests,
    trace (snd (imagesForSuggestion env profile x w)) = trace w ++ requests
    /\ length requests <= 1
    /\ Forall isRequest requests
    /\ imageCalls (calls (snd (imagesForSuggestion env profile x w)))
       = imageCalls (calls w) + length requests.
Proof.
  assert (Hnone : exists requests,
             trace w = trace w ++ requests /\ length requests <= 1
             /\ Forall isRequest requests
             /\ imageCalls (calls w) = imageCalls (calls w) + length requests).
  { exists []. rewrite app_nil_r. simpl.
    split; [reflexivity|]. split; [lia|]. split; [constructor | lia]. }
  unfold imagesForSuggestion. destruct (asObject x) as [o|]; [|exact Hnone].
  destruct (_ || _); [exact Hnone|].
  exists [EvImageGenerate (imagePromptOf env profile (coerceContentType o)) 2 "512x512"].
  destruct (imagesGenerate env _ _) as [[urls|]|e]; simpl;
    (split; [reflexivity|]; split; [lia|];
     split; [repeat constructor; eexists; reflexivity | lia]).
Qed.

Lemma generateImages_requests suggestions : forall w,
  exists requests,
    trace (snd (generateImagesForSuggestions env profile suggestions w))
    = trace w ++ requests
    /\ length requests <= length suggestions
    /\ Forall isRequest requests
    /\ imageCalls (calls (snd (generateImagesForSuggestions env profile suggestions w)))
       = imageCalls (calls w) + length requests.
Proof.
  unfold generateImagesForSuggestions.
  induction suggestions as [|x r IH]; intros w.
  - exists []. simpl. rewrite app_nil_r.
    split; [reflexivity|]. split; [lia|]. split; [constructor | lia].
  - destruct (imagesForSuggestion_requests x w) as (q1 & Ht1 & Hl1 & Hf1 & Hc1).
    simpl. unfold bind, ret.
    destruct (imagesForSuggestion env profile x w) as [[y|e] w1]; simpl in Ht1, Hc1.
    + destruct (IH w1) as (q2 & Ht2 & Hl2 & Hf2 & Hc2).
      exists (q1 ++ q2).
      destruct (forEach (imagesForSuggestion env profile) r w1) as [[ys|e] w2];
        simpl in Ht2, Hc2 |- *;
        rewrite Ht2, Ht1, Hc2, Hc1, app_assoc, length_app;
        (split; [reflexivity|]; split; [lia|];
         split; [apply Forall_app; split; assumption | lia]).
    + exists q1. simpl. split; [assumption|]. split; [lia|]. split; assumption.
Qed.

End ImageRequests.

(** [generateImagesForSuggestions] asks the image service at most once
    for each suggestion, always for two images of 512x512, and does
    nothing else that is seen from outside. *)
Theorem image_requests_bounded (env : Env) (profile : BusinessProfile)
  (suggestions : list JValue) (w : World) :
  exists requests,
    trace (snd (generateImagesForSuggestions env profile suggestions w))
    = trace w ++ requests
    /\ length requests <= length suggestions
    /\ Forall (fun e => exists prompt, e = EvImageGenerate prompt 2 "512x512") requests
    /\ imageCalls (calls (snd (generateImagesForSuggestions env profile suggestions w)))
       = imageCalls (calls w) + length requests.
Proof. apply generateImages_requests. Qed.

Lemma length_text (l : list ascii) : String.length (text l) = length l.
Proof. unfold text. induction l as [|c r IH]; simpl; [|rewrite IH]; reflexivity. Qed.

Lemma dropWhile_before {A} (p : A -> bool) (a : list A) (c : A) (t : list A) :
  p c = false -> exists x, dropWhile p (a ++ c :: t) = x ++ c :: t.
Proof.
  intros Hc. induction a as [|y r IH]; simpl.
  - rewrite Hc. exists []. reflexivity.
  - destruct (p y); [exact IH|]. exists (y :: r). reflexivity.
Qed.

Lemma trimChars_keeps (a t : list ascii) (c d : ascii) :
  isSpace c = false -> isSpace d = false ->
  exists x, trimChars (a ++ c :: t ++ [d]) = x ++ c :: t ++ [d].
Proof.
  intros Hc Hd. unfold trimChars.
  destruct (dropWhile_before isSpace a c (t ++ [d]) Hc) as (x & ->).
  exists x.
  replace (x ++ c :: t ++ [d]) with ((x ++ c :: t) ++ [d])
    by (rewrite <- app_assoc; reflexivity).
  apply dropWhileEnd_keep. exact Hd.
Qed.

(** The guard against an empty or short image prompt does not catch a
    suggestion without title: the prompt is built from the text
    [undefined], and [generateImagesForSuggestions] asks the image
    service for [<business type> - undefined]. *)
Theorem untitled_suggestion_requests_image (env : Env) (profile : BusinessProfile)
  (o : JObject) (w : World) :
  Json.getField "title" o = None ->
  exists urls,
    imagesForSuggestion env profile (JObj o) w
    = (Returned (withImages (coerceContentType o) urls),
       log (EvImageGenerate (businessType profile +++ " - undefined") 2 "512x512")
           (bumpImage w)).
Proof.
  intros Ht.
  assert (Ht' : Json.getField "title" (coerceContentType o) = None).
  { unfold coerceContentType. destruct (isValidType _); [exact Ht|].
    rewrite getField_setField_other; [exact Ht | discriminate]. }
  assert (Hprompt : imagePromptOf env profile (coerceContentType o)
                    = businessType profile +++ " - undefined").
  { unfold imagePromptOf. rewrite Ht'. reflexivity. }
  assert (Hguard : String.eqb (businessType profile +++ " - undefined") EmptyString
                   || (String.length (trim (businessType profile +++ " - undefined")) <? 5)
                   = false).
  { apply orb_false_iff. split.
    - apply String.eqb_neq. destruct (businessType profile); discriminate.
    - apply Nat.ltb_ge. unfold trim. rewrite chars_append.
      destruct (trimChars_keeps (chars (businessType profile) ++ [" "%char])
                  (chars " undefine") "-"%char "d"%char eq_refl eq_refl) as (x & Hx).
      rewrite <- app_assoc in Hx. simpl in Hx. simpl. rewrite Hx.
      rewrite length_text, length_app. simpl. lia. }
  unfold imagesForSuggestion. cbn [asObject]. rewrite Hprompt, Hguard.
  destruct (imagesGenerate env _ _) as [[urls|]|e]; eexists; reflexivity.
Qed.

Lemma untitled_suggestion_requests_image_witness :
  exists urls,
    imagesForSuggestion Scenario.quietEnv Scenario.bakery
      (JObj [("content", JStr "Fresh every morning")]) Scenario.emptyWorld
    = (Returned (withImages (coerceContentType [("content", JStr "Fresh every morning")])
                   urls),
       log (EvImageGenerate "Bakery - undefined" 2 "512x512")
           (bumpImage Scenario.emptyWorld)).
Proof.
  exact (untitled_suggestion_requests_image Scenario.quietEnv Scenario.bakery
           [("content", JStr "Fresh every morning")] Scenario.emptyWorld eq_refl).
Defined.

(** ** The documents of the cache of social posts *)

Lemma postDocument_mapped userId id post :
  id <> EmptyString -> mappedFromRemote userId (postDocument userId id post).
Proof.
  intros Hid. unfold mappedFromRemote, postDocument. cbn -[String.eqb hashtagsOf].
  set (mt := orEmpty (rp_media_type post)).
  assert (Hmt : orElse mt "UNKNOWN" <> EmptyString).
  { unfold orElse. destruct (String.eqb mt EmptyString) eqn:E; [discriminate|].
    apply String.eqb_neq. exact E. }
  assert (Hsame : mt <> EmptyString -> orElse mt "UNKNOWN" = mt).
  { intros H. unfold orElse. apply String.eqb_neq in H. rewrite H. reflexivity. }
  assert (Hunknown : mt = EmptyString -> orElse mt "UNKNOWN" = "UNKNOWN").
  { intros ->. reflexivity. }
  split; [reflexivity|]. split; [exact Hid|]. split; [exact Hmt|].
  destruct (String.eqb mt "VIDEO") eqn:Ev; [|destruct (String.eqb mt "IMAGE") eqn:Ei].
  - apply String.eqb_eq in Ev.
    rewrite Hsame by (rewrite Ev; discriminate). rewrite Ev.
    split; [simpl; auto|]. split; [split; reflexivity|].
    split; [split; discriminate|]. repeat split.
  - apply String.eqb_eq in Ei.
    rewrite Hsame by (rewrite Ei; discriminate). rewrite Ei.
    split; [simpl; auto|]. split; [split; discriminate|].
    split; [split; reflexivity|]. repeat split.
  - apply String.eqb_neq in Ev, Ei.
    split; [simpl; auto|].
    assert (Hv : orElse mt "UNKNOWN" <> "VIDEO").
    { destruct (string_dec mt EmptyString) as [E|E];
        [rewrite (Hunknown E); discriminate | rewrite (Hsame E); exact Ev]. }
    assert (Hi : orElse mt "UNKNOWN" <> "IMAGE").
    { destruct (string_dec mt EmptyString) as [E|E];
        [rewrite (Hunknown E); discriminate | rewrite (Hsame E); exact Ei]. }
    split; [split; [discriminate | intros H; contradiction]|].
    split; [split; [discriminate | intros H; contradiction]|]. repeat split.
Qed.

Lemma storePosts_mapped userId posts : forall w,
  exists added,
    instagramPosts (storePosts userId posts w) = instagramPosts w ++ added
    /\ Forall (mappedFromRemote userId) added.
Proof.
  unfold storePosts.
  induction posts as [|post r IH]; intros w; simpl.
  - exists []. rewrite app_nil_r. split; [reflexivity | constructor].
  - destruct (IH (storePost userId post w)) as (added & Heq & Hall).
    unfold storePost in *.
    destruct (rp_id post) as [id|]; [|exists added; split; assumption].
    destruct (String.eqb id EmptyString) eqn:E; [exists added; split; assumption|].
    destruct (findPost id w); [exists added; split; assumption|].
    exists (postDocument userId id post :: added). rewrite Heq. simpl.
    rewrite <- app_assoc. split; [reflexivity|].
    constructor; [|exact Hall]. apply postDocument_mapped.
    apply String.eqb_neq. exact E.
Qed.

(** The cache of social posts only grows by a fetch, and every document
    that a fetch creates belongs to the user it was made for, has an
    external id and a media type, a content type among Reel, Post and
    Story that follows the media type, the caption as content, the
    hashtags of the caption, and at most one image URL.  When the media
    API fails, the fetch throws the error of the API and leaves the cache
    as it was; when the API gives no list, or an empty one, the fetch
    returns and leaves the cache as it was. *)
Theorem fetched_posts_are_mapped (env : Env) (userId token : string) (w : World) :
  let r := fetchAndStoreInstagramPosts env userId token w in
  (exists added,
      instagramPosts (snd r) = instagramPosts w ++ added
      /\ Forall (mappedFromRemote userId) added
      /\ Forall (fun d => length (ip_imageUrls d) <= 1) added)
  /\ (forall e,
        instagramMedia env (mediaCalls (calls w)) token = MediaFailed e ->
        fst r = Thrown e /\ instagramPosts (snd r) = instagramPosts w)
  /\ (instagramMedia env (mediaCalls (calls w)) token = MediaData None
      \/ instagramMedia env (mediaCalls (calls w)) token = MediaData (Some []) ->
      fst r = Returned tt /\ instagramPosts (snd r) = instagramPosts w).
Proof.
  cbv zeta. split; [|split].
  - assert (Hone : forall added,
               Forall (mappedFromRemote userId) added ->
               Forall (fun d => length (ip_imageUrls d) <= 1) added).
    { intros added H. eapply Forall_impl; [|exact H].
      intros d (_ & _ & _ & _ & _ & _ & _ & Himg & _). rewrite Himg.
      destruct (String.eqb (mediaUrl d) EmptyString); simpl; lia. }
    unfold fetchAndStoreInstagramPosts.
    assert (Hnone : exists added,
               instagramPosts w = instagramPosts w ++ added
               /\ Forall (mappedFromRemote userId) added
               /\ Forall (fun d => length (ip_imageUrls d) <= 1) added).
    { exists []. rewrite app_nil_r. repeat split; constructor. }
    destruct (instagramMedia env _ token) as [[[|post r]|]|e]; cbn [fst snd];
      try exact Hnone.
    destruct (storePosts_mapped userId (post :: r)
                (log (EvInstagramMedia token) (bumpMedia w))) as (added & Heq & Hall).
    exists added. split; [exact Heq|]. split; [exact Hall | exact (Hone added Hall)].
  - intros e He. unfold fetchAndStoreInstagramPosts. rewrite He. split; reflexivity.
  - intros [He | He]; unfold fetchAndStoreInstagramPosts; rewrite He; split; reflexivity.
Qed.

Lemma fetched_posts_are_mapped_witness :
  fst (fetchAndStoreInstagramPosts Scenario.mediaDownEnv "u1" "token" Scenario.fivePosts)
  = Thrown Scenario.serverError
  /\ instagramPosts
       (snd (fetchAndStoreInstagramPosts Scenario.mediaDownEnv "u1" "token"
               Scenario.fivePosts))
     = instagramPosts Scenario.fivePosts.
Proof.
  exact (proj1 (proj2 (fetched_posts_are_mapped Scenario.mediaDownEnv "u1" "token"
                         Scenario.fivePosts)) Scenario.serverError eq_refl).
Defined.

(** ** Hashtags *)

Lemma takeWhile_all {A} (p : A -> bool) (l : list A) : forallb p (takeWhile p l) = true.
Proof.
  induction l as [|x r IH]; simpl; [reflexivity|].
  destruct (p x) eqn:E; simpl; [rewrite E; exact IH | reflexivity].
Qed.

Lemma takeWhile_stop {A} (p : A -> bool) (t : list A) (c : A) (rest : list A) :
  forallb p t = true -> p c = false -> takeWhile p (t ++ c :: rest) = t.
Proof.
  intros Ht Hc. induction t as [|x r IH]; simpl in *; [rewrite Hc; reflexivity|].
  apply andb_true_iff in Ht. destruct Ht as [Hx Hr]. rewrite Hx, (IH Hr). reflexivity.
Qed.

Lemma dropWhile_stop {A} (p : A -> bool) (t : list A) (c : A) (rest : list A) :
  forallb p t = true -> p c = false -> dropWhile p (t ++ c :: rest) = c :: rest.
Proof.
  intros Ht Hc. induction t as [|x r IH]; simpl in *; [rewrite Hc; reflexivity|].
  apply andb_true_iff in Ht. destruct Ht as [Hx Hr]. rewrite Hx. exact (IH Hr).
Qed.

Lemma hashtagsFrom_tags fuel : forall l, Forall isTag (hashtagsFrom fuel l).
Proof.
  induction fuel as [|f IH]; intros l; simpl; [constructor|].
  destruct l as [|c r]; [constructor|].
  destruct (Ascii.eqb c "#"%char); [|apply IH].
  pose proof (takeWhile_all isWordChar r) as Hall.
  destruct (takeWhile isWordChar r) as [|a t]; [apply IH|].
  constructor; [|apply IH]. split; [discriminate|].
  change (String a (text t)) with (text (a :: t)). rewrite chars_text. exact Hall.
Qed.

Lemma hashtagsFrom_tagged tags :
  Forall isTag tags ->
  forall fuel,
    length (flat_map (fun tag => "#"%char :: chars tag ++ [" "%char]) tags) <= fuel ->
    hashtagsFrom fuel (flat_map (fun tag => "#"%char :: chars tag ++ [" "%char]) tags)
    = tags.
Proof.
  induction 1 as [|tag r [Hne Hword] Hr IH]; intros fuel Hfuel.
  - destruct fuel; reflexivity.
  - cbn [flat_map] in Hfuel |- *.
    rewrite <- app_comm_cons, <- app_assoc in Hfuel |- *.
    cbn [app] in Hfuel |- *.
    destruct fuel as [|f]; [simpl in Hfuel; lia|].
    cbn [hashtagsFrom]. rewrite Ascii.eqb_refl.
    rewrite (takeWhile_stop isWordChar (chars tag) " "%char _ Hword eq_refl).
    rewrite (dropWhile_stop isWordChar (chars tag) " "%char _ Hword eq_refl).
    assert (Hchars : chars tag <> []).
    { intros E. apply Hne. rewrite <- (text_chars tag), E. reflexivity. }
    destruct (chars tag) as [|a t] eqn:Et; [contradiction|].
    rewrite <- Et, text_chars. f_equal.
    simpl in Hfuel. rewrite length_app in Hfuel. simpl in Hfuel.
    destruct f as [|f']; [lia|].
    cbn [hashtagsFrom]. change (Ascii.eqb " "%char "#"%char) with false. cbv iota.
    apply IH. lia.
Qed.

(** The hashtags that [fetchAndStoreInstagramPosts] reads off a caption
    are tags: none is empty, and all their characters are letters,
    digits or underscores, so none carries the [#] or any white space.
    And the tags of a caption that is made of tags, each one after a [#]
    and before a space, are those tags, in their order. *)
Theorem hashtags_extraction :
  (forall caption, Forall isTag (hashtagsOf caption))
  /\ (forall tags, Forall isTag tags -> hashtagsOf (tagged tags) = tags).
Proof.
  split.
  - intros caption. apply hashtagsFrom_tags.
  - intros tags Htags. unfold hashtagsOf, tagged.
    rewrite chars_text, length_text. apply hashtagsFrom_tagged; [exact Htags | lia].
Qed.

Lemma hashtags_extraction_witness :
  Forall isTag ["bakery"; "fresh_bread"; "open7"]
  /\ hashtagsOf "#bakery #fresh_bread #open7 " = ["bakery"; "fresh_bread"; "open7"].
Proof.
  assert (H : Forall isTag ["bakery"; "fresh_bread"; "open7"]).
  { repeat constructor; discriminate. }
  split; [exact H|].
  exact (proj2 hashtags_extraction ["bakery"; "fresh_bread"; "open7"] H).
Defined.

(** ** The digest of captions *)






(** ** Whose suggestions a response lists *)

Lemma regenerate_own env c userId source generate w status body :
  fst (regenerate env c userId source generate w) = Json status body ->
  forall d, In d body -> doc_userId d = userId /\ doc_source d = source.
Proof.
  unfold regenerate.
  destruct (bind _ _ w) as [[items|e] w2]; [|discriminate].
  unfold insertMany. cbn [fst]. intros H. injection H as _ <-. intros d Hd.
  destruct (newDocs_meta env userId source (now w2) items _ d Hd) as (Hu & Hs & _).
  split; assumption.
Qed.

(** A list of suggestions that a handler answers with, from the store or
    newly generated, has suggestions of the requested user only, and for
    [getOrGenerateUserSuggestions] only those made from the social
    profile. *)
Theorem responses_list_own_suggestions (env : Env) (userId : string) (w : World) :
  (forall status body,
      fst (getOrGenerateSuggestions env userId w) = Json status body ->
      forall d, In d body -> doc_userId d = userId)
  /\ (forall status body,
        fst (getOrGenerateUserSuggestions env userId w) = Json status body ->
        forall d, In d body -> doc_userId d = userId /\ doc_source d = userProfile).
Proof.
  split; intros status body.
  - unfold getOrGenerateSuggestions.
    destruct (negb _); [discriminate|].
    destruct (findUser userId w); [|discriminate].
    destruct (_ || _).
    + destruct (findProfile _ _) as [profile|]; [|discriminate].
      intros H d Hd. exact (proj1 (regenerate_own _ _ _ _ _ _ _ _ H d Hd)).
    + cbn [fst]. intros H. injection H as _ <-. intros d Hd.
      unfold businessBucket, findSorted in Hd.
      apply (Permutation_in _ (sortDescBy_perm doc_createdAt _)) in Hd.
      apply filter_In in Hd. destruct Hd as [_ Hd]. apply String.eqb_eq. exact Hd.
  - unfold getOrGenerateUserSuggestions.
    destruct (String.eqb userId EmptyString); [discriminate|].
    destruct (negb _); [discriminate|].
    destruct (findUser userId w) as [user|]; [|discriminate].
    destruct (_ || _); [discriminate|].
    destruct (shouldGenerate _ _).
    + destruct (findProfile _ _) as [profile|]; [|discriminate].
      intros H d Hd. exact (regenerate_own _ _ _ _ _ _ _ _ H d Hd).
    + cbn [fst]. intros H. injection H as _ <-. intros d Hd.
      unfold userBucket, findSorted in Hd.
      apply (Permutation_in _ (sortDescBy_perm doc_createdAt _)) in Hd.
      apply filter_In in Hd. destruct Hd as [_ Hd]. unfold byUserProfile in Hd.
      apply andb_true_iff in Hd. destruct Hd as [Hu Hs].
      split; [apply String.eqb_eq; exact Hu|].
      destruct (doc_source d); [discriminate | reflexivity].
Qed.

Lemma responses_list_own_suggestions_witness :
  Forall (fun d => doc_userId d = "u1") (businessBucket "u1" Scenario.freshWorld).
Proof.
  apply Forall_forall.
  exact (proj1 (responses_list_own_suggestions Scenario.quietEnv "u1" Scenario.freshWorld)
           200 (businessBucket "u1" Scenario.freshWorld) eq_refl).
Defined.

(** ** Calls to the media API and downloads *)

Lemma forEach_bounded {A B} (m : World -> nat) (body : A -> Async B) (xs : list A) :
  (forall x w, m w <= m (snd (body x w)) <= S (m w)) ->
  forall w, m w <= m (snd (forEach body xs w)) <= m w + length xs.
Proof.
  intros Hb. induction xs as [|x r IH]; intros w; simpl; [lia|].
  unfold bind, ret. specialize (Hb x w).
  destruct (body x w) as [[y|e] w1]; simpl in Hb; [|simpl; lia].
  specialize (IH w1). destruct (forEach body r w1) as [[ys|e] w2]; simpl in *; lia.
Qed.

Lemma callWithBackoff_bounded_by {T} (m : World -> nat) (k : nat) (fn : Async T) :
  (forall w, m w <= m (snd (fn w)) <= m w + k) ->
  (forall ms w, m (sleep ms w) = m w) ->
  forall retries delay w,
    m w <= m (snd (callWithBackoff fn retries delay w)) <= m w + k * S retries.
Proof.
  intros Hfn Hsleep retries.
  induction retries as [|r IH]; intros delay w; simpl;
    specialize (Hfn w); destruct (fn w) as [[v|e] w1]; simpl in *; try lia.
  - destruct (isRateLimit e); simpl; lia.
  - destruct (isRateLimit e); simpl; [|lia].
    specialize (IH (delay * 2)%Z (sleep delay w1)). rewrite Hsleep in IH. lia.
Qed.

Lemma postsGrow_refl w : postsGrow w w.
Proof. exists []. symmetry. apply app_nil_r. Qed.

Lemma postsGrow_trans a b c : postsGrow a b -> postsGrow b c -> postsGrow a c.
Proof.
  intros (m1 & E1) (m2 & E2). exists (m1 ++ m2). rewrite E2, E1, app_assoc. reflexivity.
Qed.

Section Traffic.

Variable env : Env.

Let medias (w : World) : nat := mediaCalls (calls w).
Let https (w : World) : nat := httpCalls (calls w).

Lemma completeAndParse_traffic profile prompt w :
  medias (snd (completeAndParse env profile prompt w)) = medias w
  /\ https (snd (completeAndParse env profile prompt w)) = https w
  /\ instagramPosts (snd (completeAndParse env profile prompt w)) = instagramPosts w.
Proof.
  assert (Hitem : forall x x0,
             medias (snd (imagesForSuggestion env profile x x0)) = medias x0
             /\ https (snd (imagesForSuggestion env profile x x0)) = https x0).
  { intros x x0. unfold imagesForSuggestion.
    destruct (asObject x) as [o|]; [|split; reflexivity].
    destruct (_ || _); [split; reflexivity|].
    destruct (imagesGenerate env _ _) as [[urls|]|e]; split; reflexivity. }
  split; [|split].
  - unfold completeAndParse, bind, requestCompletion, lift.
    destruct (chatCompletion env _ prompt) as [[raw|]|e]; try reflexivity.
    destruct (parseSuggestions raw) as [suggestions|e]; [|reflexivity].
    unfold generateImagesForSuggestions.
    rewrite (forEach_keeps medias _ suggestions (fun x x0 => proj1 (Hitem x x0))).
    reflexivity.
  - unfold completeAndParse, bind, requestCompletion, lift.
    destruct (chatCompletion env _ prompt) as [[raw|]|e]; try reflexivity.
    destruct (parseSuggestions raw) as [suggestions|e]; [|reflexivity].
    unfold generateImagesForSuggestions.
    rewrite (forEach_keeps https _ suggestions (fun x x0 => proj2 (Hitem x x0))).
    reflexivity.
  - apply (Stable_completeAndParse env _ (Ignores_posts (instagramPosts w)) profile prompt w).
    reflexivity.
Qed.

Lemma fetch_traffic userId token w :
  medias (snd (fetchAndStoreInstagramPosts env userId token w)) = S (medias w)
  /\ https (snd (fetchAndStoreInstagramPosts env userId token w)) = https w
  /\ postsGrow w (snd (fetchAndStoreInstagramPosts env userId token w)).
Proof.
  split; [apply fetch_mediaCalls|]. split.
  - unfold fetchAndStoreInstagramPosts, https.
    destruct (instagramMedia env _ token) as [[[|post r]|]|e]; cbn [snd]; try reflexivity.
    rewrite (storePosts_calls userId (post :: r)). reflexivity.
  - destruct (fetch_added env userId token w) as (added & E & _). exists added. exact E.
Qed.

(** A run of the generation: two calls to the media API at most, no
    download, and posts are only added to the cache; without a user id
    and a token, no call to the media API and the cache is left alone. *)
Lemma generation_traffic profile userId token count update w :
  let w' := snd (generateContentFromProfile env profile userId token count update w) in
  medias w <= medias w' <= medias w + 2
  /\ https w' = https w
  /\ postsGrow w w'
  /\ (userId = None -> medias w' = medias w /\ instagramPosts w' = instagramPosts w).
Proof.
  cbv zeta.
  assert (Honly : medias w
                  <= medias (snd (generateContentBasedOnProfileOnly env profile count w))
                  <= medias w + 2
                  /\ https (snd (generateContentBasedOnProfileOnly env profile count w))
                     = https w
                  /\ postsGrow w (snd (generateContentBasedOnProfileOnly env profile count w))
                  /\ (medias (snd (generateContentBasedOnProfileOnly env profile count w))
                      = medias w
                      /\ instagramPosts
                           (snd (generateContentBasedOnProfileOnly env profile count w))
                         = instagramPosts w)).
  { unfold generateContentBasedOnProfileOnly.
    destruct (completeAndParse_traffic profile (profileOnlyPrompt profile count) w)
      as (Hm & Hh & Hp).
    rewrite Hm, Hh. split; [lia|]. split; [reflexivity|].
    split; [exists []; rewrite Hp; symmetry; apply app_nil_r|]. split; [reflexivity | exact Hp]. }
  unfold generateContentFromProfile.
  destruct userId as [uid|];
    [|destruct Honly as (A & B & C & D); split; [exact A|]; split; [exact B|];
      split; [exact C | intros _; exact D]].
  assert (Hsome : forall X : Prop, (Some uid = None -> X)) by discriminate.
  destruct token as [tok|];
    [|destruct Honly as (A & B & C & D); split; [exact A|]; split; [exact B|];
      split; [exact C | apply Hsome]].
  destruct (_ && _);
    [|destruct Honly as (A & B & C & D); split; [exact A|]; split; [exact B|];
      split; [exact C | apply Hsome]].
  assert (Hopt : forall x,
             medias x
             <= medias (snd ((if update then fetchAndStoreInstagramPosts env uid tok
                              else ret tt) x)) <= S (medias x)
             /\ https (snd ((if update then fetchAndStoreInstagramPosts env uid tok
                             else ret tt) x)) = https x
             /\ postsGrow x (snd ((if update then fetchAndStoreInstagramPosts env uid tok
                                   else ret tt) x))).
  { intros x. destruct update.
    - destruct (fetch_traffic uid tok x) as (A & B & C). rewrite A. repeat split; try lia;
        assumption.
    - simpl. repeat split; try lia. apply postsGrow_refl. }
  unfold bind. destruct (Hopt w) as (A1 & B1 & C1).
  destruct ((if update then fetchAndStoreInstagramPosts env uid tok else ret tt) w)
    as [[[]|e] w1]; simpl in A1, B1, C1; cbn [snd];
    [|split; [lia|]; split; [exact B1|]; split; [exact C1 | apply Hsome]].
  unfold generateContentBasedOnProfileAndInstagram, bind.
  destruct (Hopt w1) as (A2 & B2 & C2).
  destruct ((if update then fetchAndStoreInstagramPosts env uid tok else ret tt) w1)
    as [[[]|e] w2]; simpl in A2, B2, C2; cbn [snd];
    [|split; [lia|]; split; [congruence|];
      split; [exact (postsGrow_trans _ _ _ C1 C2) | apply Hsome]].
  destruct (completeAndParse_traffic profile
              (instagramPrompt profile count (topPostsOf uid w2)) w2) as (Hm & Hh & Hp).
  rewrite Hm, Hh. split; [lia|]. split; [congruence|]. split; [|apply Hsome].
  apply (postsGrow_trans _ _ _ (postsGrow_trans _ _ _ C1 C2)).
  exists []. rewrite Hp. symmetry. apply app_nil_r.
Qed.

Lemma materializeImage_traffic item w :
  medias (snd (materializeImage env item w)) = medias w
  /\ https w <= https (snd (materializeImage env item w)) <= S (https w)
  /\ instagramPosts (snd (materializeImage env item w)) = instagramPosts w.
Proof.
  unfold materializeImage, medias, https.
  destruct (imageUrls item) as [|first others];
    [repeat split; simpl; first [reflexivity | lia]|].
  unfold tryCatch, bind, ret, downloadImageToUploads.
  destruct (fileExists _ _); [repeat split; simpl; first [reflexivity | lia]|].
  destruct (httpGetStream env _ first) as [|e|e [|]];
    repeat split; simpl; first [reflexivity | lia].
Qed.

Lemma phase_traffic profile uid token count update w :
  let w1 := snd (callWithBackoff
                   (generateContentFromProfile env profile uid token count update)
                   3 1000%Z w) in
  medias w <= medias w1 <= medias w + 8
  /\ https w1 = https w
  /\ postsGrow w w1
  /\ (uid = None -> medias w1 = medias w /\ instagramPosts w1 = instagramPosts w).
Proof.
  cbv zeta. set (gen := generateContentFromProfile env profile uid token count update).
  split; [|split; [|split]].
  - apply (callWithBackoff_bounded_by medias 2 gen); [|reflexivity].
    intros x. apply (generation_traffic profile uid token count update x).
  - apply (callWithBackoff_preserves gen (fun x => https x = https w)); [| |reflexivity].
    + intros x Hx. rewrite <- Hx.
      apply (generation_traffic profile uid token count update x).
    + intros ms x Hx. exact Hx.
  - apply (callWithBackoff_preserves gen (postsGrow w)); [| |apply postsGrow_refl].
    + intros x Hx. apply (postsGrow_trans _ _ _ Hx).
      apply (generation_traffic profile uid token count update x).
    + intros ms x Hx. exact Hx.
  - intros Hnone.
    apply (callWithBackoff_preserves gen
             (fun x => medias x = medias w /\ instagramPosts x = instagramPosts w));
      [| |split; reflexivity].
    + intros x [Hm Hp]. rewrite <- Hm, <- Hp.
      apply (generation_traffic profile uid token count update x). exact Hnone.
    + intros ms x Hx. exact Hx.
Qed.

Lemma regenerate_traffic c userId source profile uid token count update w :
  let r := regenerate env c userId source
             (generateContentFromProfile env profile uid token count update) w in
  medias w <= medias (snd r) <= medias w + 8
  /\ postsGrow w (snd r)
  /\ (uid = None ->
      medias (snd r) = medias w /\ instagramPosts (snd r) = instagramPosts w)
  /\ match fst r with
     | Json _ body => https w <= https (snd r) <= https w + length body
     | _ => https (snd r) = https w
     end.
Proof.
  cbv zeta. unfold regenerate, bind.
  destruct (phase_traffic profile uid token count update w) as (Hm & Hh & Hp & Hnone).
  destruct (callWithBackoff _ 3 1000%Z w) as [[generated|e] w1]; cbn [fst snd] in *;
    [|split; [exact Hm|]; split; [exact Hp|]; split; [exact Hnone | exact Hh]].
  pose proof (forEach_keeps medias _ generated
                (fun x x0 => proj1 (materializeImage_traffic x x0)) w1) as Lm.
  pose proof (Stable_forEach _ (materializeImage env) generated
                (fun item => Stable_materializeImage env _
                               (Ignores_posts (instagramPosts w1)) item)
                w1 eq_refl) as Lp.
  pose proof (forEach_bounded https _ generated
                (fun x x0 => proj1 (proj2 (materializeImage_traffic x x0))) w1) as Lh.
  destruct (forEach_materialize env generated w1) as (items & w2 & Hloop & Hfields & _).
  rewrite Hloop in Lm, Lp, Lh |- *. cbn [fst snd] in *.
  assert (Hlen : length items = length generated).
  { rewrite <- (length_map fields items), Hfields, length_map. reflexivity. }
  unfold insertMany. cbn [fst snd]. rewrite newDocs_length.
  assert (Hcalls : forall l, medias (log (EvInsertMany c (length items))
                                      (bumpIds (length items) (setCollection c l w2)))
                             = medias w2
                             /\ https (log (EvInsertMany c (length items))
                                         (bumpIds (length items) (setCollection c l w2)))
                                = https w2
                             /\ instagramPosts
                                  (log (EvInsertMany c (length items))
                                     (bumpIds (length items) (setCollection c l w2)))
                                = instagramPosts w2).
  { intros l. destruct c; repeat split. }
  destruct (Hcalls (collection c w2
                    ++ newDocs env userId source (now w2) (idCalls (calls w2)) items))
    as (Cm & Ch & Cp).
  split; [rewrite Cm, Lm; exact Hm|].
  split; [unfold postsGrow in *; rewrite Cp, Lp; exact Hp|].
  split; [intros H; rewrite Cm, Cp, Lm, Lp; exact (Hnone H)|].
  rewrite Ch. lia.
Qed.

End Traffic.

(** The handlers made from the business profile, [getOrGenerateSuggestions]
    and [refreshSingleSuggestion], never call the media API and leave the
    cache of social posts as it is.  [getOrGenerateUserSuggestions] calls
    the media API at most eight times in a request, twice in each run of
    the generation, and only adds posts to the cache. *)
Theorem media_api_traffic (env : Env) (userId suggestionId : string) (w : World) :
  (mediaCalls (calls (snd (getOrGenerateSuggestions env userId w))) = mediaCalls (calls w)
   /\ instagramPosts (snd (getOrGenerateSuggestions env userId w)) = instagramPosts w)
  /\ (mediaCalls (calls (snd (refreshSingleSuggestion env suggestionId userId w)))
      = mediaCalls (calls w)
      /\ instagramPosts (snd (refreshSingleSuggestion env suggestionId userId w))
         = instagramPosts w)
  /\ (mediaCalls (calls w)
      <= mediaCalls (calls (snd (getOrGenerateUserSuggestions env userId w)))
      <= mediaCalls (calls w) + 8
      /\ postsGrow w (snd (getOrGenerateUserSuggestions env userId w))).
Proof.
  split; [|split].
  - unfold getOrGenerateSuggestions.
    destruct (negb _); [split; reflexivity|].
    destruct (findUser userId w); [|split; reflexivity].
    destruct (_ || _); [|split; reflexivity].
    destruct (findProfile _ _) as [profile|]; [|split; reflexivity].
    apply (regenerate_traffic env ContentSuggestion userId businessProfile profile
             None None 3%Z false (businessEvicted userId w)). reflexivity.
  - unfold refreshSingleSuggestion.
    destruct (negb (objectIdIsValid env userId)); [split; reflexivity|].
    destruct (findProfile userId w) as [profile|]; [|split; reflexivity].
    destruct (phase_traffic env profile None None 1%Z false w) as (_ & _ & _ & Hnone).
    specialize (Hnone eq_refl).
    destruct (callWithBackoff _ 3 1000%Z w) as [[[|newContent others]|e] w1];
      cbn [fst snd] in *; try exact Hnone.
    destruct (materializeImage_traffic env newContent w1) as (Mm & _ & Mp).
    cbv beta zeta in Hnone, Mm, Mp. destruct Hnone as [Hm Hp].
    destruct (materializeImage env newContent w1) as [[item'|e] w2];
      cbn [fst snd] in *; [|split; congruence].
    destruct (negb (objectIdIsValid env suggestionId)); [split; simpl; congruence|].
    destruct (updateFirst _ _ _) as [[updated l]|]; split; simpl; congruence.
  - unfold getOrGenerateUserSuggestions.
    destruct (String.eqb userId EmptyString); [split; [simpl; lia | exists []; simpl; symmetry; apply app_nil_r]|].
    destruct (negb _); [split; [simpl; lia | exists []; simpl; symmetry; apply app_nil_r]|].
    destruct (findUser userId w) as [user|]; [|split; [simpl; lia | exists []; simpl; symmetry; apply app_nil_r]].
    destruct (_ || _); [split; [simpl; lia | exists []; simpl; symmetry; apply app_nil_r]|].
    destruct (shouldGenerate _ _); [|split; [simpl; lia | exists []; simpl; symmetry; apply app_nil_r]].
    destruct (findProfile _ _) as [profile|]; [|split; [simpl; lia | exists []; simpl; symmetry; apply app_nil_r]].
    destruct (regenerate_traffic env InstagramContentSuggestion userId userProfile profile
                (Some userId) (instagramAccessToken user) 3%Z true (userEvicted userId w))
      as (Hm & Hp & _).
    split; [exact Hm | exact Hp].
Qed.

(** Downloads.  A request to [getOrGenerateSuggestions] or to
    [getOrGenerateUserSuggestions] that is answered with a list of
    suggestions has made at most one download for each suggestion of the
    list, and a request answered otherwise has made none;
    [refreshSingleSuggestion] makes one download at most. *)
Theorem downloads_bounded (env : Env) (userId suggestionId : string) (w : World) :
  match fst (getOrGenerateSuggestions env userId w) with
  | Json _ body =>
      httpCalls (calls w)
      <= httpCalls (calls (snd (getOrGenerateSuggestions env userId w)))
      <= httpCalls (calls w) + length body
  | _ => httpCalls (calls (snd (getOrGenerateSuggestions env userId w)))
         = httpCalls (calls w)
  end
  /\ match fst (getOrGenerateUserSuggestions env userId w) with
     | Json _ body =>
         httpCalls (calls w)
         <= httpCalls (calls (snd (getOrGenerateUserSuggestions env userId w)))
         <= httpCalls (calls w) + length body
     | _ => httpCalls (calls (snd (getOrGenerateUserSuggestions env userId w)))
            = httpCalls (calls w)
     end
  /\ httpCalls (calls w)
     <= httpCalls (calls (snd (refreshSingleSuggestion env suggestionId userId w)))
     <= S (httpCalls (calls w)).
Proof.
  split; [|split].
  - unfold getOrGenerateSuggestions.
    destruct (negb _); [reflexivity|].
    destruct (findUser userId w); [|reflexivity].
    destruct (_ || _); [|cbn [fst snd]; lia].
    destruct (findProfile _ _) as [profile|]; [|reflexivity].
    apply (regenerate_traffic env ContentSuggestion userId businessProfile profile
             None None 3%Z false (businessEvicted userId w)).
  - unfold getOrGenerateUserSuggestions.
    destruct (String.eqb userId EmptyString); [reflexivity|].
    destruct (negb _); [reflexivity|].
    destruct (findUser userId w) as [user|]; [|reflexivity].
    destruct (_ || _); [reflexivity|].
    destruct (shouldGenerate _ _); [|cbn [fst snd]; lia].
    destruct (findProfile _ _) as [profile|]; [|reflexivity].
    apply (regenerate_traffic env InstagramContentSuggestion userId userProfile profile
             (Some userId) (instagramAccessToken user) 3%Z true (userEvicted userId w)).
  - unfold refreshSingleSuggestion.
    destruct (negb (objectIdIsValid env userId)); [simpl; lia|].
    destruct (findProfile userId w) as [profile|]; [|simpl; lia].
    destruct (phase_traffic env profile None None 1%Z false w) as (_ & Hh & _).
    destruct (callWithBackoff _ 3 1000%Z w) as [[[|newContent others]|e] w1];
      cbn [fst snd] in *; try lia.
    destruct (materializeImage_traffic env newContent w1) as (_ & Mh & _).
    destruct (materializeImage env newContent w1) as [[item'|e] w2];
      cbn [fst snd] in *; [|lia].
    destruct (negb (objectIdIsValid env suggestionId)); [simpl; lia|].
    destruct (updateFirst _ _ _) as [[updated l]|]; simpl; lia.
Qed.
